(** * ShipSegmentation: bounding boxes, MASATI annotations and mask creation

    A shallow embedding of [shipseg/utils/annotation.py] and
    [shipseg/data/preprocess/annotation_to_mask.py].

    Python values are modelled as the code has them:
    - a coordinate is an [int | float]: a tagged number [num], an unbounded
      integer or a float;
    - the float arithmetic is an interface ([FloatArith]) with two
      implementations: [binary64] (IEEE 754 double precision, the floats
      CPython computes with, on Rocq's primitive floats) and [exact]
      (rational numbers, every operation exact);
    - an exception is a value of [exn]; a call that may raise returns a
      [result];
    - a [str] is a [string] of ASCII characters;
    - a NumPy array is its shape and its items. *)

From Stdlib Require Import ZArith QArith Qcanon Qround Bool List String Ascii Lia Lqa.
From Stdlib Require Import Floats.
From Stdlib Require Import Permutation.
From Stdlib Require Uint63.
Import ListNotations.

Local Open Scope string_scope.
Local Open Scope Z_scope.

(** ** Exceptions *)

Inductive exn : Type :=
| ValueError
| TypeError
| IndexError
| AttributeError
| OverflowError
| ZeroDivisionError.

Inductive result (A : Type) : Type :=
| Return (a : A)
| Raise (e : exn).

Arguments Return {A} a.
Arguments Raise {A} e.

Definition bind {A B : Type} (m : result A) (k : A -> result B) : result B :=
  match m with
  | Return a => k a
  | Raise e => Raise e
  end.

Notation "x <- m ;; k" := (bind m (fun x => k))
  (at level 61, m at next level, right associativity).

Fixpoint mapM {A B : Type} (f : A -> result B) (l : list A) : result (list B) :=
  match l with
  | [] => Return []
  | a :: l' => b <- f a ;; bs <- mapM f l' ;; Return (b :: bs)
  end.

Definition raises {A : Type} (m : result A) : Prop :=
  exists e, m = Raise e.

(** ** Strings: [str.split], [str.strip] and the literals of [int] and [float] *)

(** [str.isspace] on one ASCII character: tab to carriage return, the four
    separators 28 to 31, and the space. *)
Definition isspace (c : ascii) : bool :=
  let n := Z.of_nat (nat_of_ascii c) in
  ((9 <=? n) && (n <=? 13)) || ((28 <=? n) && (n <=? 31)) || (n =? 32).

Definition is_empty (s : string) : bool :=
  match s with EmptyString => true | _ => false end.

(** [s.split()]: the maximal runs of characters that are not whitespace. *)
Fixpoint split_from (s : string) (tok : string) : list string :=
  match s with
  | EmptyString => if is_empty tok then [] else [tok]
  | String c s' =>
      if isspace c
      then (if is_empty tok then split_from s' "" else tok :: split_from s' "")
      else split_from s' (tok ++ String c "")
  end.

Definition split (s : string) : list string := split_from s "".

(** [s.split(sep)] for a separator of one character: never empty. *)
Fixpoint split_on_from (sep : ascii) (s : string) (tok : string) : list string :=
  match s with
  | EmptyString => [tok]
  | String c s' =>
      if Ascii.eqb c sep
      then tok :: split_on_from sep s' ""
      else split_on_from sep s' (tok ++ String c "")
  end.

Definition split_on (sep : ascii) (s : string) : list string :=
  split_on_from sep s "".

Definition newline : ascii := ascii_of_nat 10.

Fixpoint lstrip (l : list ascii) : list ascii :=
  match l with
  | c :: l' => if isspace c then lstrip l' else l
  | [] => []
  end.

Definition strip (l : list ascii) : list ascii :=
  rev (lstrip (rev (lstrip l))).

Definition digit_of (c : ascii) : option Z :=
  let n := Z.of_nat (nat_of_ascii c) in
  if (48 <=? n) && (n <=? 57) then Some (n - 48) else None.

Definition is_underscore (c : ascii) : bool := Ascii.eqb c "_"%char.

(** After a digit: more digits, each possibly preceded by one underscore. *)
Fixpoint digits_tail (l : list ascii) : list Z * list ascii :=
  match l with
  | c :: l' =>
      match digit_of c with
      | Some d => let (ds, r) := digits_tail l' in (d :: ds, r)
      | None =>
          if is_underscore c then
            match l' with
            | c' :: l'' =>
                match digit_of c' with
                | Some d => let (ds, r) := digits_tail l'' in (d :: ds, r)
                | None => ([], l)
                end
            | [] => ([], l)
            end
          else ([], l)
      end
  | [] => ([], [])
  end.

(** [digitpart ::= digit (["_"] digit)*]: the digits read and what follows. *)
Definition digitpart (l : list ascii) : option (list Z * list ascii) :=
  match l with
  | c :: l' =>
      match digit_of c with
      | Some d => let (ds, r) := digits_tail l' in Some (d :: ds, r)
      | None => None
      end
  | [] => None
  end.

Definition Z_of_digits (ds : list Z) : Z :=
  fold_left (fun acc d => 10 * acc + d) ds 0.

(** An optional sign: [true] for a minus. *)
Definition sign (l : list ascii) : bool * list ascii :=
  match l with
  | "-"%char :: l' => (true, l')
  | "+"%char :: l' => (false, l')
  | _ => (false, l)
  end.

Definition negate_if (neg : bool) (z : Z) : Z := if neg then - z else z.

(** [int(s)] for a string: whitespace stripped, an optional sign, a
    [digitpart] in base ten. *)
Definition int_of_str (s : string) : result Z :=
  let (neg, l) := sign (strip (list_ascii_of_string s)) in
  match digitpart l with
  | Some (ds, []) => Return (negate_if neg (Z_of_digits ds))
  | _ => Raise ValueError
  end.

(** What a float literal denotes: [FDec neg m e] is [(-1)^neg * m * 10^e]. *)
Inductive float_literal : Type :=
| FDec (neg : bool) (m : Z) (e : Z)
| FInf (neg : bool)
| FNan.

Definition lower (c : ascii) : ascii :=
  let n := nat_of_ascii c in
  if ((65 <=? n) && (n <=? 90))%nat then ascii_of_nat (n + 32) else c.

Definition lower_str (l : list ascii) : string :=
  string_of_list_ascii (map lower l).

(** [exponent ::= ("e" | "E") [sign] digitpart], or nothing; the input must
    end there. *)
Definition exponent (l : list ascii) : option Z :=
  match l with
  | [] => Some 0
  | c :: l' =>
      if Ascii.eqb (lower c) "e"%char then
        let (neg, l'') := sign l' in
        match digitpart l'' with
        | Some (ds, []) => Some (negate_if neg (Z_of_digits ds))
        | _ => None
        end
      else None
  end.

(** [number ::= [digitpart] "." digitpart | digitpart ["."]], then the
    exponent: the digits as one integer and the power of ten. *)
Definition floatnumber (l : list ascii) : option (Z * Z) :=
  match digitpart l with
  | Some (ip, "."%char :: r) =>
      match digitpart r with
      | Some (fp, r') =>
          match exponent r' with
          | Some e => Some (Z_of_digits (ip ++ fp)%list, e - Z.of_nat (List.length fp))
          | None => None
          end
      | None =>
          match exponent r with
          | Some e => Some (Z_of_digits ip, e)
          | None => None
          end
      end
  | Some (ip, r) =>
      match exponent r with
      | Some e => Some (Z_of_digits ip, e)
      | None => None
      end
  | None =>
      match l with
      | "."%char :: r =>
          match digitpart r with
          | Some (fp, r') =>
              match exponent r' with
              | Some e => Some (Z_of_digits fp, e - Z.of_nat (List.length fp))
              | None => None
              end
          | None => None
          end
      | _ => None
      end
  end.

(** The grammar of [float(s)]: whitespace stripped, an optional sign, then
    [inf], [infinity] or [nan] in any case, or a decimal number. *)
Definition float_literal_of_str (s : string) : option float_literal :=
  let (neg, l) := sign (strip (list_ascii_of_string s)) in
  let w := lower_str l in
  if String.eqb w "inf" || String.eqb w "infinity" then Some (FInf neg)
  else if String.eqb w "nan" then Some FNan
  else
    match floatnumber l with
    | Some (m, e) => Some (FDec neg m e)
    | None => None
    end.

(** ** Float arithmetic as an interface

    What the code asks of Python's floats, as operations on a carrier [F].
    [fval] is the rational number a float stands for, when it is one. *)

Class FloatArith (F : Type) : Type := {
  (** [float(n)] for an int, as mixed arithmetic converts it. *)
  float_of_int : Z -> result F;
  (** The value of a float literal. *)
  float_of_literal : float_literal -> result F;
  fadd : F -> F -> F;
  fsub : F -> F -> F;
  fmul : F -> F -> F;
  (** [x / y] on floats: [ZeroDivisionError] when [y] is zero. *)
  ftruediv : F -> F -> result F;
  (** [a / b] on ints: the quotient as a float. *)
  int_truediv : Z -> Z -> result F;
  (** [int(x)]: truncation towards zero. *)
  int_of_float : F -> result Z;
  (** [a <= x] and [x <= b] between an int and a float: Python compares the
      two numbers, it does not convert the int. *)
  int_le_float : Z -> F -> bool;
  float_le_int : F -> Z -> bool;
  (** [x < y] on floats. *)
  flt : F -> F -> bool;
  fval : F -> option Q
}.

(** [float(s)] for a string. *)
Definition float_of_str {F : Type} `{FloatArith F} (s : string) : result F :=
  match float_literal_of_str s with
  | Some l => float_of_literal l
  | None => Raise ValueError
  end.

(** ** Numbers: [int | float] *)

Inductive num (F : Type) : Type :=
| PyInt (z : Z)
| PyFloat (f : F).

Arguments PyInt {F} z.
Arguments PyFloat {F} f.

Section Numbers.
Context {F : Type} `{FloatArith F}.

(** The float of a number, for an operation with a float operand. *)
Definition to_float (a : num F) : result F :=
  match a with
  | PyInt z => float_of_int z
  | PyFloat f => Return f
  end.

Definition arith (iop : Z -> Z -> Z) (fop : F -> F -> F) (a b : num F)
  : result (num F) :=
  match a, b with
  | PyInt x, PyInt y => Return (PyInt (iop x y))
  | _, _ => x <- to_float a ;; y <- to_float b ;; Return (PyFloat (fop x y))
  end.

(** [a + b], [a - b], [a * b] *)
Definition num_add : num F -> num F -> result (num F) := arith Z.add fadd.
Definition num_sub : num F -> num F -> result (num F) := arith Z.sub fsub.
Definition num_mul : num F -> num F -> result (num F) := arith Z.mul fmul.

(** [a / b]: always a float. *)
Definition num_truediv (a b : num F) : result (num F) :=
  match a, b with
  | PyInt x, PyInt y => q <- int_truediv x y ;; Return (PyFloat q)
  | _, _ =>
      x <- to_float a ;; y <- to_float b ;;
      q <- ftruediv x y ;; Return (PyFloat q)
  end.

(** [int(a)] *)
Definition num_int (a : num F) : result Z :=
  match a with
  | PyInt z => Return z
  | PyFloat f => int_of_float f
  end.

(** [lo <= a] and [a <= hi] for an int [lo] or [hi]. *)
Definition int_le_num (lo : Z) (a : num F) : bool :=
  match a with
  | PyInt z => lo <=? z
  | PyFloat f => int_le_float lo f
  end.

Definition num_le_int (a : num F) (hi : Z) : bool :=
  match a with
  | PyInt z => z <=? hi
  | PyFloat f => float_le_int f hi
  end.

(** The chained comparison [lo <= a <= hi]. *)
Definition num_between (lo : Z) (a : num F) (hi : Z) : bool :=
  int_le_num lo a && num_le_int a hi.

(** The rational number [a] stands for, when it is one. *)
Definition num_val (a : num F) : option Q :=
  match a with
  | PyInt z => Some (inject_Z z)
  | PyFloat f => fval f
  end.

(** A slice bound must be an int: [a.__index__()]. *)
Definition num_index (a : num F) : result Z :=
  match a with
  | PyInt z => Return z
  | PyFloat _ => Raise TypeError
  end.
End Numbers.

(** ** The boxes *)

(** [IBoundingBox]: the interface of all bounding boxes. [is_relative],
    [to_relative] and [to_absolute] are abstract; [is_absolute] is defined
    on top of [is_relative]. *)
Class IBoundingBox (B : Type) : Type := {
  class_id : B -> Z;
  is_relative : B -> bool;
  to_relative : B -> Z -> Z -> result B;
  to_absolute : B -> Z -> Z -> result B
}.

Definition is_absolute {B : Type} `{IBoundingBox B} (self : B) : bool :=
  negb (is_relative self).

Record BoundingBox (F : Type) : Type := mkBoundingBox {
  bbox_class_id : Z;
  min_x : num F;
  max_x : num F;
  min_y : num F;
  max_y : num F
}.

Arguments mkBoundingBox {F}.
Arguments bbox_class_id {F}.
Arguments min_x {F}.
Arguments max_x {F}.
Arguments min_y {F}.
Arguments max_y {F}.

Record CenteredBoundingBox (F : Type) : Type := mkCenteredBoundingBox {
  cbbox_class_id : Z;
  center_x : num F;
  center_y : num F;
  width : num F;
  height : num F
}.

Arguments mkCenteredBoundingBox {F}.
Arguments cbbox_class_id {F}.
Arguments center_x {F}.
Arguments center_y {F}.
Arguments width {F}.
Arguments height {F}.

(** [check_is_relative = lambda coordinate: 0 <= coordinate <= 1] *)
Definition check_is_relative {F : Type} `{FloatArith F} (coordinate : num F) : bool :=
  num_between 0 coordinate 1.

Module BoundingBox.
Section Methods.
Context {F : Type} `{FloatArith F}.

Definition is_relative (self : BoundingBox F) : bool :=
  check_is_relative (min_x self) &&
  check_is_relative (max_x self) &&
  check_is_relative (min_y self) &&
  check_is_relative (max_y self).

(** Inherited from [IBoundingBox]: [not self.is_relative]. *)
Definition is_absolute (self : BoundingBox F) : bool :=
  negb (is_relative self).

Definition to_absolute (self : BoundingBox F) (img_width img_height : Z)
  : result (BoundingBox F) :=
  if negb (is_absolute self) then
    x0 <- (p <- num_mul (min_x self) (PyInt img_width) ;; num_int p) ;;
    x1 <- (p <- num_mul (max_x self) (PyInt img_width) ;; num_int p) ;;
    y0 <- (p <- num_mul (min_y self) (PyInt img_height) ;; num_int p) ;;
    y1 <- (p <- num_mul (max_y self) (PyInt img_height) ;; num_int p) ;;
    Return (mkBoundingBox (bbox_class_id self)
              (PyInt x0) (PyInt x1) (PyInt y0) (PyInt y1))
  else
    Return (mkBoundingBox (bbox_class_id self)
              (min_x self) (max_x self) (min_y self) (max_y self)).

Definition to_relative (self : BoundingBox F) (img_width img_height : Z)
  : result (BoundingBox F) :=
  if negb (is_relative self) then
    x0 <- num_truediv (min_x self) (PyInt img_width) ;;
    x1 <- num_truediv (max_x self) (PyInt img_width) ;;
    y0 <- num_truediv (min_y self) (PyInt img_height) ;;
    y1 <- num_truediv (max_y self) (PyInt img_height) ;;
    Return (mkBoundingBox (bbox_class_id self) x0 x1 y0 y1)
  else
    Return (mkBoundingBox (bbox_class_id self)
              (min_x self) (max_x self) (min_y self) (max_y self)).

Definition to_centered_bbox (self : BoundingBox F)
  : result (CenteredBoundingBox F) :=
  cx <- (s <- num_add (min_x self) (max_x self) ;; num_truediv s (PyInt 2)) ;;
  cy <- (s <- num_add (min_y self) (max_y self) ;; num_truediv s (PyInt 2)) ;;
  w <- num_sub (max_x self) (min_x self) ;;
  h <- num_sub (max_y self) (min_y self) ;;
  Return (mkCenteredBoundingBox (bbox_class_id self) cx cy w h).
End Methods.
End BoundingBox.

#[export] Instance BoundingBox_IBoundingBox {F : Type} `{FloatArith F}
  : IBoundingBox (BoundingBox F) := {
  class_id := bbox_class_id;
  is_relative := BoundingBox.is_relative;
  to_relative := BoundingBox.to_relative;
  to_absolute := BoundingBox.to_absolute
}.

Module CenteredBoundingBox.
Section Methods.
Context {F : Type} `{FloatArith F}.

Definition is_relative (self : CenteredBoundingBox F) : bool :=
  check_is_relative (center_x self) &&
  check_is_relative (center_y self) &&
  check_is_relative (width self) &&
  check_is_relative (height self).

(** Inherited from [IBoundingBox]: [not self.is_relative]. *)
Definition is_absolute (self : CenteredBoundingBox F) : bool :=
  negb (is_relative self).

Definition to_absolute (self : CenteredBoundingBox F) (img_width img_height : Z)
  : result (CenteredBoundingBox F) :=
  if negb (is_absolute self) then
    cx <- (p <- num_mul (center_x self) (PyInt img_width) ;; num_int p) ;;
    cy <- (p <- num_mul (center_y self) (PyInt img_height) ;; num_int p) ;;
    w <- (p <- num_mul (width self) (PyInt img_width) ;; num_int p) ;;
    h <- (p <- num_mul (height self) (PyInt img_height) ;; num_int p) ;;
    Return (mkCenteredBoundingBox (cbbox_class_id self)
              (PyInt cx) (PyInt cy) (PyInt w) (PyInt h))
  else
    Return (mkCenteredBoundingBox (cbbox_class_id self)
              (center_x self) (center_y self) (width self) (height self)).

Definition to_relative (self : CenteredBoundingBox F) (img_width img_height : Z)
  : result (CenteredBoundingBox F) :=
  if negb (is_relative self) then
    cx <- num_truediv (center_x self) (PyInt img_width) ;;
    cy <- num_truediv (center_y self) (PyInt img_height) ;;
    w <- num_truediv (width self) (PyInt img_width) ;;
    h <- num_truediv (height self) (PyInt img_height) ;;
    Return (mkCenteredBoundingBox (cbbox_class_id self) cx cy w h)
  else
    Return (mkCenteredBoundingBox (cbbox_class_id self)
              (center_x self) (center_y self) (width self) (height self)).

Definition to_bbox (self : CenteredBoundingBox F) : result (BoundingBox F) :=
  x0 <- (d <- num_truediv (width self) (PyInt 2) ;; num_sub (center_x self) d) ;;
  x1 <- (d <- num_truediv (width self) (PyInt 2) ;; num_add (center_x self) d) ;;
  y0 <- (d <- num_truediv (height self) (PyInt 2) ;; num_sub (center_y self) d) ;;
  y1 <- (d <- num_truediv (height self) (PyInt 2) ;; num_add (center_y self) d) ;;
  Return (mkBoundingBox (cbbox_class_id self) x0 x1 y0 y1).

(** [from_str]: [None] is Python's [None], which both early returns give. *)
Definition from_str (centered_bbox_str : string)
  : result (option (CenteredBoundingBox F)) :=
  (* Step 1: Obtaining the bbox information (if any) *)
  let bbox_data := split centered_bbox_str in
  (* Step 2: Checking for empty strings and wrong representations *)
  if (List.length bbox_data =? 0)%nat then Return None
  else if negb (List.length bbox_data =? 5)%nat then Return None
  else
    (* Step 3: Returning the centered bounding box object *)
    match bbox_data with
    | [t0; t1; t2; t3; t4] =>
        c <- int_of_str t0 ;;
        cx <- float_of_str t1 ;;
        cy <- float_of_str t2 ;;
        w <- float_of_str t3 ;;
        h <- float_of_str t4 ;;
        Return (Some (mkCenteredBoundingBox c
                        (PyFloat cx) (PyFloat cy) (PyFloat w) (PyFloat h)))
    | _ => Raise IndexError
    end.
End Methods.
End CenteredBoundingBox.

#[export] Instance CenteredBoundingBox_IBoundingBox {F : Type} `{FloatArith F}
  : IBoundingBox (CenteredBoundingBox F) := {
  class_id := cbbox_class_id;
  is_relative := CenteredBoundingBox.is_relative;
  to_relative := CenteredBoundingBox.to_relative;
  to_absolute := CenteredBoundingBox.to_absolute
}.

(** ** The annotation of an image *)

(** [_raw_annotations] is declared [List[CenteredBoundingBox]]; [from_str]
    stores what [CenteredBoundingBox.from_str] returns, which may be [None]. *)
Record MASATIImageAnnotation (F : Type) : Type := mkMASATIImageAnnotation {
  _raw_annotations : list (option (CenteredBoundingBox F))
}.

Arguments mkMASATIImageAnnotation {F}.
Arguments _raw_annotations {F}.

Inductive str_or_list : Type :=
| Str (s : string)
| StrList (l : list string).

Module MASATIImageAnnotation.
Section Methods.
Context {F : Type} `{FloatArith F}.

(** [__post_init__]: an empty list when the raw annotations are omitted. *)
Definition __post_init__
    (_raw_annotations : option (list (option (CenteredBoundingBox F))))
  : MASATIImageAnnotation F :=
  mkMASATIImageAnnotation
    (match _raw_annotations with
     | None => []
     | Some l => l
     end).

Definition centered_annotations (self : MASATIImageAnnotation F)
  : list (option (CenteredBoundingBox F)) :=
  _raw_annotations self.

(** [centered_bbox.to_bbox()] on an entry: [None] has no such attribute. *)
Definition entry_to_bbox (centered_bbox : option (CenteredBoundingBox F))
  : result (BoundingBox F) :=
  match centered_bbox with
  | Some c => CenteredBoundingBox.to_bbox c
  | None => Raise AttributeError
  end.

Definition annotations (self : MASATIImageAnnotation F)
  : result (list (BoundingBox F)) :=
  mapM entry_to_bbox (_raw_annotations self).

Definition from_str (image_annotations : str_or_list)
  : result (MASATIImageAnnotation F) :=
  (* Step 1: Checking for str vs List[str] *)
  let image_annotations :=
    match image_annotations with
    | Str s => split_on newline s
    | StrList l => l
    end in
  (* Step 2: Creating the annotation object *)
  raw <- mapM CenteredBoundingBox.from_str
           (filter (fun bbox_repr => negb (String.eqb bbox_repr ""))
              image_annotations) ;;
  Return (__post_init__ (Some raw)).
End Methods.
End MASATIImageAnnotation.

(** ** NumPy arrays *)

(** An array is its shape and the item at each index; the memory behind it
    is not modelled. *)
Record ndarray : Type := mkndarray {
  shape : list Z;
  item : list Z -> Z
}.

Definition ndim (a : ndarray) : Z := Z.of_nat (List.length (shape a)).

(** [t[i]] on a tuple: a negative index counts from the end. *)
Definition getitem (t : list Z) (i : Z) : result Z :=
  let j := if i <? 0 then i + Z.of_nat (List.length t) else i in
  if j <? 0 then Raise IndexError
  else
    match nth_error t (Z.to_nat j) with
    | Some v => Return v
    | None => Raise IndexError
    end.

(** [a.transpose(2, 0, 1)]: the axes must be those of [a]. *)
Definition transpose_2_0_1 (a : ndarray) : result ndarray :=
  match shape a with
  | [s0; s1; s2] =>
      Return (mkndarray [s2; s0; s1]
                (fun idx =>
                   match idx with
                   | [i; j; k] => item a [j; k; i]
                   | _ => 0
                   end))
  | _ => Raise ValueError
  end.

(** [np.zeros(shape, dtype=np.uint8)] *)
Definition zeros (shp : list Z) : ndarray := mkndarray shp (fun _ => 0).

(** [slice(start, stop).indices(n)]: a negative bound counts from the end,
    and both bounds are clipped to [0, n]. *)
Definition adjust_index (n i : Z) : Z :=
  if i <? 0 then (if i + n <? 0 then 0 else i + n)
  else if n <=? i then n else i.

Definition in_slice (n start stop i : Z) : bool :=
  (adjust_index n start <=? i) && (i <? adjust_index n stop).

(** [a[r0:r1, c0:c1] = v]: two slices need two axes ([IndexError]
    otherwise), and NumPy takes a slice bound through [__index__], which a
    float does not have ([TypeError]); the slices are then clipped as
    Python clips them. *)
Definition setitem_slices {F : Type} (a : ndarray) (r0 r1 c0 c1 : num F) (v : Z)
  : result ndarray :=
  match shape a with
  | n0 :: n1 :: _ =>
      r0 <- num_index r0 ;; r1 <- num_index r1 ;;
      c0 <- num_index c0 ;; c1 <- num_index c1 ;;
      Return (mkndarray (shape a)
                (fun idx =>
                   match idx with
                   | i :: j :: _ =>
                       if in_slice n0 r0 r1 i && in_slice n1 c0 c1 j
                       then v else item a idx
                   | _ => item a idx
                   end))
  | _ => Raise IndexError
  end.

(** The number of items of a two-dimensional array that are not zero. *)
Definition count_nonzero (a : ndarray) : Z :=
  match shape a with
  | [n0; n1] =>
      fold_left
        (fun acc i =>
           fold_left
             (fun acc j => if item a [i; j] =? 0 then acc else acc + 1)
             (map Z.of_nat (seq 0 (Z.to_nat n1))) acc)
        (map Z.of_nat (seq 0 (Z.to_nat n0))) 0
  | _ => 0
  end.

(** ** From an annotation to a mask *)

Record Annotation2Mask (F : Type) : Type := mkAnnotation2Mask {
  img : ndarray;
  annotations : MASATIImageAnnotation F
}.

Arguments mkAnnotation2Mask {F}.
Arguments img {F}.
Arguments annotations {F}.

Module Annotation2Mask.
Section Methods.
Context {F : Type} `{FloatArith F}.

(** [__post_init__]: the object after it, or the exception. *)
Definition __post_init__ (self : Annotation2Mask F) : result (Annotation2Mask F) :=
  (* Step 1: Check that the image is three-dimensional *)
  if ndim (img self) >? 3 then Raise ValueError
  else
    (* Step 2: Check that the image has exactly 3 channels *)
    first <- getitem (shape (img self)) 0 ;;
    unknown <- (if negb (first =? 3)
                then last <- getitem (shape (img self)) (-1) ;;
                     Return (negb (last =? 3))
                else Return false) ;;
    if unknown then Raise ValueError
    else
      (* Step 3: If interleaved, convert to planar *)
      last <- getitem (shape (img self)) (-1) ;;
      if last =? 3 then
        planar <- transpose_2_0_1 (img self) ;;
        Return (mkAnnotation2Mask planar (annotations self))
      else Return self.

(** The dataclass call [Annotation2Mask(img=..., annotations=...)]. *)
Definition new (img : ndarray) (annotations : MASATIImageAnnotation F)
  : result (Annotation2Mask F) :=
  __post_init__ (mkAnnotation2Mask img annotations).

(** One turn of the loop of [create_mask]. *)
Definition draw (self : Annotation2Mask F) (mask : ndarray)
    (relative_bbox : BoundingBox F) : result ndarray :=
  img_width <- getitem (shape (img self)) 2 ;;
  img_height <- getitem (shape (img self)) 1 ;;
  bbox <- BoundingBox.to_absolute relative_bbox img_width img_height ;;
  setitem_slices mask (min_y bbox) (max_y bbox) (min_x bbox) (max_x bbox) 255.

Fixpoint draw_all (self : Annotation2Mask F) (mask : ndarray)
    (bboxes : list (BoundingBox F)) : result ndarray :=
  match bboxes with
  | [] => Return mask
  | relative_bbox :: rest =>
      mask' <- draw self mask relative_bbox ;;
      draw_all self mask' rest
  end.

Definition create_mask (self : Annotation2Mask F) : result ndarray :=
  (* Step 1: Create zeros mask *)
  let mask := zeros (tl (shape (img self))) in
  (* Step 2: Draw bboxes in the mask *)
  bboxes <- MASATIImageAnnotation.annotations (annotations self) ;;
  draw_all self mask bboxes.
End Methods.
End Annotation2Mask.

(** ** The floats of CPython: IEEE 754 binary64 *)

Module Binary64.
Definition spec_of_int (z : Z) : spec_float :=
  match z with
  | Z0 => S754_zero false
  | Zpos p => S754_finite false p 0
  | Zneg p => S754_finite true p 0
  end.

(** [float(n)]: the nearest float, ties to even; too large an int raises. *)
Definition float_of_int (z : Z) : result float :=
  match binary_normalize prec emax z 0 false with
  | S754_infinity _ => Raise OverflowError
  | x => Return (SF2Prim x)
  end.

(** The float nearest to [(-1)^neg * m * 10^e], for [0 <= m], ties to
    even: the integer [m * 10^e] rounded, or the quotient of the integers
    [m] and [10^(-e)] rounded once. *)
Definition decimal (neg : bool) (m e : Z) : float :=
  match m with
  | Zpos p =>
      if 0 <=? e
      then SF2Prim (binary_normalize prec emax (negate_if neg (m * 10 ^ e)) 0 false)
      else SF2Prim (SFdiv prec emax (S754_finite neg p 0)
                      (S754_finite false (Z.to_pos (10 ^ (- e))) 0))
  | _ => if neg then neg_zero else zero
  end.

Definition float_of_literal (l : float_literal) : result float :=
  match l with
  | FDec neg m e => Return (decimal neg m e)
  | FInf neg => Return (if neg then neg_infinity else infinity)
  | FNan => Return nan
  end.

Definition ftruediv (x y : float) : result float :=
  if PrimFloat.is_zero y then Raise ZeroDivisionError
  else Return (PrimFloat.div x y).

(** [a / b] on ints: the float nearest to the quotient. *)
Definition int_truediv (a b : Z) : result float :=
  if b =? 0 then Raise ZeroDivisionError
  else
    match SFdiv prec emax (spec_of_int a) (spec_of_int b) with
    | S754_infinity _ => Raise OverflowError
    | x => Return (SF2Prim x)
    end.

(** [int(x)]: no int for NaN and the infinities; the mantissa shifted by
    the exponent otherwise, the bits below the unit dropped. *)
Definition int_of_float (f : float) : result Z :=
  match Prim2SF f with
  | S754_nan => Raise ValueError
  | S754_infinity _ => Raise OverflowError
  | S754_zero _ => Return 0
  | S754_finite s m e =>
      Return (negate_if s
                (if 0 <=? e then Zpos m * 2 ^ e else Zpos m / 2 ^ (- e)))
  end.

(** [a <= x] and [x <= b], on the integers [a * 2^(-e)] and the mantissa
    when the exponent [e] is negative: nothing is rounded. *)
Definition int_le_float (a : Z) (f : float) : bool :=
  match Prim2SF f with
  | S754_nan => false
  | S754_infinity s => negb s
  | S754_zero _ => a <=? 0
  | S754_finite s m e =>
      if 0 <=? e then a <=? negate_if s (Zpos m * 2 ^ e)
      else a * 2 ^ (- e) <=? negate_if s (Zpos m)
  end.

Definition float_le_int (f : float) (b : Z) : bool :=
  match Prim2SF f with
  | S754_nan => false
  | S754_infinity s => s
  | S754_zero _ => 0 <=? b
  | S754_finite s m e =>
      if 0 <=? e then negate_if s (Zpos m * 2 ^ e) <=? b
      else negate_if s (Zpos m) <=? b * 2 ^ (- e)
  end.

(** The number a finite float stands for: mantissa times [2^e]. *)
Definition fval (f : float) : option Q :=
  match Prim2SF f with
  | S754_zero _ => Some 0%Q
  | S754_finite s m e =>
      Some (if 0 <=? e then inject_Z (negate_if s (Zpos m * 2 ^ e))
            else Qmake (negate_if s (Zpos m)) (Z.to_pos (2 ^ (- e))))
  | _ => None
  end.
End Binary64.

#[export] Instance binary64 : FloatArith float := {
  float_of_int := Binary64.float_of_int;
  float_of_literal := Binary64.float_of_literal;
  fadd := PrimFloat.add;
  fsub := PrimFloat.sub;
  fmul := PrimFloat.mul;
  ftruediv := Binary64.ftruediv;
  int_truediv := Binary64.int_truediv;
  int_of_float := Binary64.int_of_float;
  int_le_float := Binary64.int_le_float;
  float_le_int := Binary64.float_le_int;
  flt := PrimFloat.ltb;
  fval := Binary64.fval
}.

(** ** Exact arithmetic: floats as the rational numbers *)

Module Exact.
Definition float_of_int (z : Z) : result Qc := Return (Q2Qc (inject_Z z)).

(** The rationals have no infinity and no NaN. *)
Definition float_of_literal (l : float_literal) : result Qc :=
  match l with
  | FDec neg m e =>
      Return (Q2Qc (inject_Z (negate_if neg m) * Qpower (inject_Z 10) e))
  | _ => Raise ValueError
  end.

Definition ftruediv (x y : Qc) : result Qc :=
  if Qc_eq_bool y (Q2Qc 0) then Raise ZeroDivisionError
  else Return (Qcdiv x y).

Definition int_truediv (a b : Z) : result Qc :=
  if b =? 0 then Raise ZeroDivisionError
  else Return (Q2Qc (inject_Z a / inject_Z b)).

Definition int_of_float (q : Qc) : result Z :=
  Return (Z.quot (Qnum q) (Zpos (Qden q))).

Definition int_le_float (a : Z) (q : Qc) : bool := Qle_bool (inject_Z a) q.
Definition float_le_int (q : Qc) (b : Z) : bool := Qle_bool q (inject_Z b).
Definition flt (x y : Qc) : bool := negb (Qle_bool y x).
Definition fval (q : Qc) : option Q := Some (this q).
End Exact.

#[export] Instance exact : FloatArith Qc := {
  float_of_int := Exact.float_of_int;
  float_of_literal := Exact.float_of_literal;
  fadd := Qcplus;
  fsub := Qcminus;
  fmul := Qcmult;
  ftruediv := Exact.ftruediv;
  int_truediv := Exact.int_truediv;
  int_of_float := Exact.int_of_float;
  int_le_float := Exact.int_le_float;
  float_le_int := Exact.float_le_int;
  flt := Exact.flt;
  fval := Exact.fval
}.

(** The rational number of an [int | float] of the exact arithmetic. *)
Definition qc (a : num Qc) : Qc :=
  match a with
  | PyInt z => Q2Qc (inject_Z z)
  | PyFloat q => q
  end.

(** ** Values, and what the theorems compare *)

Section Values.
Context {F : Type} `{FloatArith F}.

(** [a] is a number of the closed interval [[0,1]]. *)
Definition in_unit_interval (a : num F) : Prop :=
  exists q, num_val a = Some q /\ (0 <= q <= 1)%Q.







(** [b.to_relative(W, H).to_absolute(W, H)] *)
Definition relative_then_absolute (b : BoundingBox F) (W H : Z)
  : result (BoundingBox F) :=
  r <- to_relative b W H ;; to_absolute r W H.

(** [c.to_bbox().to_centered_bbox()] and [b.to_centered_bbox().to_bbox()] *)
Definition center_corner_center (c : CenteredBoundingBox F)
  : result (CenteredBoundingBox F) :=
  b <- CenteredBoundingBox.to_bbox c ;; BoundingBox.to_centered_bbox b.

Definition corner_center_corner (b : BoundingBox F)
  : result (BoundingBox F) :=
  c <- BoundingBox.to_centered_bbox b ;; CenteredBoundingBox.to_bbox c.

(** [0 <= a] fails, and [a] is negative if it is a number at all. *)
Definition negative_coordinate (a : num F) : Prop :=
  int_le_num 0 a = false /\ forall q, num_val a = Some q -> (q < 0)%Q.

(** [center < size / 2], with the half as [to_bbox] computes it. An int
    [center] is compared through its float, as the subtraction converts
    it: for the ints 0 and 1 of a relative box nothing is lost. *)
Definition closer_than_half (center size : num F) : Prop :=
  exists x h,
    to_float center = Return x
    /\ num_truediv size (PyInt 2) = Return (PyFloat h)
    /\ flt x h = true.
End Values.

(** The scenario of the specification: an image 100 pixels wide and 50
    high, as decoded (channel last), and one annotation line. *)
Definition scenario_line : string := "0 0.5 0.5 0.2 0.4".

(** The line, a line of one space, and the end of the text. *)
Definition blank_line_text : string :=
  scenario_line ++ String newline (" " ++ String newline "").

Definition scenario_img : ndarray := mkndarray [50; 100; 3] (fun _ => 0).

Definition scenario_box : CenteredBoundingBox float :=
  mkCenteredBoundingBox 0
    (PyFloat (Binary64.decimal false 5 (-1)))
    (PyFloat (Binary64.decimal false 5 (-1)))
    (PyFloat (Binary64.decimal false 2 (-1)))
    (PyFloat (Binary64.decimal false 4 (-1))).

Definition scenario_annotation : MASATIImageAnnotation float :=
  mkMASATIImageAnnotation [Some scenario_box].

Definition scenario_self : Annotation2Mask float :=
  mkAnnotation2Mask
    (mkndarray [3; 50; 100]
       (fun idx => match idx with
                   | [i; j; k] => item scenario_img [j; k; i]
                   | _ => 0
                   end))
    scenario_annotation.

Definition scenario_mask : ndarray :=
  mkndarray [50; 100]
    (fun idx =>
       match idx with
       | i :: j :: _ =>
           if in_slice 50 15 35 i && in_slice 100 40 60 j then 255 else 0
       | _ => 0
       end).


Definition pixel_box {F : Type} : BoundingBox F :=
  mkBoundingBox 0 (PyInt 29) (PyInt 58) (PyInt 57) (PyInt 60).



(** On binary64: the pixel [x] of an axis of [n] pixels, divided by [n], is
    in [[0,1]] and comes back as [x] or [x - 1] through [int(... * n)]. *)
Definition pixel_round_trip (n x : Z) : bool :=
  match num_truediv (F := float) (PyInt x) (PyInt n) with
  | Return r =>
      check_is_relative r &&
      match (p <- num_mul r (PyInt n) ;; num_int p) with
      | Return t => (x - 1 <=? t) && (t <=? x)
      | Raise _ => false
      end
  | Raise _ => false
  end.

(** The ints from 0 to [n]. *)
Definition upto (n : Z) : list Z := map Z.of_nat (seq 0 (S (Z.to_nat n))).

(** A box over the left edge of the image: center 0.05, width 0.2. *)
Definition edge_box : CenteredBoundingBox float :=
  mkCenteredBoundingBox 0
    (PyFloat (Binary64.decimal false 5 (-2)))
    (PyFloat (Binary64.decimal false 5 (-1)))
    (PyFloat (Binary64.decimal false 2 (-1)))
    (PyFloat (Binary64.decimal false 4 (-1))).

(** A box over the right and bottom edges: center 0.9, width and height 0.4. *)
Definition outside_line : string := "0 0.9 0.9 0.4 0.4".

Definition outside_box : CenteredBoundingBox float :=
  mkCenteredBoundingBox 0
    (PyFloat (Binary64.decimal false 9 (-1)))
    (PyFloat (Binary64.decimal false 9 (-1)))
    (PyFloat (Binary64.decimal false 4 (-1)))
    (PyFloat (Binary64.decimal false 4 (-1))).

(** The corner form of a box of the examples. *)
Definition corner_of (c : CenteredBoundingBox float) : BoundingBox float :=
  match CenteredBoundingBox.to_bbox c with
  | Return b => b
  | Raise _ => mkBoundingBox (class_id c) (PyInt 0) (PyInt 0) (PyInt 0) (PyInt 0)
  end.

Definition channel_first_img : ndarray := mkndarray [3; 50; 100] (fun _ => 0).

Definition outside_self : Annotation2Mask float :=
  mkAnnotation2Mask channel_first_img
    (mkMASATIImageAnnotation [Some scenario_box; Some outside_box]).

(** ** Laws of a float arithmetic

    [between_spec]: the two comparisons with ints decide whether the float
    is a number between them; [int_le_float_spec]: on a float that is a
    number, [lo <= x] compares the numbers. [sub_negative]: when [x < y], the difference
    [x - y] fails [0 <= x - y]. The last three: converting 0, 1 or 2,
    halving a float and halving 0 or 1 raise nothing. Both arithmetics of
    this file satisfy them. *)
Class FloatLaws (F : Type) `{FloatArith F} : Prop := {
  between_spec : forall (lo hi : Z) (f : F),
    int_le_float lo f && float_le_int f hi = true
    <-> exists q, fval f = Some q /\ (inject_Z lo <= q <= inject_Z hi)%Q;
  int_le_float_spec : forall (lo : Z) (f : F) (q : Q),
    fval f = Some q -> (int_le_float lo f = true <-> (inject_Z lo <= q)%Q);
  sub_negative : forall x y : F,
    flt x y = true -> int_le_float 0 (fsub x y) = false;
  float_of_int_small : forall z : Z,
    0 <= z <= 2 -> exists f, float_of_int z = Return f;
  ftruediv_two : forall x two : F,
    float_of_int 2 = Return two -> exists q, ftruediv x two = Return q;
  int_truediv_unit : forall z : Z,
    0 <= z <= 1 -> exists q, int_truediv z 2 = Return q
}.

(** Binary64: the floats that are negative, the infinity included. *)
Definition negative (x : spec_float) : Prop :=
  match x with
  | S754_finite true _ _ | S754_infinity true => True
  | _ => False
  end.

(** ** Lines, rectangles and masks *)

(** A text of [n] line ends and nothing else. *)
Fixpoint newlines (n : nat) : string :=
  match n with
  | O => ""
  | S n' => String newline (newlines n')
  end.

(** ["\n".join(lines)] *)
Fixpoint join_lines (lines : list string) : string :=
  match lines with
  | [] => ""
  | [line] => line
  | line :: rest => line ++ String newline (join_lines rest)
  end.

(** [sep in s] for a separator of one character. *)
Fixpoint contains (sep : ascii) (s : string) : bool :=
  match s with
  | EmptyString => false
  | String c s' => Ascii.eqb c sep || contains sep s'
  end.

(** The lines [MASATIImageAnnotation.from_str] parses: those of the text
    or of the list that are not the empty string. *)
Definition parsed_lines (image_annotations : str_or_list) : list string :=
  filter (fun bbox_repr => negb (String.eqb bbox_repr ""))
    (match image_annotations with
     | Str s => split_on newline s
     | StrList l => l
     end).

(** The four coordinates of a box are ints. *)
Definition int_coordinates {F : Type} (b : BoundingBox F) (x0 x1 y0 y1 : Z)
  : Prop :=
  min_x b = PyInt x0 /\ max_x b = PyInt x1
  /\ min_y b = PyInt y0 /\ max_y b = PyInt y1.

(** The four coordinates of a box are floats. *)
Definition float_coordinates {F : Type} (b : BoundingBox F) : Prop :=
  exists f0 f1 f2 f3 : F,
    min_x b = PyFloat f0 /\ max_x b = PyFloat f1
    /\ min_y b = PyFloat f2 /\ max_y b = PyFloat f3.

(** The four geometric fields of a centered box are floats. *)
Definition float_fields {F : Type} (c : CenteredBoundingBox F) : Prop :=
  exists cx cy w h : F,
    c = mkCenteredBoundingBox (cbbox_class_id c)
          (PyFloat cx) (PyFloat cy) (PyFloat w) (PyFloat h).

(** The item at [idx] of a mask of shape [shp] lies in the rectangle
    [[min_y:max_y, min_x:max_x]] of the box [bbox], whose coordinates are
    ints: the item the assignment of [create_mask] writes. *)
Definition covers {F : Type} (shp : list Z) (bbox : BoundingBox F)
    (idx : list Z) : bool :=
  match shp, idx with
  | n0 :: n1 :: _, i :: j :: _ =>
      match min_y bbox, max_y bbox, min_x bbox, max_x bbox with
      | PyInt r0, PyInt r1, PyInt c0, PyInt c1 =>
          in_slice n0 r0 r1 i && in_slice n1 c0 c1 j
      | _, _, _, _ => false
      end
  | _, _ => false
  end.

(** The box in pixels lies inside an image [img_width] wide and
    [img_height] high. *)
Definition inside_image {F : Type} (bbox : BoundingBox F)
    (img_width img_height : Z) : Prop :=
  exists x0 x1 y0 y1,
    int_coordinates bbox x0 x1 y0 y1
    /\ 0 <= x0 <= img_width /\ 0 <= x1 <= img_width
    /\ 0 <= y0 <= img_height /\ 0 <= y1 <= img_height.

(** The four coordinates of the box, ints or floats, lie between 0 and the
    extent of their axis: a box in pixels that lies in an image
    [img_width] wide and [img_height] high. *)
Definition in_image {F : Type} `{FloatArith F} (bbox : BoundingBox F)
    (img_width img_height : Z) : bool :=
  num_between 0 (min_x bbox) img_width
  && num_between 0 (max_x bbox) img_width
  && num_between 0 (min_y bbox) img_height
  && num_between 0 (max_y bbox) img_height.

(** The pixel of row [i] and column [j] lies in the rectangle of the box
    in pixels, its [max_x] and [max_y] excluded. *)
Definition in_rectangle {F : Type} (bbox : BoundingBox F) (i j : Z) : Prop :=
  exists x0 x1 y0 y1,
    int_coordinates bbox x0 x1 y0 y1 /\ y0 <= i < y1 /\ x0 <= j < x1.







(** Two boxes with the same four coordinates. *)
Definition same_coordinates {F : Type} (b b' : BoundingBox F) : Prop :=
  min_x b = min_x b' /\ max_x b = max_x b'
  /\ min_y b = min_y b' /\ max_y b = max_y b'.

(** The box [c] with the class [f class_id]. *)
Definition relabel {F : Type} (f : Z -> Z) (c : CenteredBoundingBox F)
  : CenteredBoundingBox F :=
  mkCenteredBoundingBox (f (cbbox_class_id c))
    (center_x c) (center_y c) (width c) (height c).

(** Two arrays of the same shape with the same item at every index. *)
Definition same_items (a b : ndarray) : Prop :=
  shape a = shape b /\ forall idx, item a idx = item b idx.

(** A box of the upper left quarter of the image: center 0.25, width and
    height 0.5. *)
Definition quarter_box : CenteredBoundingBox float :=
  mkCenteredBoundingBox 1
    (PyFloat (Binary64.decimal false 25 (-2)))
    (PyFloat (Binary64.decimal false 25 (-2)))
    (PyFloat (Binary64.decimal false 5 (-1)))
    (PyFloat (Binary64.decimal false 5 (-1))).

(** [Annotation2Mask(img, annotations)] with the boxes [raw]. *)
Definition with_boxes {F : Type} (image : ndarray)
    (raw : list (option (CenteredBoundingBox F))) : Annotation2Mask F :=
  mkAnnotation2Mask image (mkMASATIImageAnnotation raw).

(** From the text of an annotation file and the decoded image to the mask:
    what [Annotation2Mask.from_file] and [create_mask] do once the files
    are read. *)
Definition mask_from_text {F : Type} `{FloatArith F}
    (image : ndarray) (text : string) : result ndarray :=
  annotations <- MASATIImageAnnotation.from_str (Str text) ;;
  self <- Annotation2Mask.new image annotations ;;
  Annotation2Mask.create_mask self.

(** * Theorems *)

(** ** Binary64 rounding keeps the sign *)

Lemma digits2_pos_bounds (m : positive) :
  2 ^ (Zpos (digits2_pos m) - 1) <= Zpos m < 2 ^ Zpos (digits2_pos m).
Proof.
  induction m as [m IH|m IH|]; cbn [digits2_pos].
  - rewrite Pos2Z.inj_succ, Z.pow_succ_r by lia.
    replace (Z.succ (Zpos (digits2_pos m)) - 1)
      with (Z.succ (Zpos (digits2_pos m) - 1)) by lia.
    rewrite Z.pow_succ_r by lia. lia.
  - rewrite Pos2Z.inj_succ, Z.pow_succ_r by lia.
    replace (Z.succ (Zpos (digits2_pos m)) - 1)
      with (Z.succ (Zpos (digits2_pos m) - 1)) by lia.
    rewrite Z.pow_succ_r by lia. lia.
  - cbn. lia.
Qed.

Lemma shr_1_m (mrs : shr_record) :
  0 <= shr_m mrs -> shr_m (shr_1 mrs) = Z.div2 (shr_m mrs).
Proof.
  destruct mrs as [m r s]. cbn [shr_m]. intros Hm.
  destruct m as [|[p|p|]|p]; try reflexivity. lia.
Qed.

Lemma shr_1_lower (mrs : shr_record) (j : Z) :
  0 <= j -> 2 ^ (1 + j) <= shr_m mrs -> 2 ^ j <= shr_m (shr_1 mrs).
Proof.
  intros Hj Hm.
  assert (0 < 2 ^ j) by (apply Z.pow_pos_nonneg; lia).
  rewrite Z.pow_add_r in Hm by lia. change (2 ^ 1) with 2 in Hm.
  rewrite shr_1_m by lia. rewrite Z.div2_div.
  apply Z.div_le_lower_bound; lia.
Qed.

(** Shifting right by [p] a mantissa of more than [p + j] bits leaves more
    than [j] bits. *)
Lemma iter_shr_1_lower (p : positive) :
  forall (mrs : shr_record) (j : Z),
    0 <= j -> 2 ^ (Zpos p + j) <= shr_m mrs ->
    2 ^ j <= shr_m (iter_pos shr_1 p mrs).
Proof.
  induction p as [p IH|p IH|]; intros mrs j Hj Hm; cbn [iter_pos].
  - apply IH; [lia|]. apply IH; [lia|]. apply shr_1_lower; [lia|].
    replace (1 + (Zpos p + (Zpos p + j))) with (Zpos p~1 + j) by lia. exact Hm.
  - apply IH; [lia|]. apply IH; [lia|].
    replace (Zpos p + (Zpos p + j)) with (Zpos p~0 + j) by lia. exact Hm.
  - apply shr_1_lower; [lia|]. exact Hm.
Qed.

Lemma shr_record_of_loc_m (m : Z) (l : location) :
  shr_m (shr_record_of_loc m l) = m.
Proof. destruct l as [|[]]; reflexivity. Qed.

(** From the least exponent up, [shr_fexp] never shifts a mantissa away. *)
Lemma shr_fexp_positive (m e : Z) (l : location) :
  0 < m -> emin <= e ->
  0 < shr_m (fst (shr_fexp prec emax m e l))
  /\ emin <= snd (shr_fexp prec emax m e l).
Proof.
  intros Hm He. unfold shr_fexp, shr.
  destruct m as [|p|p]; try lia. cbn [Zdigits2].
  pose proof (digits2_pos_bounds p) as [Hlo _].
  set (d := Zpos (digits2_pos p)) in *.
  destruct (fexp prec emax (d + e) - e) as [|k|k] eqn:En; cbn [fst snd];
    rewrite ?shr_record_of_loc_m; try (split; lia).
  unfold fexp, FloatOps.prec, FloatOps.emax, SpecFloat.emin in En.
  unfold emin, FloatOps.prec, FloatOps.emax, SpecFloat.emin in *.
  split; [|lia].
  assert (Hk : Zpos k = d - 53) by lia.
  apply Z.lt_le_trans with (2 ^ 52); [reflexivity|].
  apply iter_shr_1_lower; [lia|]. rewrite shr_record_of_loc_m.
  replace (Zpos k + 52) with (d - 1) by lia. exact Hlo.
Qed.

Lemma round_nearest_even_positive (m : Z) (l : location) :
  0 < m -> 0 < round_nearest_even m l.
Proof.
  intros Hm. destruct l as [|[]]; cbn; try lia. destruct (Z.even m); lia.
Qed.

Lemma binary_round_aux_signed (s : bool) (m e : Z) (l : location) :
  0 < m -> emin <= e ->
  (exists m' e', binary_round_aux prec emax s m e l = S754_finite s m' e')
  \/ binary_round_aux prec emax s m e l = S754_infinity s.
Proof.
  intros Hm He. unfold binary_round_aux.
  pose proof (shr_fexp_positive m e l Hm He) as [H1 H1e].
  destruct (shr_fexp prec emax m e l) as [mrs' e']. cbn [fst snd] in *.
  pose proof (round_nearest_even_positive _ (loc_of_shr_record mrs') H1) as H2.
  pose proof (shr_fexp_positive _ e' loc_Exact H2 H1e) as [H3 _].
  destruct (shr_fexp prec emax _ e' loc_Exact) as [mrs'' e''].
  cbn [fst snd] in *.
  destruct (shr_m mrs'') as [|q|q]; try lia.
  destruct (e'' <=? emax - prec); [left; eauto | right; reflexivity].
Qed.

Lemma iter_xO (k p : positive) : Zpos (Pos.iter xO p k) = Zpos p * 2 ^ Zpos k.
Proof.
  revert p. induction k as [k IH|k IH|]; intros p; cbn [Pos.iter].
  - rewrite Pos2Z.inj_xO, !IH.
    replace (Zpos k~1) with (1 + Zpos k + Zpos k) by lia.
    rewrite !Z.pow_add_r by lia. lia.
  - rewrite !IH. replace (Zpos k~0) with (Zpos k + Zpos k) by lia.
    rewrite !Z.pow_add_r by lia. lia.
  - lia.
Qed.

Lemma shl_align_value (m : positive) (e e' : Z) :
  e' <= e -> Zpos (fst (shl_align m e e')) = Zpos m * 2 ^ (e - e').
Proof.
  intros He. unfold shl_align.
  destruct (e' - e) as [|k|k] eqn:Ek; cbn [fst]; try lia.
  - replace (e - e') with 0 by lia. lia.
  - rewrite iter_xO. replace (e - e') with (Zpos k) by lia. reflexivity.
Qed.

Lemma shl_align_exponent (m : positive) (e e' : Z) :
  emin <= e -> emin <= e' -> emin <= snd (shl_align m e e').
Proof.
  intros. unfold shl_align. destruct (e' - e); cbn [snd]; assumption.
Qed.

Lemma fexp_emin (e : Z) : emin <= fexp prec emax e.
Proof. unfold fexp, emin. lia. Qed.

Lemma binary_round_signed (s : bool) (m : positive) (e : Z) :
  emin <= e ->
  (exists m' e', binary_round prec emax s m e = S754_finite s m' e')
  \/ binary_round prec emax s m e = S754_infinity s.
Proof.
  intros He. unfold binary_round.
  pose proof (shl_align_exponent m e
                (fexp prec emax (Zpos (digits2_pos m) + e)) He (fexp_emin _)).
  destruct (shl_align m e _) as [mz ez]. cbn [snd] in *.
  apply binary_round_aux_signed; [lia | assumption].
Qed.

Lemma binary_normalize_negative (d e : Z) :
  d < 0 -> emin <= e -> negative (binary_normalize prec emax d e false).
Proof.
  intros Hd He. destruct d as [|p|p]; try lia. cbn [binary_normalize].
  destruct (binary_round_signed true p e He) as [(m' & e' & ->)| ->]; exact I.
Qed.

(** What validity says of a finite float: its exponent is at least [emin],
    its mantissa has at most 53 bits, and exactly 53 above [emin]. *)
Lemma valid_finite (s : bool) (m : positive) (e : Z) :
  valid_binary (S754_finite s m e) = true ->
  emin <= e /\ Zpos m < 2 ^ 53 /\ (emin < e -> 2 ^ 52 <= Zpos m).
Proof.
  cbn [SpecFloat.valid_binary]. unfold bounded, canonical_mantissa, fexp.
  intros Hv. apply andb_prop in Hv as [Hc _]. apply Z.eqb_eq in Hc.
  pose proof (digits2_pos_bounds m) as [Hlo Hhi].
  set (d := Zpos (digits2_pos m)) in *.
  unfold emin, FloatOps.prec, FloatOps.emax, SpecFloat.emin in *.
  assert (Hd : d <= 53) by lia.
  split; [lia|]. split.
  - apply Z.lt_le_trans with (2 ^ d); [lia|]. apply Z.pow_le_mono_r; lia.
  - intros Hlt. assert (Ed : d = 53) by lia. rewrite Ed in Hlo. exact Hlo.
Qed.

(** A valid float of smaller exponent is the smaller one. *)
Lemma aligned_lt (m1 m2 : positive) (e1 e2 : Z) :
  valid_binary (S754_finite false m1 e1) = true ->
  valid_binary (S754_finite false m2 e2) = true ->
  e1 < e2 ->
  Zpos m1 < Zpos m2 * 2 ^ (e2 - e1).
Proof.
  intros V1 V2 He.
  apply valid_finite in V1 as (E1 & H1 & _).
  apply valid_finite in V2 as (E2 & _ & H2).
  specialize (H2 ltac:(lia)).
  assert (2 ^ 1 <= 2 ^ (e2 - e1)) by (apply Z.pow_le_mono_r; lia).
  change (2 ^ 1) with 2 in *. nia.
Qed.

(** [x < y] on valid floats makes [x - y] negative: the subtraction is
    exact before rounding, and rounding keeps the sign. *)
Lemma SFsub_negative (x y : spec_float) :
  valid_binary x = true -> valid_binary y = true ->
  SFltb x y = true -> negative (SFsub prec emax x y).
Proof.
  intros Vx Vy. unfold SFltb.
  destruct x as [sx|sx| |sx mx ex], y as [sy|sy| |sy my ey];
    cbn [SFcompare SFsub]; try discriminate;
    try (destruct sx; try discriminate; destruct sy; try discriminate;
         intros _; exact I);
    try (destruct sx; try discriminate; intros _; exact I);
    try (destruct sy; try discriminate; intros _; exact I).
  intros Hc. cbv zeta.
  assert (V1 : valid_binary (S754_finite false mx ex) = true) by exact Vx.
  assert (V2 : valid_binary (S754_finite false my ey) = true) by exact Vy.
  pose proof (valid_finite _ _ _ Vx) as (Ex & _ & _).
  pose proof (valid_finite _ _ _ Vy) as (Ey & _ & _).
  apply binary_normalize_negative; [|lia].
  rewrite (shl_align_value mx ex (Z.min ex ey)) by lia.
  rewrite (shl_align_value my ey (Z.min ex ey)) by lia.
  assert (Px : 0 < 2 ^ (ex - Z.min ex ey)) by (apply Z.pow_pos_nonneg; lia).
  assert (Py : 0 < 2 ^ (ey - Z.min ex ey)) by (apply Z.pow_pos_nonneg; lia).
  rewrite Pos.compare_cont_spec in Hc. cbn [Pos.switch_Eq] in Hc.
  destruct sx, sy; cbn [cond_Zopp]; try discriminate; try nia.
  - (* both negative: the larger magnitude is the smaller float *)
    destruct (Z.compare_spec ex ey) as [E|E|E]; try discriminate.
    + subst ey. rewrite Z.min_id, Z.sub_diag. change (2 ^ 0) with 1.
      destruct (Pos.compare_spec mx my); try discriminate; lia.
    + rewrite Z.min_r by lia. rewrite Z.sub_diag. change (2 ^ 0) with 1.
      pose proof (aligned_lt my mx ey ex V2 V1 E). lia.
  - (* both positive *)
    destruct (Z.compare_spec ex ey) as [E|E|E]; try discriminate.
    + subst ey. rewrite Z.min_id, Z.sub_diag. change (2 ^ 0) with 1.
      destruct (Pos.compare_spec mx my); try discriminate; lia.
    + rewrite Z.min_l by lia. rewrite Z.sub_diag. change (2 ^ 0) with 1.
      pose proof (aligned_lt mx my ex ey V1 V2 E). lia.
Qed.

Lemma binary64_sub_negative (x y : float) :
  PrimFloat.ltb x y = true ->
  Binary64.int_le_float 0 (PrimFloat.sub x y) = false.
Proof.
  intros Hlt. rewrite ltb_spec in Hlt.
  apply SFsub_negative in Hlt; try apply Prim2SF_valid.
  unfold Binary64.int_le_float. rewrite sub_spec. unfold SF64sub.
  destruct (SFsub prec emax (Prim2SF x) (Prim2SF y)) as [s|s| |s m e];
    cbn [negative] in Hlt; try contradiction; try reflexivity.
  - destruct s; [reflexivity | contradiction].
  - destruct s; [|contradiction]. cbn [negate_if].
    destruct (Z.leb_spec 0 e) as [He|He]; apply Z.leb_gt.
    + assert (0 < 2 ^ e) by (apply Z.pow_pos_nonneg; lia). nia.
    + lia.
Qed.

(** ** The two arithmetics satisfy the laws *)

(** The rational behind an expression of canonical rationals: the
    operations of [Qc] are those of [Q] followed by [Qred]. *)
Ltac qc_this :=
  unfold Qcminus, Qcdiv; unfold Qcplus, Qcopp, Qcmult, Qcinv; unfold Q2Qc;
  cbn [this]; rewrite ?Qred_correct.

Lemma binary64_between (lo hi : Z) (f : float) :
  Binary64.int_le_float lo f && Binary64.float_le_int f hi = true
  <-> exists q, Binary64.fval f = Some q
                /\ (inject_Z lo <= q <= inject_Z hi)%Q.
Proof.
  unfold Binary64.int_le_float, Binary64.float_le_int, Binary64.fval.
  destruct (Prim2SF f) as [s|s| |s m e].
  - rewrite andb_true_iff, !Z.leb_le, (Zle_Qle lo 0), (Zle_Qle 0 hi). split.
    + intros [H1 H2]. exists 0%Q. split; [reflexivity | split; assumption].
    + intros (q & [= <-] & H1 & H2). split; assumption.
  - split; [destruct s; discriminate | intros (q & [=] & _)].
  - split; [discriminate | intros (q & [=] & _)].
  - destruct (Z.leb_spec 0 e) as [He|He].
    + rewrite andb_true_iff, !Z.leb_le, (Zle_Qle lo), (Zle_Qle _ hi). split.
      * intros [H1 H2]. eexists. split; [reflexivity | split; assumption].
      * intros (q & [= <-] & H1 & H2). split; assumption.
    + assert (Hp : 0 < 2 ^ (- e)) by (apply Z.pow_pos_nonneg; lia).
      assert (Ed : Zpos (Z.to_pos (2 ^ (- e))) = 2 ^ (- e))
        by (apply Z2Pos.id; exact Hp).
      rewrite andb_true_iff, !Z.leb_le. split.
      * intros [H1 H2]. eexists. split; [reflexivity|].
        unfold Qle; cbn [Qnum Qden inject_Z]. rewrite Ed. lia.
      * intros (q & [= <-] & H1 & H2).
        unfold Qle in H1, H2; cbn [Qnum Qden inject_Z] in H1, H2.
        rewrite Ed in H1, H2. lia.
Qed.

Lemma binary64_float_of_int_small (z : Z) :
  0 <= z <= 2 -> exists f, Binary64.float_of_int z = Return f.
Proof.
  intros Hz.
  assert (E : z = 0 \/ z = 1 \/ z = 2) by lia.
  destruct E as [-> | [-> | ->]]; eexists; vm_compute; reflexivity.
Qed.

Lemma binary64_ftruediv_two (x two : float) :
  Binary64.float_of_int 2 = Return two ->
  exists q, Binary64.ftruediv x two = Return q.
Proof.
  intros E. vm_compute in E. injection E as <-.
  eexists. unfold Binary64.ftruediv.
  match goal with
  | |- context [PrimFloat.is_zero ?f] => change (PrimFloat.is_zero f) with false
  end.
  reflexivity.
Qed.

Lemma binary64_int_truediv_unit (z : Z) :
  0 <= z <= 1 -> exists q, Binary64.int_truediv z 2 = Return q.
Proof.
  intros Hz.
  assert (E : z = 0 \/ z = 1) by lia.
  destruct E as [-> | ->]; eexists; vm_compute; reflexivity.
Qed.

Lemma binary64_int_le_float (lo : Z) (f : float) (q : Q) :
  Binary64.fval f = Some q ->
  (Binary64.int_le_float lo f = true <-> (inject_Z lo <= q)%Q).
Proof.
  unfold Binary64.int_le_float, Binary64.fval.
  destruct (Prim2SF f) as [s|s| |s m e]; try discriminate.
  - intros [= <-]. rewrite Z.leb_le, (Zle_Qle lo 0). reflexivity.
  - destruct (Z.leb_spec 0 e) as [He|He]; intros [= <-].
    + rewrite Z.leb_le, Zle_Qle. reflexivity.
    + assert (Hp : 0 < 2 ^ (- e)) by (apply Z.pow_pos_nonneg; lia).
      rewrite Z.leb_le. unfold Qle; cbn [Qnum Qden inject_Z].
      rewrite Z2Pos.id by exact Hp. lia.
Qed.

#[export] Instance binary64_laws : FloatLaws float := {
  between_spec := binary64_between;
  int_le_float_spec := binary64_int_le_float;
  sub_negative := binary64_sub_negative;
  float_of_int_small := binary64_float_of_int_small;
  ftruediv_two := binary64_ftruediv_two;
  int_truediv_unit := binary64_int_truediv_unit
}.

Lemma exact_between (lo hi : Z) (q : Qc) :
  Exact.int_le_float lo q && Exact.float_le_int q hi = true
  <-> exists q', Exact.fval q = Some q'
                 /\ (inject_Z lo <= q' <= inject_Z hi)%Q.
Proof.
  unfold Exact.int_le_float, Exact.float_le_int, Exact.fval.
  rewrite andb_true_iff, !Qle_bool_iff. split.
  - intros [H1 H2]. exists q. split; [reflexivity | split; assumption].
  - intros (q' & [= <-] & H1 & H2). split; assumption.
Qed.

Lemma this_Qcminus (x y : Qc) : (this (x - y)%Qc == this x - this y)%Q.
Proof.
  qc_this. reflexivity.
Qed.

Lemma exact_sub_negative (x y : Qc) :
  Exact.flt x y = true -> Exact.int_le_float 0 (Qcminus x y) = false.
Proof.
  unfold Exact.flt, Exact.int_le_float. intros Hlt.
  apply negb_true_iff in Hlt.
  destruct (Qle_bool y x) eqn:E; [discriminate|].
  destruct (Qle_bool (inject_Z 0) (Qcminus x y)) eqn:E'; [|reflexivity].
  apply Qle_bool_iff in E'. rewrite this_Qcminus in E'.
  assert (Hyx : (y <= x)%Q) by (change (inject_Z 0) with 0%Q in E'; lra).
  apply Qle_bool_iff in Hyx. congruence.
Qed.

Lemma exact_float_of_int_small (z : Z) :
  0 <= z <= 2 -> exists f, Exact.float_of_int z = Return f.
Proof. intros _. eexists. reflexivity. Qed.

Lemma exact_ftruediv_two (x two : Qc) :
  Exact.float_of_int 2 = Return two ->
  exists q, Exact.ftruediv x two = Return q.
Proof.
  intros [= <-]. eexists. unfold Exact.ftruediv.
  change (Qc_eq_bool (Q2Qc (inject_Z 2)) (Q2Qc 0)) with false. reflexivity.
Qed.

Lemma exact_int_truediv_unit (z : Z) :
  0 <= z <= 1 -> exists q, Exact.int_truediv z 2 = Return q.
Proof. intros _. eexists. reflexivity. Qed.

Lemma exact_int_le_float (lo : Z) (f : Qc) (q : Q) :
  Exact.fval f = Some q ->
  (Exact.int_le_float lo f = true <-> (inject_Z lo <= q)%Q).
Proof. intros [= <-]. apply Qle_bool_iff. Qed.

#[export] Instance exact_laws : FloatLaws Qc := {
  between_spec := exact_between;
  int_le_float_spec := exact_int_le_float;
  sub_negative := exact_sub_negative;
  float_of_int_small := exact_float_of_int_small;
  ftruediv_two := exact_ftruediv_two;
  int_truediv_unit := exact_int_truediv_unit
}.

(** ** Parsing *)

Lemma bind_Return {A B : Type} (a : A) (k : A -> result B) :
  bind (Return a) k = k a.
Proof. reflexivity. Qed.

Lemma bind_Raise {A B : Type} (e : exn) (k : A -> result B) :
  bind (Raise e) k = Raise e.
Proof. reflexivity. Qed.

Lemma bind_inv {A B : Type} (m : result A) (k : A -> result B) (b : B) :
  bind m k = Return b -> exists a, m = Return a /\ k a = Return b.
Proof.
  destruct m as [a|e]; cbn; [|discriminate].
  intros E. exists a. split; [reflexivity | exact E].
Qed.

Example split_ex : split "  0 0.5	0.5 " = ["0"; "0.5"; "0.5"].
Proof. reflexivity. Qed.

Example split_on_ex : split_on newline "" = [""].
Proof. reflexivity. Qed.

Example int_of_str_ex :
  int_of_str "-1_0" = Return (-10) /\ int_of_str "1__0" = Raise ValueError
  /\ int_of_str "0.5" = Raise ValueError.
Proof. repeat split. Qed.

Example float_literal_ex :
  float_literal_of_str "0.25" = Some (FDec false 25 (-2))
  /\ float_literal_of_str "-1.e3" = Some (FDec true 1 3)
  /\ float_literal_of_str ".5E-1" = Some (FDec false 5 (-2))
  /\ float_literal_of_str "-Infinity" = Some (FInf true)
  /\ float_literal_of_str "1._5" = None
  /\ float_literal_of_str "." = None.
Proof. repeat split. Qed.

(** The binary64 arithmetic on results CPython is known for:
    [0.1 + 0.2], [int(0.57 * 100)], [int(-2.5)], [7 / 2], [float("1e400")],
    [int(float("inf"))] and [2**1024 * 1.0]. *)
Example binary64_ex :
  (a <- float_of_str "0.1" ;; b <- float_of_str "0.2" ;;
   num_add (PyFloat a) (PyFloat b))
  = (c <- float_of_str (F := float) "0.30000000000000004" ;; Return (PyFloat c))
  /\ (a <- float_of_str (F := float) "0.57" ;;
      p <- num_mul (PyFloat a) (PyInt 100) ;; num_int p) = Return 56
  /\ (a <- float_of_str (F := float) "-2.5" ;; num_int (PyFloat a)) = Return (-2)
  /\ num_truediv (F := float) (PyInt 7) (PyInt 2)
     = (c <- float_of_str "3.5" ;; Return (PyFloat c))
  /\ float_of_str (F := float) "1e400" = Return infinity
  /\ (a <- float_of_str (F := float) "inf" ;; num_int (PyFloat a))
     = Raise OverflowError
  /\ num_mul (F := float) (PyInt (2 ^ 1024)) (PyFloat one) = Raise OverflowError.
Proof. repeat split; vm_compute; reflexivity. Qed.

(** C1 (the code departs from it): a line whose number of tokens is not 5
    makes [CenteredBoundingBox.from_str] return [None], whatever the tokens
    are; it raises nothing, although its docstring announces a
    [ValueError] for a string that is not empty nor a valid representation. *)
Theorem from_str_wrong_token_count {F : Type} `{FloatArith F} (s : string) :
  List.length (split s) <> 5%nat ->
  CenteredBoundingBox.from_str (F := F) s = Return None.
Proof.
  intros Hlen. unfold CenteredBoundingBox.from_str.
  destruct (Nat.eqb_spec (List.length (split s)) 0) as [_|_]; [reflexivity|].
  destruct (Nat.eqb_spec (List.length (split s)) 5) as [E|_]; [contradiction|].
  reflexivity.
Qed.

Lemma from_str_wrong_token_count_witness :
  List.length (split "0 0.5 0.5") = 3%nat
  /\ CenteredBoundingBox.from_str (F := float) "0 0.5 0.5" = Return None.
Proof.
  split; [reflexivity|].
  apply (from_str_wrong_token_count "0 0.5 0.5"). vm_compute. discriminate.
Defined.

(** C2 (the code departs from it): of the three lines of this text the
    second is one space. It is not the empty string, so it is not skipped;
    it has no token, so it parses to [None]; and [None] is stored. Reading
    the boxes of the annotation then fails on that entry. *)
Theorem from_str_stores_None :
  exists c,
    MASATIImageAnnotation.from_str (F := float) (Str blank_line_text)
    = Return (mkMASATIImageAnnotation [Some c; None])
    /\ MASATIImageAnnotation.annotations
         (mkMASATIImageAnnotation [Some c; None]) = Raise AttributeError.
Proof.
  exists scenario_box. split; vm_compute; reflexivity.
Qed.

(** ** The scenario, on binary64 floats *)

(** C5: for the image of width 100 and height 50 and the line
    ["0 0.5 0.5 0.2 0.4"], parsing, the corner form and [to_absolute] give
    the box [min_x=40, max_x=60, min_y=15, max_y=35]; the mask has shape
    (50, 100) and exactly 400 pixels that are not zero: it is 255 at rows
    15 to 34 and columns 40 to 59, and 0 everywhere else. *)
Theorem scenario_100_50 :
  MASATIImageAnnotation.from_str (Str scenario_line) = Return scenario_annotation
  /\ (bboxes <- MASATIImageAnnotation.annotations scenario_annotation ;;
      mapM (fun b => to_absolute b 100 50) bboxes)
     = Return [mkBoundingBox 0 (PyInt 40) (PyInt 60) (PyInt 15) (PyInt 35)]
  /\ Annotation2Mask.new scenario_img scenario_annotation = Return scenario_self
  /\ Annotation2Mask.create_mask scenario_self = Return scenario_mask
  /\ count_nonzero scenario_mask = 400
  /\ forall r c,
       item scenario_mask [r; c]
       = if ((15 <=? r) && (r <? 35)) && ((40 <=? c) && (c <? 60))
         then 255 else 0.
Proof.
  repeat split; try (vm_compute; reflexivity).
Qed.

(** ** Conversions that change nothing *)

(** C7: on a box that is already absolute (by the computed check)
    [to_absolute] returns an equal box, and on a box that is already
    relative [to_relative] returns an equal box, for both forms and for all
    image dimensions. *)
Theorem conversion_idempotent {F : Type} `{FloatArith F}
    (b : BoundingBox F) (c : CenteredBoundingBox F) (img_width img_height : Z) :
  (is_absolute b = true -> to_absolute b img_width img_height = Return b)
  /\ (is_relative b = true -> to_relative b img_width img_height = Return b)
  /\ (is_absolute c = true -> to_absolute c img_width img_height = Return c)
  /\ (is_relative c = true -> to_relative c img_width img_height = Return c).
Proof.
  unfold is_absolute; cbn.
  unfold BoundingBox.to_absolute, BoundingBox.to_relative,
    CenteredBoundingBox.to_absolute, CenteredBoundingBox.to_relative,
    BoundingBox.is_absolute, CenteredBoundingBox.is_absolute.
  repeat split; intros E.
  - rewrite E. destruct b; reflexivity.
  - rewrite E. destruct b; reflexivity.
  - rewrite E. destruct c; reflexivity.
  - rewrite E. destruct c; reflexivity.
Qed.

Lemma conversion_idempotent_witness :
  let b := mkBoundingBox (F := float) 0 (PyInt 40) (PyInt 60) (PyInt 15) (PyInt 35) in
  to_absolute b 100 50 = Return b
  /\ to_relative scenario_box 100 50 = Return scenario_box.
Proof.
  intros b.
  pose proof (conversion_idempotent b scenario_box 100 50) as (Ha & _ & _ & Hr).
  split; [apply Ha | apply Hr]; vm_compute; reflexivity.
Defined.

(** ** Constructing an [Annotation2Mask] *)

Lemma ndim_gt_3 (a : ndarray) :
  (ndim a >? 3) = true <-> ndim a > 3.
Proof. unfold Z.gtb, Z.gt. destruct (ndim a ?= 3); split; congruence. Qed.

(** C9, as stated, fails: an array of two dimensions whose last axis has
    size 3 has no more than three dimensions and a recognised channel
    count, and yet its construction raises, in [transpose]. *)
Lemma post_init_two_dimensions :
  let image := mkndarray [5; 3] (fun _ => 0) in
  ndim image <= 3
  /\ getitem (shape image) (-1) = Return 3
  /\ Annotation2Mask.new image scenario_annotation = Raise ValueError.
Proof. repeat split; try reflexivity. discriminate. Qed.

(** C9, amended: an image of more than three dimensions is refused with
    [ValueError]. For an image of exactly three dimensions, construction
    raises [ValueError] exactly when neither the first nor the last axis has
    size 3; when the last axis has size 3 it succeeds and the image is
    transposed to channel first, shape [(s0, s1, 3)] becoming [(3, s0, s1)]
    and item [[c, y, x]] being the former item [[y, x, c]]; when only the
    first axis has size 3 it succeeds and the image is kept. *)
Theorem post_init_three_dimensions {F : Type} `{FloatArith F}
    (s0 s1 s2 : Z) (items : list Z -> Z) (a : MASATIImageAnnotation F) :
  let image := mkndarray [s0; s1; s2] items in
  (forall more, ndim more > 3 -> Annotation2Mask.new more a = Raise ValueError)
  /\ (Annotation2Mask.new image a = Raise ValueError <-> s0 <> 3 /\ s2 <> 3)
  /\ (s2 = 3 ->
      exists planar,
        Annotation2Mask.new image a = Return (mkAnnotation2Mask planar a)
        /\ shape planar = [3; s0; s1]
        /\ forall c y x, item planar [c; y; x] = items [y; x; c])
  /\ (s0 = 3 -> s2 <> 3 ->
      Annotation2Mask.new image a = Return (mkAnnotation2Mask image a)).
Proof.
  intros image.
  assert (E : Annotation2Mask.new image a
              = if negb (s0 =? 3) && negb (s2 =? 3) then Raise ValueError
                else if s2 =? 3
                     then Return (mkAnnotation2Mask
                                    (mkndarray [s2; s0; s1]
                                       (fun idx => match idx with
                                                   | [i; j; k] => items [j; k; i]
                                                   | _ => 0
                                                   end)) a)
                     else Return (mkAnnotation2Mask image a)).
  { unfold Annotation2Mask.new, Annotation2Mask.__post_init__.
    cbn [img annotations shape image].
    change (ndim image >? 3) with false.
    change (getitem [s0; s1; s2] 0) with (Return s0).
    change (getitem [s0; s1; s2] (-1)) with (Return s2).
    cbn [bind transpose_2_0_1 shape item].
    destruct (s0 =? 3), (s2 =? 3); reflexivity. }
  split; [|split; [|split]].
  - intros more Hm. unfold Annotation2Mask.new, Annotation2Mask.__post_init__.
    cbn [img]. apply ndim_gt_3 in Hm. rewrite Hm. reflexivity.
  - rewrite E. destruct (Z.eqb_spec s0 3), (Z.eqb_spec s2 3); cbn;
      split; try discriminate; try tauto; intros [? ?]; contradiction.
  - intros ->. rewrite E. rewrite andb_false_r. cbn.
    eexists. split; [reflexivity|]. split; reflexivity.
  - intros -> Hs. rewrite E. apply Z.eqb_neq in Hs. rewrite Hs. reflexivity.
Qed.

Lemma post_init_three_dimensions_witness :
  exists planar,
    Annotation2Mask.new scenario_img scenario_annotation
    = Return (mkAnnotation2Mask planar scenario_annotation)
    /\ shape planar = [3; 50; 100]
    /\ forall c y x, item planar [c; y; x] = 0.
Proof.
  apply (post_init_three_dimensions 50 100 3 (fun _ => 0) scenario_annotation).
  reflexivity.
Defined.

(** ** Relative and absolute boxes *)

Section Classification.
Context {F : Type} `{FloatLaws F}.

Lemma check_is_relative_spec (a : num F) :
  check_is_relative a = true <-> in_unit_interval a.
Proof.
  unfold check_is_relative, num_between, in_unit_interval.
  destruct a as [z|f]; cbn [int_le_num num_le_int num_val].
  - rewrite andb_true_iff, !Z.leb_le, (Zle_Qle 0 z), (Zle_Qle z 1). split.
    + intros [H1 H2]. eexists. split; [reflexivity | split; assumption].
    + intros (q & [= <-] & H1 & H2). split; assumption.
  - apply (between_spec 0 1 f).
Qed.

Lemma check_is_relative_bit (x : bool) :
  check_is_relative (F := F) (PyInt (Z.b2z x)) = true.
Proof. destruct x; reflexivity. Qed.

(** C8: for both forms, [is_relative] holds exactly when each of the four
    geometric fields is a number of the closed interval [[0,1]] ([class_id]
    plays no part), and [is_absolute] is its negation; in particular a box
    whose fields are the ints 0 or 1, pixel coordinates, is relative. *)
Theorem is_relative_spec (b : BoundingBox F) (c : CenteredBoundingBox F) :
  (is_relative b = true <->
   in_unit_interval (min_x b) /\ in_unit_interval (max_x b)
   /\ in_unit_interval (min_y b) /\ in_unit_interval (max_y b))
  /\ is_absolute b = negb (is_relative b)
  /\ (is_relative c = true <->
      in_unit_interval (center_x c) /\ in_unit_interval (center_y c)
      /\ in_unit_interval (width c) /\ in_unit_interval (height c))
  /\ is_absolute c = negb (is_relative c)
  /\ (forall (cid : Z) (x0 x1 y0 y1 : bool),
        is_relative (mkBoundingBox (F := F) cid (PyInt (Z.b2z x0))
                       (PyInt (Z.b2z x1)) (PyInt (Z.b2z y0)) (PyInt (Z.b2z y1)))
        = true
        /\ is_relative (mkCenteredBoundingBox (F := F) cid (PyInt (Z.b2z x0))
                          (PyInt (Z.b2z x1)) (PyInt (Z.b2z y0)) (PyInt (Z.b2z y1)))
           = true).
Proof.
  split; [|split; [|split; [|split]]]; try reflexivity.
  - cbn. unfold BoundingBox.is_relative.
    rewrite !andb_true_iff, <- !check_is_relative_spec. tauto.
  - cbn. unfold CenteredBoundingBox.is_relative.
    rewrite !andb_true_iff, <- !check_is_relative_spec. tauto.
  - intros cid x0 x1 y0 y1. cbn.
    unfold BoundingBox.is_relative, CenteredBoundingBox.is_relative; cbn.
    rewrite !check_is_relative_bit. split; reflexivity.
Qed.
End Classification.

Lemma is_relative_spec_witness :
  is_relative scenario_box = true
  <-> in_unit_interval (center_x scenario_box)
      /\ in_unit_interval (center_y scenario_box)
      /\ in_unit_interval (width scenario_box)
      /\ in_unit_interval (height scenario_box).
Proof.
  apply (is_relative_spec (F := float)
           (mkBoundingBox 0 (PyInt 0) (PyInt 1) (PyInt 0) (PyInt 1))
           scenario_box).
Defined.

(** ** Boxes that reach outside the image *)

Lemma to_absolute_of_absolute {F : Type} `{FloatArith F}
    (b : BoundingBox F) (img_width img_height : Z) :
  BoundingBox.is_relative b = false ->
  BoundingBox.to_absolute b img_width img_height = Return b.
Proof.
  intros E. unfold BoundingBox.to_absolute, BoundingBox.is_absolute.
  rewrite E. destruct b; reflexivity.
Qed.

Section NearTheOrigin.
Context {F : Type} `{FloatLaws F}.

Lemma check_is_relative_int (z : Z) :
  check_is_relative (F := F) (PyInt z) = true -> 0 <= z <= 1.
Proof.
  unfold check_is_relative, num_between; cbn.
  rewrite andb_true_iff, !Z.leb_le. tauto.
Qed.

Lemma to_float_relative (a : num F) :
  check_is_relative a = true -> exists x, to_float a = Return x.
Proof.
  destruct a as [z|f]; intros Hr; cbn.
  - apply float_of_int_small. apply check_is_relative_int in Hr. lia.
  - eexists; reflexivity.
Qed.

Lemma halve_relative (size : num F) :
  check_is_relative size = true ->
  exists h, num_truediv size (PyInt 2) = Return (PyFloat h).
Proof.
  destruct size as [z|f]; intros Hr; cbn.
  - destruct (int_truediv_unit z (check_is_relative_int z Hr)) as [q ->].
    eexists; reflexivity.
  - destruct (float_of_int_small 2 ltac:(lia)) as [two E]. rewrite E. cbn.
    destruct (ftruediv_two f two E) as [q ->]. eexists; reflexivity.
Qed.

Lemma arith_float (iop : Z -> Z -> Z) (fop : F -> F -> F)
    (a : num F) (x h : F) :
  to_float a = Return x ->
  arith iop fop a (PyFloat h) = Return (PyFloat (fop x h)).
Proof.
  intros E. destruct a as [z|f]; cbn in *.
  - rewrite E. reflexivity.
  - injection E as ->. reflexivity.
Qed.

(** The corner form of a relative box: nothing raises, and every
    coordinate is a float. *)
Lemma to_bbox_relative (c : CenteredBoundingBox F) :
  is_relative c = true ->
  exists x y hx hy,
    to_float (center_x c) = Return x
    /\ to_float (center_y c) = Return y
    /\ num_truediv (width c) (PyInt 2) = Return (PyFloat hx)
    /\ num_truediv (height c) (PyInt 2) = Return (PyFloat hy)
    /\ CenteredBoundingBox.to_bbox c
       = Return (mkBoundingBox (class_id c)
                   (PyFloat (fsub x hx)) (PyFloat (fadd x hx))
                   (PyFloat (fsub y hy)) (PyFloat (fadd y hy))).
Proof.
  cbn. unfold CenteredBoundingBox.is_relative. rewrite !andb_true_iff.
  intros [[[Hx Hy] Hw] Hh].
  destruct (to_float_relative _ Hx) as [x Ex].
  destruct (to_float_relative _ Hy) as [y Ey].
  destruct (halve_relative _ Hw) as [hx Ew].
  destruct (halve_relative _ Hh) as [hy Eh].
  exists x, y, hx, hy. repeat split; try assumption.
  unfold CenteredBoundingBox.to_bbox, num_sub, num_add.
  rewrite Ew, Eh. cbn [bind].
  rewrite !(arith_float _ _ _ _ _ Ex), !(arith_float _ _ _ _ _ Ey).
  reflexivity.
Qed.

(** C10: take a relative center-form box whose center is closer to the
    origin than half its size on some axis. Its corner form is computed
    without an exception and has a negative coordinate, one that fails
    [0 <= coordinate]; so the corner box is not relative, it
    is absolute, and [to_absolute] returns it as it is for all image
    dimensions: its coordinates stay the floats [to_bbox] computed, none
    becomes a pixel int. *)
Theorem to_bbox_near_origin (c : CenteredBoundingBox F) :
  is_relative c = true ->
  closer_than_half (center_x c) (width c)
  \/ closer_than_half (center_y c) (height c) ->
  exists b,
    CenteredBoundingBox.to_bbox c = Return b
    /\ (negative_coordinate (min_x b) \/ negative_coordinate (min_y b))
    /\ is_relative b = false
    /\ is_absolute b = true
    /\ (forall img_width img_height : Z,
          to_absolute b img_width img_height = Return b)
    /\ (exists f0 f1 f2 f3,
          b = mkBoundingBox (class_id c)
                (PyFloat f0) (PyFloat f1) (PyFloat f2) (PyFloat f3)).
Proof.
  intros Hrel Hnear.
  destruct (to_bbox_relative c Hrel) as (x & y & hx & hy & Ex & Ey & Ew & Eh & Eb).
  eexists. split; [exact Eb|].
  assert (Hneg : int_le_float 0 (fsub x hx) = false
                 \/ int_le_float 0 (fsub y hy) = false).
  { destruct Hnear as [(x' & h' & Ex' & Eh' & Hlt) | (y' & h' & Ey' & Eh' & Hlt)].
    - left. rewrite Ex in Ex'. rewrite Ew in Eh'.
      injection Ex' as <-. injection Eh' as <-. apply sub_negative, Hlt.
    - right. rewrite Ey in Ey'. rewrite Eh in Eh'.
      injection Ey' as <-. injection Eh' as <-. apply sub_negative, Hlt. }
  assert (Hb : BoundingBox.is_relative
                 (mkBoundingBox (class_id c)
                    (PyFloat (fsub x hx)) (PyFloat (fadd x hx))
                    (PyFloat (fsub y hy)) (PyFloat (fadd y hy))) = false).
  { unfold BoundingBox.is_relative, check_is_relative, num_between.
    cbn [min_x max_x min_y max_y int_le_num].
    destruct Hneg as [-> | ->]; cbn;
      rewrite ?andb_false_r, ?andb_false_l; reflexivity. }
  split.
  { destruct Hneg as [E|E]; [left|right]; (split; [exact E|]);
      intros q Hq; cbn in Hq;
      destruct (Qlt_le_dec q 0) as [Hlt|Hle]; try exact Hlt;
      apply (int_le_float_spec 0 _ q Hq) in Hle; congruence. }
  split; [exact Hb|].
  split; [unfold is_absolute; cbn [is_relative BoundingBox_IBoundingBox];
          rewrite Hb; reflexivity|].
  split; [intros; apply to_absolute_of_absolute, Hb|].
  do 4 eexists. reflexivity.
Qed.
End NearTheOrigin.

Lemma to_bbox_near_origin_witness :
  exists b,
    CenteredBoundingBox.to_bbox edge_box = Return b
    /\ (negative_coordinate (min_x b) \/ negative_coordinate (min_y b))
    /\ is_relative b = false
    /\ is_absolute b = true
    /\ (forall img_width img_height : Z,
          to_absolute b img_width img_height = Return b)
    /\ (exists f0 f1 f2 f3,
          b = mkBoundingBox (class_id edge_box)
                (PyFloat f0) (PyFloat f1) (PyFloat f2) (PyFloat f3)).
Proof.
  apply (to_bbox_near_origin edge_box).
  - vm_compute. reflexivity.
  - left. unfold closer_than_half. do 2 eexists.
    split; [reflexivity|]. split; [reflexivity|]. vm_compute. reflexivity.
Defined.

(** ** [create_mask] on boxes that reach outside the image *)

Section Outside.
Context {F : Type} `{FloatArith F}.

Lemma truediv_is_float (a b r : num F) :
  num_truediv a b = Return r -> exists f, r = PyFloat f.
Proof.
  unfold num_truediv.
  destruct a as [x|x], b as [y|y]; cbn;
    repeat match goal with
           | |- context [bind ?m _] => destruct m; cbn
           end;
    intros E; try discriminate; injection E as <-; eexists; reflexivity.
Qed.

Lemma arith_with_float (iop : Z -> Z -> Z) (fop : F -> F -> F)
    (a : num F) (h : F) (r : num F) :
  arith iop fop a (PyFloat h) = Return r -> exists f, r = PyFloat f.
Proof.
  destruct a as [x|x]; cbn;
    repeat match goal with
           | |- context [bind ?m _] => destruct m; cbn
           end;
    intros E; try discriminate; injection E as <-; eexists; reflexivity.
Qed.

(** One coordinate of [to_bbox]: [center - size / 2] or [center + size / 2]. *)
Lemma corner_is_float (iop : Z -> Z -> Z) (fop : F -> F -> F)
    (center size r : num F) :
  (d <- num_truediv size (PyInt 2) ;; arith iop fop center d) = Return r ->
  exists f, r = PyFloat f.
Proof.
  destruct (num_truediv size (PyInt 2)) as [d|e] eqn:Ed; cbn; [|discriminate].
  destruct (truediv_is_float _ _ _ Ed) as [h ->].
  apply arith_with_float.
Qed.

(** The corner form has float coordinates, whatever the center form has. *)
Lemma to_bbox_floats (c : CenteredBoundingBox F) (b : BoundingBox F) :
  CenteredBoundingBox.to_bbox c = Return b ->
  exists f0 f1 f2 f3,
    b = mkBoundingBox (class_id c)
          (PyFloat f0) (PyFloat f1) (PyFloat f2) (PyFloat f3).
Proof.
  unfold CenteredBoundingBox.to_bbox, num_sub, num_add. intros E.
  apply bind_inv in E as (x0 & E0 & E). apply bind_inv in E as (x1 & E1 & E).
  apply bind_inv in E as (y0 & E2 & E). apply bind_inv in E as (y1 & E3 & E).
  injection E as <-.
  apply corner_is_float in E0 as [f0 ->]. apply corner_is_float in E1 as [f1 ->].
  apply corner_is_float in E2 as [f2 ->]. apply corner_is_float in E3 as [f3 ->].
  exists f0, f1, f2, f3. reflexivity.
Qed.

Lemma mapM_In {A B : Type} (f : A -> result B) (l : list A) (l' : list B) :
  mapM f l = Return l' ->
  forall b, In b l' -> exists a, In a l /\ f a = Return b.
Proof.
  revert l'. induction l as [|a l IH]; intros l'; cbn.
  - intros [= <-] b [].
  - destruct (f a) as [b0|] eqn:Ea; cbn; [|discriminate].
    destruct (mapM f l) as [bs|] eqn:El; cbn; [|discriminate].
    intros [= <-] b [<- | Hb].
    + exists a. split; [left; reflexivity | exact Ea].
    + destruct (IH bs eq_refl b Hb) as (a' & Ha' & Ea').
      exists a'. split; [right; exact Ha' | exact Ea'].
Qed.

(** Drawing a corner box that is not relative, on an image of three
    dimensions: the slice bounds are floats. *)
Lemma draw_not_relative (self : Annotation2Mask F) (mask : ndarray)
    (s0 s1 s2 n0 n1 : Z) (rest : list Z) (c : CenteredBoundingBox F)
    (b : BoundingBox F) :
  shape (img self) = [s0; s1; s2] ->
  shape mask = n0 :: n1 :: rest ->
  CenteredBoundingBox.to_bbox c = Return b ->
  is_relative b = false ->
  Annotation2Mask.draw self mask b = Raise TypeError.
Proof.
  intros Hs Hm Hc Hb. unfold Annotation2Mask.draw. rewrite Hs.
  change (getitem [s0; s1; s2] 2) with (Return s2).
  change (getitem [s0; s1; s2] 1) with (Return s1). cbn [bind].
  rewrite (to_absolute_of_absolute b s2 s1 Hb). cbn [bind].
  destruct (to_bbox_floats c b Hc) as (f0 & f1 & f2 & f3 & ->).
  unfold setitem_slices. rewrite Hm. reflexivity.
Qed.

Lemma setitem_slices_shape (mask mask' : ndarray) (r0 r1 c0 c1 : num F) (v : Z) :
  setitem_slices mask r0 r1 c0 c1 v = Return mask' -> shape mask' = shape mask.
Proof.
  unfold setitem_slices. destruct (shape mask) as [|n0 [|n1 rest]] eqn:E;
    try discriminate.
  destruct (num_index r0); cbn; [|discriminate].
  destruct (num_index r1); cbn; [|discriminate].
  destruct (num_index c0); cbn; [|discriminate].
  destruct (num_index c1); cbn; [|discriminate].
  intros [= <-]. reflexivity.
Qed.

Lemma draw_shape (self : Annotation2Mask F) (mask mask' : ndarray)
    (b : BoundingBox F) :
  Annotation2Mask.draw self mask b = Return mask' -> shape mask' = shape mask.
Proof.
  unfold Annotation2Mask.draw. intros E.
  apply bind_inv in E as (w & _ & E). apply bind_inv in E as (h & _ & E).
  apply bind_inv in E as (bbox & _ & E).
  exact (setitem_slices_shape _ _ _ _ _ _ _ E).
Qed.

Lemma draw_all_shape (self : Annotation2Mask F) (bboxes : list (BoundingBox F)) :
  forall mask mask',
    Annotation2Mask.draw_all self mask bboxes = Return mask' ->
    shape mask' = shape mask.
Proof.
  induction bboxes as [|b rest IH]; intros mask mask'; cbn.
  - intros [= <-]. reflexivity.
  - destruct (Annotation2Mask.draw self mask b) as [m|] eqn:Ed; cbn;
      [|discriminate].
    intros E. rewrite (IH _ _ E). exact (draw_shape _ _ _ _ Ed).
Qed.

Lemma draw_all_app (self : Annotation2Mask F) (pre post : list (BoundingBox F)) :
  forall mask,
    Annotation2Mask.draw_all self mask (pre ++ post)
    = (m <- Annotation2Mask.draw_all self mask pre ;;
       Annotation2Mask.draw_all self m post).
Proof.
  induction pre as [|b pre IH]; intros mask; cbn; [reflexivity|].
  destruct (Annotation2Mask.draw self mask b); cbn; [apply IH | reflexivity].
Qed.
End Outside.

(** C3, as stated, fails: the second box of this annotation reaches over
    the right and bottom edges of the image (its corner form is not
    relative), and [create_mask] raises no bounds error: the code checks no
    bound. What is raised is the [TypeError] of the array for a slice bound
    that is not an int. *)
Lemma create_mask_outside_TypeError :
  MASATIImageAnnotation.from_str (StrList [scenario_line; outside_line])
  = Return (annotations outside_self)
  /\ is_relative (corner_of outside_box) = false
  /\ Annotation2Mask.create_mask outside_self = Raise TypeError.
Proof. repeat split; vm_compute; reflexivity. Qed.

(** C3, amended: [create_mask] has no bounds check and no bounds error,
    and it neither clips nor wraps: on an image of three dimensions, when
    the corner form of a box of the annotation is not relative (a corner
    coordinate outside [[0,1]]: for an annotation in relative units, a box
    that reaches outside the image), [create_mask] raises and returns no
    mask; [to_absolute] leaves that box its float coordinates, and the
    slice assignment raises [TypeError] unless a box before it has already
    raised. *)
Theorem create_mask_outside {F : Type} `{FloatArith F}
    (self : Annotation2Mask F) (s0 s1 s2 : Z)
    (pre post : list (BoundingBox F)) (b : BoundingBox F) :
  shape (img self) = [s0; s1; s2] ->
  MASATIImageAnnotation.annotations (annotations self)
  = Return (pre ++ b :: post)%list ->
  is_relative b = false ->
  raises (Annotation2Mask.create_mask self)
  /\ (forall mask,
        Annotation2Mask.draw_all self (zeros [s1; s2]) pre = Return mask ->
        Annotation2Mask.create_mask self = Raise TypeError).
Proof.
  intros Hs Hann Hb.
  assert (Hc : exists c, CenteredBoundingBox.to_bbox c = Return b).
  { destruct (mapM_In _ _ _ Hann b) as ([c|] & _ & Ec).
    - apply in_or_app. right. left. reflexivity.
    - exists c. exact Ec.
    - discriminate. }
  destruct Hc as [c Hc].
  assert (E : Annotation2Mask.create_mask self
              = (m <- Annotation2Mask.draw_all self (zeros [s1; s2]) pre ;;
                 Annotation2Mask.draw_all self m (b :: post))).
  { unfold Annotation2Mask.create_mask. rewrite Hann, Hs. cbn [bind tl].
    apply draw_all_app. }
  assert (Hdraw : forall mask,
             Annotation2Mask.draw_all self (zeros [s1; s2]) pre = Return mask ->
             Annotation2Mask.create_mask self = Raise TypeError).
  { intros mask Hpre. rewrite E, Hpre. cbn [bind Annotation2Mask.draw_all].
    rewrite (draw_not_relative self mask s0 s1 s2 s1 s2 [] c b Hs); trivial.
    apply (draw_all_shape _ _ _ _ Hpre). }
  split; [|exact Hdraw].
  destruct (Annotation2Mask.draw_all self (zeros [s1; s2]) pre) as [mask|e] eqn:Hpre.
  - exists TypeError. apply (Hdraw mask). reflexivity.
  - exists e. rewrite E. reflexivity.
Qed.

Lemma create_mask_outside_witness :
  raises (Annotation2Mask.create_mask outside_self)
  /\ (forall mask,
        Annotation2Mask.draw_all outside_self (zeros [50; 100])
          [corner_of scenario_box] = Return mask ->
        Annotation2Mask.create_mask outside_self = Raise TypeError).
Proof.
  apply (create_mask_outside outside_self 3 50 100
           [corner_of scenario_box] [] (corner_of outside_box));
    vm_compute; reflexivity.
Defined.

(** ** Exact arithmetic *)

Lemma num_val_qc (a : num Qc) :
  exists q, num_val a = Some q /\ (q == this (qc a))%Q.
Proof.
  destruct a as [z|q]; eexists; (split; [reflexivity|]).
  - unfold qc, Q2Qc; cbn [this]. symmetry. apply Qred_correct.
  - reflexivity.
Qed.



Lemma Q2Qc_mul (x y : Z) :
  Q2Qc (inject_Z (x * y)) = (Q2Qc (inject_Z x) * Q2Qc (inject_Z y))%Qc.
Proof.
  apply Qc_is_canon. qc_this. rewrite inject_Z_mult. reflexivity.
Qed.

Lemma Q2Qc_div (x y : Z) :
  Q2Qc (inject_Z x / inject_Z y) = (Q2Qc (inject_Z x) / Q2Qc (inject_Z y))%Qc.
Proof.
  apply Qc_is_canon. qc_this. reflexivity.
Qed.

Lemma Q2Qc_nonzero (n : Z) : n <> 0 -> Q2Qc (inject_Z n) <> Q2Qc 0.
Proof.
  intros Hn E.
  assert (E' : (this (Q2Qc (inject_Z n)) == this (Q2Qc 0))%Q)
    by (rewrite E; reflexivity).
  unfold Q2Qc in E'; cbn [this] in E'. rewrite !Qred_correct in E'.
  unfold Qeq in E'; cbn in E'. lia.
Qed.

Lemma Qc_eq_bool_nonzero (n : Z) :
  n <> 0 -> Qc_eq_bool (Q2Qc (inject_Z n)) (Q2Qc 0) = false.
Proof.
  intros Hn. destruct (Qc_eq_bool _ _) eqn:E; [|reflexivity].
  apply Qc_eq_bool_correct in E. exfalso. exact (Q2Qc_nonzero n Hn E).
Qed.



Lemma exact_mul (a b : num Qc) :
  exists r, num_mul a b = Return r /\ qc r = (qc a * qc b)%Qc.
Proof.
  destruct a, b; cbn; eexists; (split; [reflexivity|]); cbn;
    try reflexivity. apply Q2Qc_mul.
Qed.

Lemma exact_truediv (a : num Qc) (n : Z) :
  n <> 0 ->
  num_truediv a (PyInt n)
  = Return (PyFloat (qc a / Q2Qc (inject_Z n))%Qc).
Proof.
  intros Hn. destruct a as [z|q]; cbn.
  - unfold Exact.int_truediv. apply Z.eqb_neq in Hn. rewrite Hn. cbn.
    rewrite Q2Qc_div. reflexivity.
  - unfold Exact.ftruediv. rewrite (Qc_eq_bool_nonzero n Hn). reflexivity.
Qed.






Lemma div_mul (x w : Qc) : w <> Q2Qc 0 -> (x / w * w = x)%Qc.
Proof. intros. field. assumption. Qed.




(** Whatever the arithmetic, a round trip that returns keeps [class_id]. *)
Lemma round_trip_class_id {F : Type} `{FloatArith F} :
  (forall c c' : CenteredBoundingBox F,
      center_corner_center c = Return c' -> class_id c' = class_id c)
  /\ (forall b b' : BoundingBox F,
         corner_center_corner b = Return b' -> class_id b' = class_id b).
Proof.
  split.
  - intros c c' E. unfold center_corner_center in E.
    apply bind_inv in E as (b & Eb & E).
    unfold CenteredBoundingBox.to_bbox in Eb.
    apply bind_inv in Eb as (? & _ & Eb). apply bind_inv in Eb as (? & _ & Eb).
    apply bind_inv in Eb as (? & _ & Eb). apply bind_inv in Eb as (? & _ & Eb).
    injection Eb as <-.
    unfold BoundingBox.to_centered_bbox in E.
    apply bind_inv in E as (? & _ & E). apply bind_inv in E as (? & _ & E).
    apply bind_inv in E as (? & _ & E). apply bind_inv in E as (? & _ & E).
    injection E as <-. reflexivity.
  - intros b b' E. unfold corner_center_corner in E.
    apply bind_inv in E as (c & Ec & E).
    unfold BoundingBox.to_centered_bbox in Ec.
    apply bind_inv in Ec as (? & _ & Ec). apply bind_inv in Ec as (? & _ & Ec).
    apply bind_inv in Ec as (? & _ & Ec). apply bind_inv in Ec as (? & _ & Ec).
    injection Ec as <-.
    unfold CenteredBoundingBox.to_bbox in E.
    apply bind_inv in E as (? & _ & E). apply bind_inv in E as (? & _ & E).
    apply bind_inv in E as (? & _ & E). apply bind_inv in E as (? & _ & E).
    injection E as <-. reflexivity.
Qed.




Lemma this_Qcdiv (x : Qc) (n : Z) :
  (this (x / Q2Qc (inject_Z n))%Qc == this x / inject_Z n)%Q.
Proof.
  qc_this. reflexivity.
Qed.


Lemma to_float_exact (a : num Qc) : to_float a = Return (qc a).
Proof. destruct a; reflexivity. Qed.

Lemma in_unit_interval_qc (a : num Qc) :
  check_is_relative a = true -> (0 <= this (qc a) <= 1)%Q.
Proof.
  intros Hr. apply check_is_relative_spec in Hr as (q & Hq & Hq01).
  destruct (num_val_qc a) as (q' & Hq' & E). rewrite Hq in Hq'.
  injection Hq' as <-. rewrite <- E. exact Hq01.
Qed.

(** In exact arithmetic the negative coordinate of the corner form of a
    relative box is a fraction: it lies between -1/2 and 0. *)
Lemma to_bbox_near_origin_exact (c : CenteredBoundingBox Qc) :
  is_relative c = true ->
  (this (qc (center_x c)) < this (qc (width c)) / inject_Z 2)%Q ->
  exists b q,
    CenteredBoundingBox.to_bbox c = Return b
    /\ num_val (min_x b) = Some q
    /\ (- (1 # 2) <= q < 0)%Q.
Proof.
  intros Hrel Hnear.
  destruct (to_bbox_relative c Hrel)
    as (x & y & hx & hy & Ex & Ey & Ew & Eh & Eb).
  rewrite to_float_exact in Ex. injection Ex as <-.
  rewrite (exact_truediv (width c) 2) in Ew by discriminate. injection Ew as <-.
  eexists. eexists. split; [exact Eb|]. split; [reflexivity|].
  cbn in Hrel. unfold CenteredBoundingBox.is_relative in Hrel.
  rewrite !andb_true_iff in Hrel. destruct Hrel as [[[Hx _] Hw] _].
  apply in_unit_interval_qc in Hx, Hw.
  cbn [fsub exact]. rewrite this_Qcminus, this_Qcdiv.
  assert (E2 : (this (qc (width c)) / inject_Z 2
                == this (qc (width c)) * (1 # 2))%Q) by reflexivity.
  rewrite E2 in *. lra.
Qed.


(** On binary64 floats a pixel coordinate may come back one unit lower:
    29 / 100 * 100 is rounded below 29. *)
Example relative_then_absolute_binary64 :
  relative_then_absolute (F := float) pixel_box 100 100
  = Return (mkBoundingBox 0 (PyInt 28) (PyInt 57) (PyInt 56) (PyInt 60)).
Proof. vm_compute. reflexivity. Qed.

(** On binary64, for axes of 100 and of 512 pixels (the images of the
    dataset), every pixel comes back within one unit. *)
Example pixel_round_trip_binary64 :
  forallb (pixel_round_trip 100) (upto 100) = true
  /\ forallb (pixel_round_trip 512) (upto 512) = true.
Proof. split; vm_compute; reflexivity. Qed.



(** ** Lists of results *)

Lemma mapM_Forall2 {A B : Type} (f : A -> result B) (l : list A) :
  forall l', mapM f l = Return l' <-> Forall2 (fun a b => f a = Return b) l l'.
Proof.
  induction l as [|a l IH]; intros l'; cbn.
  - split.
    + intros [= <-]. constructor.
    + intros Hl. inversion Hl. reflexivity.
  - split.
    + intros E. apply bind_inv in E as (b & Eb & E).
      apply bind_inv in E as (bs & Ebs & E). injection E as <-.
      constructor; [exact Eb | apply IH, Ebs].
    + intros Hl. inversion Hl as [|a' b l0 bs Eb Hbs]; subst.
      rewrite Eb. cbn. apply IH in Hbs. rewrite Hbs. reflexivity.
Qed.

Lemma mapM_app_Raise {A B : Type} (f : A -> result B) (pre post : list A)
    (a : A) (l : list B) (e : exn) :
  mapM f pre = Return l -> f a = Raise e ->
  mapM f (pre ++ a :: post) = Raise e.
Proof.
  revert l. induction pre as [|p pre IH]; intros l; cbn.
  - intros _ ->. reflexivity.
  - intros E Ea. apply bind_inv in E as (b & -> & E).
    apply bind_inv in E as (bs & Ebs & _). cbn.
    rewrite (IH bs Ebs Ea). reflexivity.
Qed.

Lemma mapM_raises {A B : Type} (f : A -> result B) (pre post : list A) (a : A) :
  raises (f a) -> raises (mapM f (pre ++ a :: post)).
Proof.
  intros [e Ea]. induction pre as [|p pre IH]; cbn.
  - rewrite Ea. exists e. reflexivity.
  - destruct (f p) as [b|e']; cbn; [|exists e'; reflexivity].
    destruct IH as [e' ->]. exists e'. reflexivity.
Qed.

Lemma mapM_length {A B : Type} (f : A -> result B) (l : list A) (l' : list B) :
  mapM f l = Return l' -> List.length l' = List.length l.
Proof.
  intros E. apply mapM_Forall2 in E.
  induction E; cbn; congruence.
Qed.

(** ** What [MASATIImageAnnotation.from_str] stores *)


Lemma split_on_newlines (n : nat) :
  split_on newline (newlines n) = repeat "" (S n).
Proof.
  unfold split_on. induction n as [|n IH]; cbn [newlines split_on_from].
  - reflexivity.
  - change (Ascii.eqb newline newline) with true. cbn beta iota.
    rewrite IH. reflexivity.
Qed.

Lemma filter_empty_lines (n : nat) :
  filter (fun bbox_repr => negb (String.eqb bbox_repr "")) (repeat "" n) = [].
Proof. induction n as [|n IH]; cbn; [reflexivity | exact IH]. Qed.

(** X2: a text that holds line ends only (the empty text, an empty file)
    and a list of empty strings parse to the annotation with no box, and
    with that annotation [create_mask] returns the mask of zeros with the
    shape of the image after its first axis, whatever the image is. *)
Theorem from_str_no_box {F : Type} `{FloatArith F} (n : nat) (image : ndarray) :
  MASATIImageAnnotation.from_str (F := F) (Str (newlines n))
  = Return (mkMASATIImageAnnotation [])
  /\ MASATIImageAnnotation.from_str (F := F) (StrList (repeat "" n))
     = Return (mkMASATIImageAnnotation [])
  /\ Annotation2Mask.create_mask (with_boxes (F := F) image [])
     = Return (zeros (tl (shape image))).
Proof.
  unfold MASATIImageAnnotation.from_str.
  rewrite split_on_newlines, !filter_empty_lines.
  repeat split.
Qed.

Lemma append_String (tok : string) (c : ascii) (s : string) :
  (tok ++ String c "") ++ s = tok ++ String c s.
Proof. induction tok as [|t tok IH]; cbn; [reflexivity | rewrite IH; reflexivity]. Qed.

Lemma append_empty (s : string) : s ++ "" = s.
Proof. induction s as [|c s IH]; cbn; [reflexivity | rewrite IH; reflexivity]. Qed.

(** A line with no line end in it is one item of the split. *)
Lemma split_on_from_line (sep : ascii) (line : string) :
  contains sep line = false ->
  forall (tok rest : string),
    split_on_from sep line tok = [tok ++ line]
    /\ split_on_from sep (line ++ String sep rest) tok
       = (tok ++ line) :: split_on_from sep rest "".
Proof.
  induction line as [|c line IH]; cbn [contains]; intros Hc tok rest.
  - cbn. rewrite Ascii.eqb_refl, append_empty. split; reflexivity.
  - apply orb_false_elim in Hc as [Hc Hline].
    cbn [append split_on_from]. rewrite Hc.
    destruct (IH Hline (tok ++ String c "") rest) as [E1 E2].
    rewrite E1, E2, append_String. split; reflexivity.
Qed.

Lemma split_on_join_lines (line : string) (rest : list string) :
  Forall (fun l => contains newline l = false) (line :: rest) ->
  split_on newline (join_lines (line :: rest)) = line :: rest.
Proof.
  revert line. induction rest as [|next rest IH]; intros line Hl.
  - inversion Hl as [|? ? Hline _]; subst.
    apply (split_on_from_line newline line Hline "" "").
  - inversion Hl as [|? ? Hline Hrest]; subst.
    change (join_lines (line :: next :: rest))
      with (line ++ String newline (join_lines (next :: rest))).
    unfold split_on.
    destruct (split_on_from_line newline line Hline "" (join_lines (next :: rest)))
      as [_ ->].
    cbn [append]. f_equal. apply (IH next Hrest).
Qed.

(** X3: the two forms of the argument of [MASATIImageAnnotation.from_str]
    agree: for lines that hold no line end, parsing the lines joined by
    line ends is parsing the list of the lines (the same annotation, or the
    same exception). *)
Theorem from_str_joined_lines {F : Type} `{FloatArith F} (lines : list string) :
  Forall (fun line => contains newline line = false) lines ->
  MASATIImageAnnotation.from_str (F := F) (Str (join_lines lines))
  = MASATIImageAnnotation.from_str (StrList lines).
Proof.
  intros Hl. unfold MASATIImageAnnotation.from_str.
  destruct lines as [|line rest]; [reflexivity|].
  rewrite (split_on_join_lines line rest Hl). reflexivity.
Qed.

Lemma from_str_joined_lines_witness :
  MASATIImageAnnotation.from_str (F := float)
    (Str (join_lines [scenario_line; outside_line]))
  = MASATIImageAnnotation.from_str (StrList [scenario_line; outside_line]).
Proof.
  apply (from_str_joined_lines [scenario_line; outside_line]).
  repeat constructor.
Defined.

(** ** The corner boxes of an annotation *)

Section CornerBoxes.
Context {F : Type} `{FloatArith F}.

Lemma to_bbox_float_coordinates (c : CenteredBoundingBox F) (b : BoundingBox F) :
  CenteredBoundingBox.to_bbox c = Return b ->
  class_id b = class_id c /\ float_coordinates b.
Proof.
  intros E. destruct (to_bbox_floats c b E) as (f0 & f1 & f2 & f3 & ->).
  split; [reflexivity|]. exists f0, f1, f2, f3. repeat split.
Qed.

(** X4: the property [annotations] returns a list exactly when every
    stored entry is a box whose corner form [to_bbox] computes; the list
    then holds one corner box for each entry, in order, with the
    [class_id] of the entry and four float coordinates (the halving in
    [to_bbox] makes floats of ints too). *)
Theorem annotations_one_box_per_entry (a : MASATIImageAnnotation F)
    (bboxes : list (BoundingBox F)) :
  MASATIImageAnnotation.annotations a = Return bboxes
  <-> Forall2
        (fun entry b =>
           exists c, entry = Some c
                     /\ CenteredBoundingBox.to_bbox c = Return b
                     /\ class_id b = class_id c /\ float_coordinates b)
        (_raw_annotations a) bboxes.
Proof.
  unfold MASATIImageAnnotation.annotations. rewrite mapM_Forall2. split.
  - intros Hl. induction Hl as [|entry b raw bs Eb _ IH]; constructor;
      [|exact IH].
    destruct entry as [c|]; [|discriminate]. cbn in Eb.
    exists c. split; [reflexivity|]. split; [exact Eb|].
    apply to_bbox_float_coordinates, Eb.
  - intros Hl. induction Hl as [|entry b raw bs (c & -> & Eb & _) _ IH];
      constructor; [exact Eb | exact IH].
Qed.

(** X5: an entry [None] among the stored annotations (what
    [CenteredBoundingBox.from_str] returns for a line that has not five
    tokens) makes the property [annotations] raise, and [create_mask] with
    it, on every image; when the entries before it have a corner form the
    exception is [AttributeError], raised before any box is drawn. *)
Theorem annotations_of_None (image : ndarray)
    (pre post : list (option (CenteredBoundingBox F))) :
  let a := mkMASATIImageAnnotation (pre ++ None :: post) in
  raises (MASATIImageAnnotation.annotations a)
  /\ raises (Annotation2Mask.create_mask (mkAnnotation2Mask image a))
  /\ (forall bboxes,
        MASATIImageAnnotation.annotations (mkMASATIImageAnnotation pre)
        = Return bboxes ->
        MASATIImageAnnotation.annotations a = Raise AttributeError
        /\ Annotation2Mask.create_mask (mkAnnotation2Mask image a)
           = Raise AttributeError).
Proof.
  intros a.
  assert (Hr : raises (MASATIImageAnnotation.annotations a)).
  { apply mapM_raises. exists AttributeError. reflexivity. }
  split; [exact Hr|]. split.
  - destruct Hr as [e He]. exists e.
    unfold Annotation2Mask.create_mask. cbn [annotations]. rewrite He.
    reflexivity.
  - intros bboxes Hpre.
    assert (E : MASATIImageAnnotation.annotations a = Raise AttributeError).
    { apply (mapM_app_Raise _ _ _ _ bboxes); [exact Hpre | reflexivity]. }
    split; [exact E|].
    unfold Annotation2Mask.create_mask. cbn [annotations]. rewrite E.
    reflexivity.
Qed.
End CornerBoxes.

(** ** Images of fewer than three dimensions *)

(** X6: [Annotation2Mask] checks that an image has no more than three
    dimensions, not that it has three. An array of no dimension fails with
    [IndexError] at [shape[0]]; an array of one dimension is refused with
    [ValueError], by the channel check or, when its size is 3, by
    [transpose]; an array of two dimensions is accepted exactly when its
    first axis has size 3 and its last axis has not, and it is then kept
    as it is, with two dimensions. *)
Theorem post_init_fewer_dimensions {F : Type} `{FloatArith F}
    (s0 s1 : Z) (items : list Z -> Z) (a : MASATIImageAnnotation F) :
  Annotation2Mask.new (mkndarray [] items) a = Raise IndexError
  /\ Annotation2Mask.new (mkndarray [s0] items) a = Raise ValueError
  /\ Annotation2Mask.new (mkndarray [s0; s1] items) a
     = if (s0 =? 3) && negb (s1 =? 3)
       then Return (mkAnnotation2Mask (mkndarray [s0; s1] items) a)
       else Raise ValueError.
Proof.
  split; [reflexivity|]. split.
  - unfold Annotation2Mask.new, Annotation2Mask.__post_init__.
    cbn [img annotations shape].
    change (ndim (mkndarray [s0] items) >? 3) with false.
    change (getitem [s0] 0) with (Return s0).
    change (getitem [s0] (-1)) with (Return s0).
    cbn [bind]. destruct (s0 =? 3); reflexivity.
  - unfold Annotation2Mask.new, Annotation2Mask.__post_init__.
    cbn [img annotations shape].
    change (ndim (mkndarray [s0; s1] items) >? 3) with false.
    change (getitem [s0; s1] 0) with (Return s0).
    change (getitem [s0; s1] (-1)) with (Return s1).
    cbn [bind]. destruct (s0 =? 3), (s1 =? 3); reflexivity.
Qed.

(** X7: [create_mask] reads the width of the image at [shape[2]]: on an
    image of fewer than three dimensions (one of two dimensions passes the
    checks of the constructor) it raises [IndexError] as soon as the
    annotation has a box, before anything is drawn. *)
Theorem create_mask_fewer_dimensions {F : Type} `{FloatArith F}
    (self : Annotation2Mask F) (b : BoundingBox F) (rest : list (BoundingBox F)) :
  (List.length (shape (img self)) < 3)%nat ->
  MASATIImageAnnotation.annotations (annotations self) = Return (b :: rest) ->
  Annotation2Mask.create_mask self = Raise IndexError.
Proof.
  intros Hn Hann. unfold Annotation2Mask.create_mask. rewrite Hann.
  cbn [bind Annotation2Mask.draw_all]. unfold Annotation2Mask.draw.
  destruct (shape (img self)) as [|s0 [|s1 [|s2 more]]];
    try reflexivity. cbn in Hn. lia.
Qed.

Lemma create_mask_fewer_dimensions_witness :
  Annotation2Mask.new (mkndarray [3; 5] (fun _ => 0)) scenario_annotation
  = Return (mkAnnotation2Mask (mkndarray [3; 5] (fun _ => 0)) scenario_annotation)
  /\ Annotation2Mask.create_mask
       (mkAnnotation2Mask (mkndarray [3; 5] (fun _ => 0)) scenario_annotation)
     = Raise IndexError.
Proof.
  split; [reflexivity|].
  apply (create_mask_fewer_dimensions
           (mkAnnotation2Mask (mkndarray [3; 5] (fun _ => 0)) scenario_annotation)
           (corner_of scenario_box) []).
  - cbn. lia.
  - vm_compute. reflexivity.
Defined.

(** ** The mask is the union of the rectangles *)

Section Rectangles.
Context {F : Type} `{FloatArith F}.

(** One turn of the loop: the box in pixels has int coordinates, and the
    mask changes in its rectangle only, where it becomes 255. *)
Lemma draw_item (self : Annotation2Mask F) (mask mask' : ndarray)
    (b : BoundingBox F) :
  Annotation2Mask.draw self mask b = Return mask' ->
  exists img_width img_height bbox,
    getitem (shape (img self)) 2 = Return img_width
    /\ getitem (shape (img self)) 1 = Return img_height
    /\ BoundingBox.to_absolute b img_width img_height = Return bbox
    /\ (exists x0 x1 y0 y1, int_coordinates bbox x0 x1 y0 y1)
    /\ shape mask' = shape mask
    /\ forall idx,
         item mask' idx
         = if covers (shape mask) bbox idx then 255 else item mask idx.
Proof.
  unfold Annotation2Mask.draw. intros E.
  apply bind_inv in E as (img_width & Ew & E).
  apply bind_inv in E as (img_height & Eh & E).
  apply bind_inv in E as (bbox & Eb & E).
  exists img_width, img_height, bbox. repeat (split; [assumption|]).
  unfold setitem_slices in E.
  destruct (shape mask) as [|n0 [|n1 rest]] eqn:Es; try discriminate.
  unfold covers.
  destruct (min_y bbox) as [r0|] eqn:E0; [|discriminate].
  destruct (max_y bbox) as [r1|] eqn:E1; [|discriminate].
  destruct (min_x bbox) as [c0|] eqn:E2; [|discriminate].
  destruct (max_x bbox) as [c1|] eqn:E3; [|discriminate].
  cbn in E. injection E as <-. cbn [shape item].
  split; [exists c0, c1, r0, r1; repeat split; assumption|].
  split; [reflexivity|].
  intros [|i [|j more]]; reflexivity.
Qed.

Lemma draw_all_items (self : Annotation2Mask F) (s0 s1 s2 : Z)
    (bboxes : list (BoundingBox F)) :
  shape (img self) = [s0; s1; s2] ->
  forall mask mask',
    Annotation2Mask.draw_all self mask bboxes = Return mask' ->
    exists absolutes,
      mapM (fun b => to_absolute b s2 s1) bboxes = Return absolutes
      /\ Forall (fun bbox => exists x0 x1 y0 y1, int_coordinates bbox x0 x1 y0 y1)
           absolutes
      /\ shape mask' = shape mask
      /\ forall idx,
           item mask' idx
           = if existsb (fun bbox => covers (shape mask) bbox idx) absolutes
             then 255 else item mask idx.
Proof.
  intros Hs. induction bboxes as [|b rest IH]; intros mask mask' E;
    cbn [Annotation2Mask.draw_all mapM] in *.
  - injection E as <-. exists []. repeat split. constructor.
  - apply bind_inv in E as (m1 & E1 & E).
    apply draw_item in E1
      as (img_width & img_height & bbox & Ew & Eh & Eb & Hint & Es1 & Hitem).
    rewrite Hs in Ew, Eh.
    change (getitem [s0; s1; s2] 2) with (Return s2) in Ew.
    change (getitem [s0; s1; s2] 1) with (Return s1) in Eh.
    injection Ew as <-. injection Eh as <-.
    destruct (IH m1 mask' E) as (absolutes & Eabs & Hints & Es & Hitems).
    exists (bbox :: absolutes).
    cbn [to_absolute BoundingBox_IBoundingBox] in *. rewrite Eb, Eabs.
    split; [reflexivity|]. split; [constructor; assumption|].
    split; [congruence|].
    intros idx. rewrite Hitems, Hitem, Es1. cbn [existsb].
    destruct (covers (shape mask) bbox idx), (existsb _ absolutes); reflexivity.
Qed.

(** Drawing does not depend on what the mask holds: on two masks with the
    same items it gives two masks with the same items. *)
Lemma draw_same_items (self : Annotation2Mask F) (b : BoundingBox F)
    (m1 m2 m1' : ndarray) :
  same_items m1 m2 ->
  Annotation2Mask.draw self m1 b = Return m1' ->
  exists m2', Annotation2Mask.draw self m2 b = Return m2' /\ same_items m1' m2'.
Proof.
  intros [Hshape Hitem]. unfold Annotation2Mask.draw. intros E.
  apply bind_inv in E as (img_width & -> & E). cbn [bind].
  apply bind_inv in E as (img_height & -> & E). cbn [bind].
  apply bind_inv in E as (bbox & -> & E). cbn [bind].
  unfold setitem_slices in *. rewrite <- Hshape.
  destruct (shape m1) as [|n0 [|n1 rest]]; try discriminate.
  destruct (num_index (min_y bbox)); [|discriminate].
  destruct (num_index (max_y bbox)); [|discriminate].
  destruct (num_index (min_x bbox)); [|discriminate].
  destruct (num_index (max_x bbox)); [|discriminate].
  cbn [bind] in *. injection E as <-. eexists. split; [reflexivity|].
  split; [reflexivity|]. cbn [item].
  intros [|i [|j more]]; rewrite ?Hitem; reflexivity.
Qed.

(** Two turns of the loop in either order. *)
Lemma draw_swap (self : Annotation2Mask F) (b1 b2 : BoundingBox F)
    (m m1 m12 : ndarray) :
  Annotation2Mask.draw self m b1 = Return m1 ->
  Annotation2Mask.draw self m1 b2 = Return m12 ->
  exists m2 m21,
    Annotation2Mask.draw self m b2 = Return m2
    /\ Annotation2Mask.draw self m2 b1 = Return m21
    /\ same_items m12 m21.
Proof.
  unfold Annotation2Mask.draw. intros E1 E2.
  apply bind_inv in E1 as (img_width & Ew & E1). rewrite Ew in *.
  apply bind_inv in E1 as (img_height & Eh & E1). rewrite Eh in *.
  cbn [bind] in *.
  apply bind_inv in E1 as (bbox1 & -> & E1).
  apply bind_inv in E2 as (bbox2 & -> & E2). cbn [bind].
  unfold setitem_slices in *.
  destruct (shape m) as [|n0 [|n1 rest]] eqn:Es; try discriminate.
  destruct (num_index (min_y bbox1)); [|discriminate].
  destruct (num_index (max_y bbox1)); [|discriminate].
  destruct (num_index (min_x bbox1)); [|discriminate].
  destruct (num_index (max_x bbox1)); [|discriminate].
  cbn [bind] in *. injection E1 as <-. cbn [shape item] in E2.
  destruct (num_index (min_y bbox2)); [|discriminate].
  destruct (num_index (max_y bbox2)); [|discriminate].
  destruct (num_index (min_x bbox2)); [|discriminate].
  destruct (num_index (max_x bbox2)); [|discriminate].
  cbn [bind] in *. injection E2 as <-.
  eexists. eexists. split; [reflexivity|]. cbn [shape item].
  split; [reflexivity|]. split; [reflexivity|]. cbn [item].
  intros [|i [|j more]]; try reflexivity.
  destruct (in_slice n0 _ _ i && in_slice n1 _ _ j),
    (in_slice n0 _ _ i && in_slice n1 _ _ j); reflexivity.
Qed.

Lemma same_items_refl (m : ndarray) : same_items m m.
Proof. split; reflexivity. Qed.

Lemma same_items_trans (m1 m2 m3 : ndarray) :
  same_items m1 m2 -> same_items m2 m3 -> same_items m1 m3.
Proof.
  intros [S1 I1] [S2 I2]. split; [congruence|].
  intros idx. rewrite I1. apply I2.
Qed.

Lemma draw_all_same_items (self : Annotation2Mask F)
    (bboxes : list (BoundingBox F)) :
  forall m1 m2 r1,
    same_items m1 m2 ->
    Annotation2Mask.draw_all self m1 bboxes = Return r1 ->
    exists r2,
      Annotation2Mask.draw_all self m2 bboxes = Return r2 /\ same_items r1 r2.
Proof.
  induction bboxes as [|b rest IH]; intros m1 m2 r1 Hm E;
    cbn [Annotation2Mask.draw_all] in *.
  - injection E as <-. exists m2. split; [reflexivity | exact Hm].
  - apply bind_inv in E as (m1' & E1 & E).
    destruct (draw_same_items self b m1 m2 m1' Hm E1) as (m2' & -> & Hm').
    cbn [bind]. exact (IH m1' m2' r1 Hm' E).
Qed.

Lemma draw_all_Permutation (self : Annotation2Mask F)
    (bboxes bboxes' : list (BoundingBox F)) :
  Permutation bboxes bboxes' ->
  forall m1 m2 r1,
    same_items m1 m2 ->
    Annotation2Mask.draw_all self m1 bboxes = Return r1 ->
    exists r2,
      Annotation2Mask.draw_all self m2 bboxes' = Return r2 /\ same_items r1 r2.
Proof.
  induction 1 as [|b l l' _ IH|b1 b2 l|l l' l'' _ IH1 _ IH2];
    intros m1 m2 r1 Hm E.
  - apply (draw_all_same_items self [] m1 m2 r1 Hm E).
  - cbn [Annotation2Mask.draw_all] in *.
    apply bind_inv in E as (m1' & E1 & E).
    destruct (draw_same_items self b m1 m2 m1' Hm E1) as (m2' & -> & Hm').
    cbn [bind]. exact (IH m1' m2' r1 Hm' E).
  - cbn [Annotation2Mask.draw_all] in E.
    apply bind_inv in E as (ma & Ea & E). apply bind_inv in E as (mab & Eab & E).
    destruct (draw_swap self b2 b1 m1 ma mab Ea Eab) as (mb & mba & Eb & Eba & Hs).
    destruct (draw_all_same_items self l mab mba r1 Hs E) as (r' & E' & Hr').
    assert (E2 : Annotation2Mask.draw_all self m1 (b1 :: b2 :: l) = Return r').
    { cbn [Annotation2Mask.draw_all]. rewrite Eb. cbn [bind]. rewrite Eba.
      exact E'. }
    destruct (draw_all_same_items self _ m1 m2 r' Hm E2) as (r2 & E3 & Hr2).
    exists r2. split; [exact E3|]. exact (same_items_trans _ _ _ Hr' Hr2).
  - destruct (IH1 m1 m1 r1 (same_items_refl m1) E) as (r' & E' & Hr').
    destruct (IH2 m1 m2 r' Hm E') as (r2 & E2 & Hr2).
    exists r2. split; [exact E2|]. exact (same_items_trans _ _ _ Hr' Hr2).
Qed.

(** The loop reads the image of [self], not its annotation. *)
Lemma draw_all_img (self self' : Annotation2Mask F)
    (bboxes : list (BoundingBox F)) :
  img self = img self' ->
  forall mask,
    Annotation2Mask.draw_all self mask bboxes
    = Annotation2Mask.draw_all self' mask bboxes.
Proof.
  intros Hi. induction bboxes as [|b rest IH]; intros mask;
    cbn [Annotation2Mask.draw_all]; [reflexivity|].
  assert (E : Annotation2Mask.draw self mask b
              = Annotation2Mask.draw self' mask b)
    by (unfold Annotation2Mask.draw; rewrite Hi; reflexivity).
  rewrite E.
  destruct (Annotation2Mask.draw self' mask b); cbn [bind];
    [apply IH | reflexivity].
Qed.

Lemma mapM_Permutation {A B : Type} (f : A -> result B) (l l' : list A) :
  Permutation l l' ->
  forall bs, mapM f l = Return bs ->
             exists bs', mapM f l' = Return bs' /\ Permutation bs bs'.
Proof.
  induction 1 as [|a l l' _ IH|a1 a2 l|l l' l'' _ IH1 _ IH2]; intros bs E.
  - exists bs. split; [exact E | apply Permutation_refl].
  - cbn [mapM] in *. apply bind_inv in E as (b & -> & E).
    apply bind_inv in E as (bs0 & E0 & E). injection E as <-.
    destruct (IH bs0 E0) as (bs' & -> & Hp).
    exists (b :: bs'). split; [reflexivity | constructor; exact Hp].
  - cbn [mapM] in *. apply bind_inv in E as (b2 & -> & E).
    apply bind_inv in E as (bs0 & E & E'). injection E' as <-.
    apply bind_inv in E as (b1 & -> & E).
    apply bind_inv in E as (bs1 & -> & E). injection E as <-.
    exists (b1 :: b2 :: bs1). split; [reflexivity | constructor].
  - destruct (IH1 bs E) as (bs' & E' & Hp').
    destruct (IH2 bs' E') as (bs'' & E'' & Hp'').
    exists bs''. split; [exact E'' | exact (Permutation_trans Hp' Hp'')].
Qed.

(** X8: what [create_mask] returns, for an image of three dimensions: each
    corner box of the annotation has been put in pixels by [to_absolute]
    with the width [shape[2]] and the height [shape[1]] of the image and
    has int coordinates; the mask has the shape [(shape[1], shape[2])]; and
    its item at row [i] and column [j] is 255 when [(i, j)] lies in the
    rectangle [[min_y:max_y, min_x:max_x]] of one of these boxes (cut as a
    slice is) and 0 when it lies in none: the mask is the union of the
    rectangles, and holds no other value. *)
Theorem create_mask_rectangles (self : Annotation2Mask F) (s0 s1 s2 : Z)
    (mask : ndarray) :
  shape (img self) = [s0; s1; s2] ->
  Annotation2Mask.create_mask self = Return mask ->
  exists bboxes absolutes,
    MASATIImageAnnotation.annotations (annotations self) = Return bboxes
    /\ mapM (fun b => to_absolute b s2 s1) bboxes = Return absolutes
    /\ Forall (fun bbox => exists x0 x1 y0 y1, int_coordinates bbox x0 x1 y0 y1)
         absolutes
    /\ shape mask = [s1; s2]
    /\ forall i j,
         item mask [i; j]
         = if existsb (fun bbox => covers [s1; s2] bbox [i; j]) absolutes
           then 255 else 0.
Proof.
  intros Hs E. unfold Annotation2Mask.create_mask in E.
  apply bind_inv in E as (bboxes & Eb & E). rewrite Hs in E. cbn [tl] in E.
  destruct (draw_all_items self s0 s1 s2 bboxes Hs _ _ E)
    as (absolutes & Eabs & Hints & Es & Hitems).
  exists bboxes, absolutes. repeat (split; [assumption|]).
  intros i j. apply Hitems.
Qed.

(** X9: the order of the boxes of an annotation does not matter to
    [create_mask]: when it returns a mask for an annotation, it returns a
    mask with the same shape and the same items for every reordering of
    the stored boxes. *)
Theorem create_mask_any_order (image : ndarray)
    (raw raw' : list (option (CenteredBoundingBox F))) (mask : ndarray) :
  Permutation raw raw' ->
  Annotation2Mask.create_mask (with_boxes image raw) = Return mask ->
  exists mask',
    Annotation2Mask.create_mask (with_boxes image raw') = Return mask'
    /\ same_items mask mask'.
Proof.
  intros Hp E. unfold Annotation2Mask.create_mask in *.
  cbn [with_boxes annotations img] in *.
  apply bind_inv in E as (bboxes & Eb & E).
  unfold MASATIImageAnnotation.annotations in *. cbn [_raw_annotations] in *.
  destruct (mapM_Permutation _ raw raw' Hp bboxes Eb) as (bboxes' & -> & Hp').
  cbn [bind].
  rewrite (draw_all_img (with_boxes image raw') (with_boxes image raw))
    by reflexivity.
  apply (draw_all_Permutation _ bboxes bboxes' Hp' _ _ mask
           (same_items_refl _) E).
Qed.
End Rectangles.

Lemma create_mask_rectangles_witness :
  exists bboxes absolutes,
    MASATIImageAnnotation.annotations (annotations scenario_self) = Return bboxes
    /\ mapM (fun b => to_absolute b 100 50) bboxes = Return absolutes
    /\ Forall (fun bbox => exists x0 x1 y0 y1, int_coordinates bbox x0 x1 y0 y1)
         absolutes
    /\ shape scenario_mask = [50; 100]
    /\ forall i j,
         item scenario_mask [i; j]
         = if existsb (fun bbox => covers [50; 100] bbox [i; j]) absolutes
           then 255 else 0.
Proof.
  apply (create_mask_rectangles scenario_self 3 50 100 scenario_mask);
    vm_compute; reflexivity.
Defined.

Lemma create_mask_any_order_witness :
  exists mask mask',
    Annotation2Mask.create_mask
      (with_boxes channel_first_img [Some scenario_box; Some quarter_box])
    = Return mask
    /\ Annotation2Mask.create_mask
         (with_boxes channel_first_img [Some quarter_box; Some scenario_box])
       = Return mask'
    /\ same_items mask mask'.
Proof.
  eexists.
  assert (E : Annotation2Mask.create_mask
                (with_boxes channel_first_img [Some scenario_box; Some quarter_box])
              = Return
                  (match Annotation2Mask.create_mask
                           (with_boxes channel_first_img
                              [Some scenario_box; Some quarter_box]) with
                   | Return m => m
                   | Raise _ => zeros []
                   end)) by (vm_compute; reflexivity).
  destruct (create_mask_any_order channel_first_img
              [Some scenario_box; Some quarter_box]
              [Some quarter_box; Some scenario_box] _ (perm_swap _ _ _) E)
    as (mask' & E' & Hs).
  exists mask'. split; [exact E|]. split; [exact E' | exact Hs].
Defined.

(** ** What parsing returns and raises *)

(** What [CenteredBoundingBox.from_str] returns is [None] or a box with
    float fields. *)
Lemma from_str_entry {F : Type} `{FloatArith F} (s : string)
    (entry : option (CenteredBoundingBox F)) :
  CenteredBoundingBox.from_str s = Return entry ->
  match entry with
  | None => List.length (split s) <> 5%nat
  | Some c => List.length (split s) = 5%nat /\ float_fields c
  end.
Proof.
  unfold CenteredBoundingBox.from_str.
  destruct (Nat.eqb_spec (List.length (split s)) 0) as [E0|_].
  - intros [= <-]. rewrite E0. discriminate.
  - destruct (Nat.eqb_spec (List.length (split s)) 5) as [E5|N5]; cbn [negb].
    + destruct (split s) as [|t0 [|t1 [|t2 [|t3 [|t4 [|t5 more]]]]]];
        try discriminate.
      intros E. apply bind_inv in E as (c & _ & E).
      apply bind_inv in E as (cx & _ & E). apply bind_inv in E as (cy & _ & E).
      apply bind_inv in E as (w & _ & E). apply bind_inv in E as (h & _ & E).
      injection E as <-. split; [reflexivity|].
      exists cx, cy, w, h. reflexivity.
    + intros [= <-]. exact N5.
Qed.

Lemma int_of_str_raises (s : string) (e : exn) :
  int_of_str s = Raise e -> e = ValueError.
Proof.
  unfold int_of_str. destruct (sign _) as [neg l].
  destruct (digitpart l) as [[ds [|c r]]|]; intros [=]; congruence.
Qed.

Lemma binary64_float_of_str_raises (s : string) (e : exn) :
  float_of_str (F := float) s = Raise e -> e = ValueError.
Proof.
  unfold float_of_str. destruct (float_literal_of_str s) as [[neg m ex|neg|]|];
    cbn; intros [=]; congruence.
Qed.

Lemma binary64_from_str_raises (s : string) (e : exn) :
  CenteredBoundingBox.from_str (F := float) s = Raise e -> e = ValueError.
Proof.
  unfold CenteredBoundingBox.from_str.
  destruct (List.length (split s) =? 0)%nat; [discriminate|].
  destruct (Nat.eqb_spec (List.length (split s)) 5) as [E5|_]; cbn [negb];
    [|discriminate].
  destruct (split s) as [|t0 [|t1 [|t2 [|t3 [|t4 [|t5 more]]]]]];
    try discriminate.
  destruct (int_of_str t0) eqn:E0; cbn [bind];
    [|intros [= <-]; exact (int_of_str_raises _ _ E0)].
  destruct (float_of_str t1) eqn:E1; cbn [bind];
    [|intros [= <-]; exact (binary64_float_of_str_raises _ _ E1)].
  destruct (float_of_str t2) eqn:E2; cbn [bind];
    [|intros [= <-]; exact (binary64_float_of_str_raises _ _ E2)].
  destruct (float_of_str t3) eqn:E3; cbn [bind];
    [|intros [= <-]; exact (binary64_float_of_str_raises _ _ E3)].
  destruct (float_of_str t4) eqn:E4; cbn [bind];
    [|intros [= <-]; exact (binary64_float_of_str_raises _ _ E4)].
  discriminate.
Qed.

(** X10: the outcomes of [CenteredBoundingBox.from_str], on the floats of
    the code. It returns [None] exactly when the line has not five tokens;
    on a line of five tokens it returns a box whose four geometric fields
    are floats, or it raises [ValueError] (a token that [int] or [float]
    refuses); it raises no other exception, and checks no range. *)
Theorem from_str_outcomes (s : string) :
  (CenteredBoundingBox.from_str (F := float) s = Return None
   <-> List.length (split s) <> 5%nat)
  /\ ((exists c, CenteredBoundingBox.from_str (F := float) s = Return (Some c)
                 /\ float_fields c)
      \/ CenteredBoundingBox.from_str (F := float) s = Raise ValueError
      <-> List.length (split s) = 5%nat).
Proof.
  destruct (CenteredBoundingBox.from_str (F := float) s) as [[c|]|e] eqn:E.
  - destruct (from_str_entry s _ E) as [H5 Hf]. split.
    + split; [discriminate | intros N; contradiction].
    + split; [intros _; exact H5 | intros _; left; exists c; split; trivial].
  - pose proof (from_str_entry s _ E) as N5. split.
    + split; [intros _; exact N5 | reflexivity].
    + split; [|intros H5; contradiction].
      intros [(c & [=] & _) | [=]].
  - pose proof (binary64_from_str_raises s e E) as ->.
    assert (H5 : List.length (split s) = 5%nat).
    { unfold CenteredBoundingBox.from_str in E.
      destruct (List.length (split s) =? 0)%nat; [discriminate|].
      destruct (Nat.eqb_spec (List.length (split s)) 5) as [E5|_];
        [exact E5 | discriminate]. }
    split.
    + split; [discriminate | intros N; contradiction].
    + split; [intros _; exact H5 | intros _; right; reflexivity].
Qed.

Lemma mapM_raises_only {A B : Type} (f : A -> result B) (e0 : exn) :
  (forall a e, f a = Raise e -> e = e0) ->
  forall l e, mapM f l = Raise e -> e = e0.
Proof.
  intros Hf. induction l as [|a l IH]; intros e; cbn; [discriminate|].
  destruct (f a) as [b|e'] eqn:Ea; cbn.
  - destruct (mapM f l) as [bs|e''] eqn:El; cbn; [discriminate|].
    intros [= <-]. exact (IH e'' eq_refl).
  - intros [= <-]. exact (Hf a e' Ea).
Qed.

Lemma binary64_from_str (image_annotations : str_or_list) :
  (exists a,
      MASATIImageAnnotation.from_str (F := float) image_annotations = Return a
      /\ Forall (fun entry =>
                   match entry with
                   | None => True
                   | Some c => float_fields c
                   end) (_raw_annotations a))
  \/ (MASATIImageAnnotation.from_str (F := float) image_annotations
      = Raise ValueError
      /\ exists bbox_repr,
           In bbox_repr (parsed_lines image_annotations)
           /\ CenteredBoundingBox.from_str (F := float) bbox_repr
              = Raise ValueError).
Proof.
  unfold MASATIImageAnnotation.from_str. fold (parsed_lines image_annotations).
  induction (parsed_lines image_annotations) as [|line lines IH]; cbn [mapM].
  - left. eexists. split; [reflexivity | constructor].
  - destruct (CenteredBoundingBox.from_str line) as [entry|e] eqn:E;
      cbn [bind].
    + destruct IH as [(a & Ea & Hf) | (Er & bbox_repr & Hin & Eb)].
      * apply bind_inv in Ea as (raw & -> & Ea). injection Ea as <-.
        left. eexists. split; [reflexivity|]. cbn. constructor; [|exact Hf].
        pose proof (from_str_entry line entry E) as He.
        destruct entry as [c|]; [apply He | exact I].
      * right. destruct (mapM _ lines) as [raw|e']; [discriminate|].
        cbn in *. split; [exact Er|].
        exists bbox_repr. split; [right; exact Hin | exact Eb].
    + pose proof (binary64_from_str_raises line e E) as ->.
      right. split; [reflexivity|].
      exists line. split; [left; reflexivity | exact E].
Qed.

(** X11: [MASATIImageAnnotation.from_str], on the floats of the code,
    returns an annotation or raises [ValueError], nothing else; one line
    of five tokens with a token that is not a number makes the whole call
    raise, and no annotation is returned for the other lines. Every entry
    of a returned annotation is [None] or a box with four float fields. *)
Theorem from_str_returns_or_ValueError (image_annotations : str_or_list) :
  (exists a,
      MASATIImageAnnotation.from_str (F := float) image_annotations = Return a
      /\ Forall (fun entry =>
                   match entry with
                   | None => True
                   | Some c => float_fields c
                   end) (_raw_annotations a))
  \/ (MASATIImageAnnotation.from_str (F := float) image_annotations
      = Raise ValueError
      /\ exists bbox_repr,
           In bbox_repr (parsed_lines image_annotations)
           /\ CenteredBoundingBox.from_str (F := float) bbox_repr
              = Raise ValueError).
Proof. apply binary64_from_str. Qed.

(** ** After a parse, the corner boxes *)

Section AfterParse.
Context {F : Type} `{FloatLaws F}.

(** The corner form of a box with float fields: nothing raises. *)
Lemma to_bbox_of_float_fields (c : CenteredBoundingBox F) :
  float_fields c -> exists b, CenteredBoundingBox.to_bbox c = Return b.
Proof.
  intros (cx & cy & w & h & ->).
  unfold CenteredBoundingBox.to_bbox, num_truediv, num_sub, num_add.
  cbn [center_x center_y width height to_float bind].
  destruct (float_of_int_small 2 ltac:(lia)) as [two E2]. rewrite E2.
  cbn [bind].
  destruct (ftruediv_two w two E2) as [hw ->].
  destruct (ftruediv_two h two E2) as [hh ->].
  cbn. eexists. reflexivity.
Qed.

Lemma corner_boxes_or_None (raw : list (option (CenteredBoundingBox F))) :
  Forall (fun entry => match entry with
                       | None => True
                       | Some c => float_fields c
                       end) raw ->
  (exists bboxes, mapM MASATIImageAnnotation.entry_to_bbox raw = Return bboxes)
  \/ (In None raw
      /\ mapM MASATIImageAnnotation.entry_to_bbox raw = Raise AttributeError).
Proof.
  induction 1 as [|entry raw He _ IH]; cbn [mapM].
  - left. eexists. reflexivity.
  - destruct entry as [c|].
    + destruct (to_bbox_of_float_fields c He) as [b Eb].
      cbn [MASATIImageAnnotation.entry_to_bbox]. rewrite Eb. cbn [bind].
      destruct IH as [(bboxes & ->) | (Hin & ->)].
      * left. eexists. reflexivity.
      * right. split; [right; exact Hin | reflexivity].
    + right. split; [left; reflexivity | reflexivity].
Qed.

(** X12: after [MASATIImageAnnotation.from_str] has returned an
    annotation, its property [annotations] has two outcomes only: either
    it returns one corner box for each parsed line, or a line had a number
    of tokens other than five, its entry is [None], and [annotations]
    raises [AttributeError]. The boxes that were parsed always have a
    corner form: [to_bbox] raises on none of them. *)
Theorem annotations_after_from_str (image_annotations : str_or_list)
    (a : MASATIImageAnnotation F) :
  MASATIImageAnnotation.from_str image_annotations = Return a ->
  (exists bboxes,
      MASATIImageAnnotation.annotations a = Return bboxes
      /\ List.length bboxes = List.length (parsed_lines image_annotations))
  \/ (In None (_raw_annotations a)
      /\ (exists bbox_repr,
             In bbox_repr (parsed_lines image_annotations)
             /\ List.length (split bbox_repr) <> 5%nat)
      /\ MASATIImageAnnotation.annotations a = Raise AttributeError).
Proof.
  unfold MASATIImageAnnotation.from_str. fold (parsed_lines image_annotations).
  intros E. apply bind_inv in E as (raw & Eraw & E). injection E as <-.
  cbn [MASATIImageAnnotation.__post_init__ _raw_annotations].
  unfold MASATIImageAnnotation.annotations. cbn [_raw_annotations].
  assert (Hf : Forall (fun entry => match entry with
                                    | None => True
                                    | Some c => float_fields c
                                    end) raw).
  { apply Forall_forall. intros entry Hin.
    destruct (mapM_In _ _ _ Eraw entry Hin) as (line & _ & El).
    pose proof (from_str_entry line entry El) as He.
    destruct entry as [c|]; [apply He | exact I]. }
  destruct (corner_boxes_or_None raw Hf) as [(bboxes & Eb) | (Hin & Eb)].
  - left. exists bboxes. split; [exact Eb|].
    rewrite (mapM_length _ _ _ Eb). apply (mapM_length _ _ _ Eraw).
  - right. split; [exact Hin|]. split; [|exact Eb].
    destruct (mapM_In _ _ _ Eraw None Hin) as (line & Hl & El).
    exists line. split; [exact Hl|]. exact (from_str_entry line None El).
Qed.
End AfterParse.

Lemma annotations_after_from_str_witness :
  (exists bboxes,
      MASATIImageAnnotation.annotations scenario_annotation = Return bboxes
      /\ List.length bboxes = List.length (parsed_lines (Str scenario_line)))
  \/ (In None (_raw_annotations scenario_annotation)
      /\ (exists bbox_repr,
             In bbox_repr (parsed_lines (Str scenario_line))
             /\ List.length (split bbox_repr) <> 5%nat)
      /\ MASATIImageAnnotation.annotations scenario_annotation
         = Raise AttributeError).
Proof.
  apply (annotations_after_from_str (F := float) (Str scenario_line)).
  vm_compute. reflexivity.
Defined.

(** ** What the conversions keep and what they make *)

Section Conversions.
Context {F : Type} `{FloatArith F}.

(** X13: every conversion keeps [class_id], and the kind of number it
    returns is fixed: [to_absolute] on a relative box returns int
    coordinates ([int(...)]), [to_relative] on a box that is not relative
    returns float coordinates (a true division), for both forms, whatever
    kinds the box held; [to_centered_bbox] returns float centers, and
    [to_bbox] four floats. *)
Theorem conversions_class_id_and_kinds
    (b : BoundingBox F) (c : CenteredBoundingBox F) (img_width img_height : Z) :
  (forall b', to_absolute b img_width img_height = Return b' ->
              class_id b' = class_id b
              /\ (is_relative b = true ->
                  exists x0 x1 y0 y1, int_coordinates b' x0 x1 y0 y1))
  /\ (forall b', to_relative b img_width img_height = Return b' ->
                 class_id b' = class_id b
                 /\ (is_relative b = false -> float_coordinates b'))
  /\ (forall c', to_absolute c img_width img_height = Return c' ->
                 class_id c' = class_id c
                 /\ (is_relative c = true ->
                     exists cx cy w h : Z,
                       c' = mkCenteredBoundingBox (class_id c)
                              (PyInt cx) (PyInt cy) (PyInt w) (PyInt h)))
  /\ (forall c', to_relative c img_width img_height = Return c' ->
                 class_id c' = class_id c
                 /\ (is_relative c = false -> float_fields c'))
  /\ (forall c', BoundingBox.to_centered_bbox b = Return c' ->
                 class_id c' = class_id b
                 /\ exists fx fy : F,
                      center_x c' = PyFloat fx /\ center_y c' = PyFloat fy)
  /\ (forall b', CenteredBoundingBox.to_bbox c = Return b' ->
                 class_id b' = class_id c /\ float_coordinates b').
Proof.
  cbn [to_absolute to_relative is_relative class_id
         BoundingBox_IBoundingBox CenteredBoundingBox_IBoundingBox].
  split; [|split; [|split; [|split; [|split]]]].
  - intros b'. unfold BoundingBox.to_absolute, BoundingBox.is_absolute.
    destruct (BoundingBox.is_relative b); cbn [negb]; intros E.
    + apply bind_inv in E as (x0 & _ & E). apply bind_inv in E as (x1 & _ & E).
      apply bind_inv in E as (y0 & _ & E). apply bind_inv in E as (y1 & _ & E).
      injection E as <-. split; [reflexivity|]. intros _.
      exists x0, x1, y0, y1. repeat split.
    + injection E as <-. split; [reflexivity | discriminate].
  - intros b'. unfold BoundingBox.to_relative.
    destruct (BoundingBox.is_relative b); cbn [negb]; intros E.
    + injection E as <-. split; [reflexivity | discriminate].
    + apply bind_inv in E as (x0 & E0 & E). apply bind_inv in E as (x1 & E1 & E).
      apply bind_inv in E as (y0 & E2 & E). apply bind_inv in E as (y1 & E3 & E).
      injection E as <-. split; [reflexivity|]. intros _.
      apply truediv_is_float in E0 as [f0 ->].
      apply truediv_is_float in E1 as [f1 ->].
      apply truediv_is_float in E2 as [f2 ->].
      apply truediv_is_float in E3 as [f3 ->].
      exists f0, f1, f2, f3. repeat split.
  - intros c'. unfold CenteredBoundingBox.to_absolute,
      CenteredBoundingBox.is_absolute.
    destruct (CenteredBoundingBox.is_relative c); cbn [negb]; intros E.
    + apply bind_inv in E as (x0 & _ & E). apply bind_inv in E as (x1 & _ & E).
      apply bind_inv in E as (y0 & _ & E). apply bind_inv in E as (y1 & _ & E).
      injection E as <-. split; [reflexivity|]. intros _.
      exists x0, x1, y0, y1. reflexivity.
    + injection E as <-. split; [reflexivity | discriminate].
  - intros c'. unfold CenteredBoundingBox.to_relative.
    destruct (CenteredBoundingBox.is_relative c); cbn [negb]; intros E.
    + injection E as <-. split; [reflexivity | discriminate].
    + apply bind_inv in E as (x0 & E0 & E). apply bind_inv in E as (x1 & E1 & E).
      apply bind_inv in E as (y0 & E2 & E). apply bind_inv in E as (y1 & E3 & E).
      injection E as <-. split; [reflexivity|]. intros _.
      apply truediv_is_float in E0 as [f0 ->].
      apply truediv_is_float in E1 as [f1 ->].
      apply truediv_is_float in E2 as [f2 ->].
      apply truediv_is_float in E3 as [f3 ->].
      exists f0, f1, f2, f3. reflexivity.
  - intros c'. unfold BoundingBox.to_centered_bbox. intros E.
    apply bind_inv in E as (cx & Ex & E). apply bind_inv in E as (cy & Ey & E).
    apply bind_inv in E as (w & _ & E). apply bind_inv in E as (h & _ & E).
    injection E as <-. split; [reflexivity|].
    apply bind_inv in Ex as (sx & _ & Ex). apply bind_inv in Ey as (sy & _ & Ey).
    apply truediv_is_float in Ex as [fx ->].
    apply truediv_is_float in Ey as [fy ->].
    exists fx, fy. split; reflexivity.
  - intros b' E. destruct (to_bbox_floats c b' E) as (f0 & f1 & f2 & f3 & ->).
    split; [reflexivity|]. exists f0, f1, f2, f3. repeat split.
Qed.
End Conversions.

(** ** Dividing by an extent of zero *)

Lemma binary64_truediv_zero (a : num float) :
  num_truediv a (PyInt 0) = Raise ZeroDivisionError.
Proof. destruct a as [z|f]; reflexivity. Qed.

Lemma raises_bind {A B : Type} (m : result A) (k : A -> result B) :
  (forall a, raises (k a)) -> raises (bind m k).
Proof.
  intros Hk. destruct m as [a|e]; cbn; [apply Hk | exists e; reflexivity].
Qed.

(** X14: [to_relative] divides by the extents of the image and checks
    neither: on the floats of the code, for a box that is not relative (of
    either form) an image width of 0 raises [ZeroDivisionError] and an
    image height of 0 raises too, whatever the coordinates are; a box that
    is already relative is not divided and is returned for these extents
    as for all others. *)
Theorem to_relative_zero_extent
    (b : BoundingBox float) (c : CenteredBoundingBox float)
    (img_width img_height : Z) :
  (is_relative b = false ->
   to_relative b 0 img_height = Raise ZeroDivisionError
   /\ raises (to_relative b img_width 0))
  /\ (is_relative c = false ->
      to_relative c 0 img_height = Raise ZeroDivisionError
      /\ raises (to_relative c img_width 0))
  /\ (is_relative b = true -> to_relative b 0 0 = Return b)
  /\ (is_relative c = true -> to_relative c 0 0 = Return c).
Proof.
  cbn [to_relative is_relative
         BoundingBox_IBoundingBox CenteredBoundingBox_IBoundingBox].
  unfold BoundingBox.to_relative, CenteredBoundingBox.to_relative.
  split; [|split; [|split]]; intros ->; cbn [negb].
  - rewrite !binary64_truediv_zero. split; [reflexivity|].
    apply raises_bind; intros x0. apply raises_bind; intros x1.
    exists ZeroDivisionError. reflexivity.
  - rewrite !binary64_truediv_zero. split; [reflexivity|].
    apply raises_bind; intros x0.
    exists ZeroDivisionError. reflexivity.
  - destruct b; reflexivity.
  - destruct c; reflexivity.
Qed.

(** ** Binary64: a product that stays in range

    [to_absolute] multiplies a coordinate between 0 and 1 by an extent of
    the image and truncates. On binary64 the extent is converted, the
    product rounded and the result truncated; the lemmas below follow the
    rounding through its shifts to show that nothing overflows and that
    the int stays between 0 and the extent. *)

(** Shifting right by [p] divides the mantissa by [2^p]. *)
Lemma iter_shr_1_m (p : positive) :
  forall mrs : shr_record,
    0 <= shr_m mrs ->
    shr_m (iter_pos shr_1 p mrs) = shr_m mrs / 2 ^ Zpos p.
Proof.
  assert (Hstep : forall mrs, 0 <= shr_m mrs ->
                    shr_m (shr_1 mrs) = shr_m mrs / 2 /\ 0 <= shr_m (shr_1 mrs)).
  { intros mrs Hm. rewrite shr_1_m by exact Hm. rewrite Z.div2_div.
    split; [reflexivity | apply Z.div_pos; lia]. }
  induction p as [p IH|p IH|]; intros mrs Hm; cbn [iter_pos].
  - destruct (Hstep mrs Hm) as [E1 H1].
    assert (H2 : 0 <= shr_m (iter_pos shr_1 p (shr_1 mrs)))
      by (rewrite IH by exact H1; apply Z.div_pos; lia).
    rewrite IH by exact H2. rewrite IH by exact H1. rewrite E1.
    rewrite !Z.div_div by lia. f_equal.
    replace (Zpos p~1) with (1 + (Zpos p + Zpos p)) by lia.
    rewrite !Z.pow_add_r by lia. lia.
  - assert (H2 : 0 <= shr_m (iter_pos shr_1 p mrs))
      by (rewrite IH by exact Hm; apply Z.div_pos; lia).
    rewrite IH by exact H2. rewrite IH by exact Hm.
    rewrite !Z.div_div by lia. f_equal.
    replace (Zpos p~0) with (Zpos p + Zpos p) by lia.
    rewrite !Z.pow_add_r by lia. lia.
  - apply (Hstep mrs Hm).
Qed.

Lemma Zdigits2_le (m t : Z) :
  0 <= m < 2 ^ t -> 0 <= t -> 0 <= Zdigits2 m <= t.
Proof.
  intros [Hm Ht] H0. destruct m as [|p|p]; cbn [Zdigits2]; try lia.
  pose proof (digits2_pos_bounds p) as [Hlo _].
  split; [lia|].
  destruct (Z.le_gt_cases (Zpos (digits2_pos p)) t) as [Hle|Hgt]; [exact Hle|].
  assert (2 ^ t <= 2 ^ (Zpos (digits2_pos p) - 1))
    by (apply Z.pow_le_mono_r; lia).
  lia.
Qed.

(** What [shr_fexp] returns: the mantissa as it is, or shifted down to
    the exponent [fexp] asks for. *)
Lemma shr_fexp_cases (m e : Z) (l : location) :
  0 <= m ->
  (shr_m (fst (shr_fexp prec emax m e l)) = m
   /\ snd (shr_fexp prec emax m e l) = e
   /\ fexp prec emax (Zdigits2 m + e) <= e)
  \/ (e < fexp prec emax (Zdigits2 m + e)
      /\ shr_m (fst (shr_fexp prec emax m e l))
         = m / 2 ^ (fexp prec emax (Zdigits2 m + e) - e)
      /\ snd (shr_fexp prec emax m e l) = fexp prec emax (Zdigits2 m + e)).
Proof.
  intros Hm. unfold shr_fexp, shr.
  destruct (fexp prec emax (Zdigits2 m + e) - e) as [|k|k] eqn:Ek; cbn [fst snd].
  - left. rewrite shr_record_of_loc_m. repeat split; lia.
  - right. rewrite iter_shr_1_m by (rewrite shr_record_of_loc_m; exact Hm).
    rewrite shr_record_of_loc_m. repeat split; lia.
  - left. rewrite shr_record_of_loc_m. repeat split; lia.
Qed.

Lemma round_nearest_even_bounds (m : Z) (l : location) :
  m <= round_nearest_even m l <= m + 1.
Proof.
  destruct l as [|[]]; cbn; try lia. destruct (Z.even m); lia.
Qed.

(** Rounding a mantissa below [2^t] at an exponent [e], when [2^(t+e)] is
    in the range of the format: the result is a zero or a finite float,
    and its exponent is bounded. *)
Lemma binary_round_aux_finite (s : bool) (m e t : Z) (l : location) :
  0 <= m < 2 ^ t -> 0 <= t ->
  e <= emax - prec -> t + e < emax ->
  binary_round_aux prec emax s m e l = S754_zero s
  \/ exists m' e',
       binary_round_aux prec emax s m e l = S754_finite s m' e'
       /\ e' <= Z.max e (Z.max (t + e + 1 - prec) emin).
Proof.
  intros Hm Ht He Hte. unfold binary_round_aux.
  pose proof (Zdigits2_le m t Hm Ht) as Hd.
  assert (H1 : 0 <= shr_m (fst (shr_fexp prec emax m e l))
               /\ Zdigits2 (round_nearest_even
                              (shr_m (fst (shr_fexp prec emax m e l)))
                              (loc_of_shr_record (fst (shr_fexp prec emax m e l))))
                  + snd (shr_fexp prec emax m e l)
                  <= Z.max (t + e + 1) (emin + 1)
               /\ snd (shr_fexp prec emax m e l)
                  <= Z.max e (Z.max (t + e - prec) emin)).
  { destruct (shr_fexp_cases m e l (proj1 Hm)) as [(Em & Ee & _) | (Hlt & Em & Ee)];
      rewrite Em, Ee.
    - split; [lia|]. split; [|lia].
      pose proof (round_nearest_even_bounds m
                    (loc_of_shr_record (fst (shr_fexp prec emax m e l)))) as Hr.
      assert (Hp : 2 ^ (t + 1) = 2 * 2 ^ t) by (rewrite Z.pow_add_r; lia).
      set (r := round_nearest_even m _) in *.
      assert (Hr2 : 0 <= r < 2 ^ (t + 1)) by lia.
      pose proof (Zdigits2_le r (t + 1) Hr2 ltac:(lia)). lia.
    - set (k := fexp prec emax (Zdigits2 m + e) - e) in *.
      assert (Hk : 0 < k) by lia.
      assert (Hq : 0 <= m / 2 ^ k) by (apply Z.div_pos; lia).
      split; [exact Hq|].
      pose proof (round_nearest_even_bounds (m / 2 ^ k)
                    (loc_of_shr_record (fst (shr_fexp prec emax m e l)))) as Hr.
      unfold fexp in *. unfold emin, FloatOps.prec, FloatOps.emax, SpecFloat.emin in *.
      destruct (Z.le_gt_cases k t) as [Hkt|Hkt].
      + assert (Hlt' : m / 2 ^ k < 2 ^ (t - k)).
        { apply Z.div_lt_upper_bound; [lia|].
          rewrite <- Z.pow_add_r by lia. replace (k + (t - k)) with t by lia. lia. }
        assert (Hp : 2 ^ (t - k + 1) = 2 * 2 ^ (t - k))
          by (rewrite Z.pow_add_r; lia).
        set (r := round_nearest_even (m / 2 ^ k) _) in *.
        assert (Hr2 : 0 <= r < 2 ^ (t - k + 1)) by lia.
        pose proof (Zdigits2_le r (t - k + 1) Hr2 ltac:(lia)). lia.
      + assert (Hz : m / 2 ^ k = 0).
        { apply Z.div_small. split; [lia|].
          apply Z.lt_le_trans with (2 ^ t); [lia|].
          apply Z.pow_le_mono_r; lia. }
        rewrite Hz in *.
        set (r := round_nearest_even 0 _) in *.
        assert (Hr2 : 0 <= r < 2 ^ 1) by (change (2 ^ 1) with 2; lia).
        pose proof (Zdigits2_le r 1 Hr2 ltac:(lia)). lia. }
  destruct (shr_fexp prec emax m e l) as [mrs' e']. cbn [fst snd] in H1.
  destruct H1 as (Hm' & Hd' & He').
  set (m2 := round_nearest_even (shr_m mrs') (loc_of_shr_record mrs')) in *.
  assert (Hm2 : 0 <= m2)
    by (pose proof (round_nearest_even_bounds (shr_m mrs') (loc_of_shr_record mrs'));
        lia).
  assert (H2 : 0 <= shr_m (fst (shr_fexp prec emax m2 e' loc_Exact))
               /\ snd (shr_fexp prec emax m2 e' loc_Exact)
                  <= Z.max e (Z.max (t + e + 1 - prec) emin)).
  { destruct (shr_fexp_cases m2 e' loc_Exact Hm2) as [(Em & Ee & _) | (Hlt & Em & Ee)];
      rewrite Em, Ee; clear Em Ee.
    - split; lia.
    - split; [apply Z.div_pos; lia|].
      unfold fexp in *.
      unfold emin, FloatOps.prec, FloatOps.emax, SpecFloat.emin in *. lia. }
  destruct (shr_fexp prec emax m2 e' loc_Exact) as [mrs'' e'']. cbn [fst snd] in H2.
  destruct H2 as (Hm'' & He'').
  destruct (shr_m mrs'') as [|q|q]; [left; reflexivity | | lia].
  right. exists q, e''.
  assert (Hle : (e'' <=? emax - prec) = true).
  { apply Z.leb_le.
    unfold emin, FloatOps.prec, FloatOps.emax, SpecFloat.emin in *. lia. }
  rewrite Hle. split; [reflexivity | exact He''].
Qed.

Lemma shl_align_cases (m : positive) (e e' : Z) :
  Zpos (fst (shl_align m e e')) = Zpos m * 2 ^ (e - Z.min e e')
  /\ snd (shl_align m e e') = Z.min e e'.
Proof.
  unfold shl_align. destruct (e' - e) as [|k|k] eqn:Ek; cbn [fst snd].
  - rewrite Z.min_l by lia. rewrite Z.sub_diag. split; lia.
  - rewrite Z.min_l by lia. rewrite Z.sub_diag. split; lia.
  - rewrite Z.min_r by lia. rewrite iter_xO.
    replace (e - e') with (Zpos k) by lia. split; reflexivity.
Qed.

(** [float(n)] for an int of the range of an array extent: a zero or a
    finite float that is not negative, of exponent at most 11. *)
Lemma binary64_float_of_extent (n : Z) :
  0 <= n < 2 ^ 63 ->
  exists w,
    Binary64.float_of_int n = Return w
    /\ (Prim2SF w = S754_zero false
        \/ exists m e, Prim2SF w = S754_finite false m e /\ e <= 11).
Proof.
  intros Hn. unfold Binary64.float_of_int.
  assert (Hv : binary_normalize prec emax n 0 false
               = Prim2SF (of_uint63 (Uint63.of_Z n))).
  { rewrite of_uint63_spec, Uint63.of_Z_spec.
    rewrite Z.mod_small; [reflexivity|]. exact Hn. }
  assert (Hc : binary_normalize prec emax n 0 false = S754_zero false
               \/ exists m e,
                    binary_normalize prec emax n 0 false = S754_finite false m e
                    /\ e <= 11).
  { destruct n as [|p|p]; [left; reflexivity | | lia].
    cbn [binary_normalize]. unfold binary_round.
    pose proof (shl_align_cases p 0 (fexp prec emax (Zpos (digits2_pos p) + 0)))
      as [Hm He].
    destruct (shl_align p 0 _) as [mz ez]. cbn [fst snd] in Hm, He.
    pose proof (digits2_pos_bounds p) as [Hlo Hhi].
    set (d := Zpos (digits2_pos p)) in *.
    assert (Hd : d <= 63).
    { destruct (Z.le_gt_cases d 63) as [H|H]; [exact H|].
      assert (2 ^ 63 <= 2 ^ (d - 1)) by (apply Z.pow_le_mono_r; lia). lia. }
    rewrite <- He in Hm.
    unfold fexp in *.
    unfold emin, FloatOps.prec, FloatOps.emax, SpecFloat.emin in *.
    assert (Hd0 : 0 < d) by (subst d; lia).
    assert (Hez : ez = Z.min 0 (d - 53)) by lia.
    clear He.
    assert (Hmz : Zpos mz < 2 ^ Z.max d 53).
    { rewrite Hm. destruct (Z.le_gt_cases d 53) as [H|H].
      - rewrite (Z.max_r d 53) by lia.
        replace (0 - ez) with (53 - d) by lia.
        replace 53 with (d + (53 - d)) at 2 by lia.
        rewrite Z.pow_add_r by lia.
        assert (0 < 2 ^ (53 - d)) by (apply Z.pow_pos_nonneg; lia). nia.
      - rewrite (Z.max_l d 53) by lia.
        replace (0 - ez) with 0 by lia. lia. }
    destruct (binary_round_aux_finite false (Zpos mz) ez (Z.max d 53) loc_Exact)
      as [E | (m' & e' & E & He')];
      unfold emin, FloatOps.prec, FloatOps.emax, SpecFloat.emin in *; try lia.
    - left. exact E.
    - right. exists m', e'. split; [exact E | lia]. }
  exists (of_uint63 (Uint63.of_Z n)).
  destruct Hc as [E | (m & e & E & He)].
  - rewrite E. rewrite <- Hv, E. split; [|left; reflexivity].
    rewrite <- (SF2Prim_Prim2SF (of_uint63 (Uint63.of_Z n))), <- Hv, E.
    reflexivity.
  - rewrite E. rewrite <- Hv, E. split; [|right; exists m, e; split; trivial].
    rewrite <- (SF2Prim_Prim2SF (of_uint63 (Uint63.of_Z n))), <- Hv, E.
    reflexivity.
Qed.

(** A float between 0 and 1 is a zero or a finite float that is not
    negative, of exponent at most 0. *)
Lemma binary64_relative_float (f : float) :
  check_is_relative (PyFloat f) = true ->
  (exists s, Prim2SF f = S754_zero s)
  \/ exists m e,
       Prim2SF f = S754_finite false m e /\ e <= 0 /\ Zpos m <= 2 ^ (- e).
Proof.
  unfold check_is_relative, num_between. cbn [int_le_num num_le_int].
  cbn [int_le_float float_le_int binary64].
  unfold Binary64.int_le_float, Binary64.float_le_int.
  destruct (Prim2SF f) as [s|s| |s m e]; try discriminate.
  - intros _. left. exists s. reflexivity.
  - destruct s; discriminate.
  - intros Hr. right. exists m, e.
    apply andb_prop in Hr as [H0 H1].
    destruct (Z.leb_spec 0 e) as [He|He].
    + apply Z.leb_le in H0, H1.
      assert (P : 0 < 2 ^ e) by (apply Z.pow_pos_nonneg; lia).
      destruct s; cbn [negate_if] in *; [nia|].
      split; [reflexivity|].
      destruct (Z.eq_dec e 0) as [->|Hne]; [cbn in *; lia|].
      assert (2 ^ 1 <= 2 ^ e) by (apply Z.pow_le_mono_r; lia).
      change (2 ^ 1) with 2 in *. nia.
    + apply Z.leb_le in H0, H1. destruct s; cbn [negate_if] in *; [lia|].
      split; [reflexivity|]. split; lia.
Qed.

(** [int(f * n)] for a float [f] between 0 and 1 and an extent [n]:
    nothing raises, and the int is not negative. *)
Lemma binary64_scale_relative (f : float) (n : Z) :
  check_is_relative (PyFloat f) = true -> 0 <= n < 2 ^ 63 ->
  exists z, (p <- num_mul (PyFloat f) (PyInt n) ;; num_int p) = Return z
            /\ 0 <= z.
Proof.
  intros Hf Hn.
  destruct (binary64_float_of_extent n Hn) as (w & Ew & Hw).
  unfold num_mul, arith. cbn [to_float bind float_of_int binary64].
  rewrite Ew. cbn [bind num_int fmul int_of_float binary64].
  unfold Binary64.int_of_float. rewrite mul_spec. unfold SF64mul.
  pose proof (Prim2SF_valid f) as Vf. pose proof (Prim2SF_valid w) as Vw.
  destruct (binary64_relative_float f Hf) as [(s & Ef) | (mf & ef & Ef & Hef & _)];
    rewrite Ef in *.
  - destruct Hw as [Ez | (mw & ew & Ez & _)]; rewrite Ez; cbn [SFmul];
      exists 0; split; (reflexivity || lia).
  - destruct Hw as [Ez | (mw & ew & Ez & Hew)]; rewrite Ez in *; cbn [SFmul].
    + exists 0. split; [reflexivity | lia].
    + apply valid_finite in Vf as (_ & Hmf & _).
      apply valid_finite in Vw as (_ & Hmw & _).
      cbn [xorb].
      destruct (binary_round_aux_finite false (Zpos (mf * mw)) (ef + ew) 106 loc_Exact)
        as [E | (m' & e' & E & _)];
        unfold emin, FloatOps.prec, FloatOps.emax, SpecFloat.emin in *; try lia.
      * rewrite Pos2Z.inj_mul. change (2 ^ 106) with (2 ^ 53 * 2 ^ 53). nia.
      * rewrite E. exists 0. split; [reflexivity | lia].
      * rewrite E. eexists. split; [reflexivity|]. cbn [negate_if].
        destruct (Z.leb_spec 0 e').
        -- apply Z.mul_nonneg_nonneg; [lia | apply Z.pow_nonneg; lia].
        -- apply Z.div_pos; [lia | apply Z.pow_pos_nonneg; lia].
Qed.

Lemma shr_1_even (q : Z) :
  0 <= q ->
  shr_1 (Build_shr_record (2 * q) false false) = Build_shr_record q false false.
Proof. intros _. destruct q as [|p|p]; reflexivity. Qed.

(** Shifting out bits that are all zero loses nothing. *)
Lemma iter_shr_1_exact (p : positive) :
  forall q : Z,
    0 <= q ->
    iter_pos shr_1 p (Build_shr_record (q * 2 ^ Zpos p) false false)
    = Build_shr_record q false false.
Proof.
  induction p as [p IH|p IH|]; intros q Hq; cbn [iter_pos].
  - replace (q * 2 ^ Zpos p~1) with (2 * ((q * 2 ^ Zpos p) * 2 ^ Zpos p)).
    + assert (P : 0 < 2 ^ Zpos p) by (apply Z.pow_pos_nonneg; lia).
      rewrite shr_1_even by nia. rewrite IH by nia. apply IH, Hq.
    + replace (Zpos p~1) with (1 + (Zpos p + Zpos p)) by lia.
      rewrite !Z.pow_add_r by lia. lia.
  - replace (q * 2 ^ Zpos p~0) with ((q * 2 ^ Zpos p) * 2 ^ Zpos p).
    + assert (P : 0 < 2 ^ Zpos p) by (apply Z.pow_pos_nonneg; lia).
      rewrite IH by nia. apply IH, Hq.
    + replace (Zpos p~0) with (Zpos p + Zpos p) by lia.
      rewrite !Z.pow_add_r by lia. lia.
  - replace (q * 2 ^ 1) with (2 * q) by lia. apply shr_1_even, Hq.
Qed.

(** [shr_fexp] on an exact mantissa: no shift, or a shift to the exponent
    [fexp] asks for, exact when the bits shifted out are zero. *)
Lemma shr_fexp_exact_cases (m e : Z) :
  0 <= m ->
  (fst (shr_fexp prec emax m e loc_Exact) = Build_shr_record m false false
   /\ snd (shr_fexp prec emax m e loc_Exact) = e)
  \/ (e < snd (shr_fexp prec emax m e loc_Exact)
      /\ snd (shr_fexp prec emax m e loc_Exact)
         = fexp prec emax (Zdigits2 m + e)
      /\ shr_m (fst (shr_fexp prec emax m e loc_Exact))
         = m / 2 ^ (snd (shr_fexp prec emax m e loc_Exact) - e)
      /\ forall q,
           m = q * 2 ^ (snd (shr_fexp prec emax m e loc_Exact) - e) ->
           loc_of_shr_record (fst (shr_fexp prec emax m e loc_Exact))
           = loc_Exact).
Proof.
  intros Hm. unfold shr_fexp, shr.
  destruct (fexp prec emax (Zdigits2 m + e) - e) as [|k|k] eqn:Ek;
    cbn [fst snd shr_record_of_loc].
  - left. split; reflexivity.
  - right. split; [lia|]. split; [lia|].
    replace (e + Zpos k - e) with (Zpos k) by lia. split.
    + rewrite iter_shr_1_m by exact Hm. reflexivity.
    + intros q Eq. assert (P : 0 < 2 ^ Zpos k) by (apply Z.pow_pos_nonneg; lia).
      rewrite Eq, iter_shr_1_exact by nia. reflexivity.
  - left. split; reflexivity.
Qed.

(** The product of a float [mf * 2^ef] that is at most 1 and a float
    [mw * 2^ew], rounded: the result is at most [mw * 2^ew]. Both sides
    are counted in units of [2^(ef + ew)]. *)
Lemma binary_round_aux_le (mf mw m3 : positive) (ef ew e3 : Z) :
  ef <= 0 -> Zpos mf <= 2 ^ (- ef) -> Zpos mw < 2 ^ 53 -> emin <= ew ->
  binary_round_aux prec emax false (Zpos (mf * mw)) (ef + ew) loc_Exact
  = S754_finite false m3 e3 ->
  ef + ew <= e3 /\ Zpos m3 * 2 ^ (e3 - (ef + ew)) <= Zpos mw * 2 ^ (- ef).
Proof.
  intros Hef Hmf Hmw Hew. unfold binary_round_aux.
  set (M := Zpos (mf * mw)). set (E := ef + ew).
  assert (HM0 : 0 < M) by (subst M; lia).
  assert (Pf : 0 < 2 ^ (- ef)) by (apply Z.pow_pos_nonneg; lia).
  assert (HMle : M <= Zpos mw * 2 ^ (- ef))
    by (subst M; rewrite Pos2Z.inj_mul; nia).
  (* the first shift *)
  assert (H1 : E <= snd (shr_fexp prec emax M E loc_Exact)
               /\ 0 <= round_nearest_even
                         (shr_m (fst (shr_fexp prec emax M E loc_Exact)))
                         (loc_of_shr_record (fst (shr_fexp prec emax M E loc_Exact)))
               /\ round_nearest_even
                    (shr_m (fst (shr_fexp prec emax M E loc_Exact)))
                    (loc_of_shr_record (fst (shr_fexp prec emax M E loc_Exact)))
                  * 2 ^ (snd (shr_fexp prec emax M E loc_Exact) - E)
                  <= Zpos mw * 2 ^ (- ef)).
  { destruct (shr_fexp_exact_cases M E ltac:(lia))
      as [(Ef & Es) | (Hlt & Es & Em & Hex)].
    - rewrite Ef, Es. cbn [shr_m loc_of_shr_record round_nearest_even].
      rewrite Z.sub_diag. change (2 ^ 0) with 1. lia.
    - set (e1 := snd (shr_fexp prec emax M E loc_Exact)) in *.
      set (k := e1 - E) in *.
      assert (Hk : 0 < k) by lia.
      assert (Pk : 0 < 2 ^ k) by (apply Z.pow_pos_nonneg; lia).
      (* the exponent asked for is at most that of [w] *)
      assert (He1 : e1 <= ew).
      { rewrite Es. unfold fexp.
        assert (Hd : Zdigits2 M <= 53 - ef).
        { apply (Zdigits2_le M (53 - ef)); [|lia].
          split; [lia|]. replace (53 - ef) with (- ef + 53) by lia.
          rewrite Z.pow_add_r by lia. subst M. rewrite Pos2Z.inj_mul. nia. }
        unfold emin, FloatOps.prec, FloatOps.emax, SpecFloat.emin in *.
        subst E. lia. }
      assert (Hsplit : 2 ^ (- ef) = 2 ^ (- ef - k) * 2 ^ k).
      { rewrite <- Z.pow_add_r by lia. f_equal. lia. }
      set (N1 := Zpos mw * 2 ^ (- ef - k)).
      assert (HN : Zpos mw * 2 ^ (- ef) = N1 * 2 ^ k) by (subst N1; lia).
      assert (Hq : M / 2 ^ k <= N1).
      { apply Z.div_le_upper_bound; [lia|]. lia. }
      pose proof (round_nearest_even_bounds (M / 2 ^ k)
                    (loc_of_shr_record (fst (shr_fexp prec emax M E loc_Exact))))
        as Hr.
      rewrite Em. fold k.
      split; [lia|].
      split; [pose proof (Z.div_pos M (2 ^ k) ltac:(lia) Pk); lia|].
      rewrite HN.
      destruct (Z.eq_dec (M / 2 ^ k) N1) as [Eq|Ne].
      + (* the quotient is the bound: the division is exact *)
        pose proof (Z.mul_div_le M (2 ^ k) Pk) as Hfl.
        assert (EM : M = N1 * 2 ^ k) by nia.
        rewrite (Hex N1 EM). cbn [round_nearest_even]. rewrite Eq. lia.
      + assert (round_nearest_even (M / 2 ^ k)
                  (loc_of_shr_record (fst (shr_fexp prec emax M E loc_Exact)))
                <= N1) by lia.
        nia. }
  destruct (shr_fexp prec emax M E loc_Exact) as [mrs' e']. cbn [fst snd] in H1.
  destruct H1 as (He' & Hm2 & Hle2).
  set (m2 := round_nearest_even (shr_m mrs') (loc_of_shr_record mrs')) in *.
  (* the second shift *)
  assert (H2 : E <= snd (shr_fexp prec emax m2 e' loc_Exact)
               /\ shr_m (fst (shr_fexp prec emax m2 e' loc_Exact))
                  * 2 ^ (snd (shr_fexp prec emax m2 e' loc_Exact) - E)
                  <= Zpos mw * 2 ^ (- ef)).
  { destruct (shr_fexp_exact_cases m2 e' Hm2)
      as [(Ef & Es) | (Hlt & _ & Em & _)].
    - rewrite Ef, Es. cbn [shr_m]. split; assumption.
    - set (e2 := snd (shr_fexp prec emax m2 e' loc_Exact)) in *.
      rewrite Em. split; [lia|].
      assert (Pk : 0 < 2 ^ (e2 - e')) by (apply Z.pow_pos_nonneg; lia).
      pose proof (Z.mul_div_le m2 (2 ^ (e2 - e')) Pk) as Hfl.
      replace (e2 - E) with ((e2 - e') + (e' - E)) by lia.
      rewrite Z.pow_add_r by lia.
      assert (0 <= 2 ^ (e' - E)) by (apply Z.pow_nonneg; lia).
      nia. }
  destruct (shr_fexp prec emax m2 e' loc_Exact) as [mrs'' e'']. cbn [fst snd] in H2.
  destruct H2 as (He'' & Hle3).
  destruct (shr_m mrs'') as [|q|q]; try discriminate.
  destruct (e'' <=? emax - prec); [|discriminate].
  intros [= <- <-]. split; assumption.
Qed.

Lemma Zdigits2_eq (m t : Z) :
  2 ^ (t - 1) <= m < 2 ^ t -> 0 < t -> Zdigits2 m = t.
Proof.
  intros [Hlo Hhi] Ht.
  assert (P : 0 < 2 ^ (t - 1)) by (apply Z.pow_pos_nonneg; lia).
  destruct m as [|p|p]; try lia. cbn [Zdigits2].
  pose proof (digits2_pos_bounds p) as [Dlo Dhi].
  set (d := Zpos (digits2_pos p)) in *.
  assert (Hd0 : 0 < d) by (subst d; lia).
  destruct (Z.lt_trichotomy d t) as [H|[H|H]]; [|exact H|].
  - assert (2 ^ d <= 2 ^ (t - 1)) by (apply Z.pow_le_mono_r; lia). lia.
  - assert (2 ^ t <= 2 ^ (d - 1)) by (apply Z.pow_le_mono_r; lia). lia.
Qed.

(** [float(n)] for a positive int below [2^53] is [n] itself: a finite
    float [mw * 2^ew] with [mw = n * 2^(-ew)]. *)
Lemma binary64_float_of_pixels (n : Z) :
  0 < n < 2 ^ 53 ->
  exists w mw ew,
    Binary64.float_of_int n = Return w
    /\ Prim2SF w = S754_finite false mw ew
    /\ emin <= ew <= 0 /\ Zpos mw < 2 ^ 53 /\ Zpos mw = n * 2 ^ (- ew).
Proof.
  intros Hn. unfold Binary64.float_of_int.
  assert (Hv : binary_normalize prec emax n 0 false
               = Prim2SF (of_uint63 (Uint63.of_Z n))).
  { rewrite of_uint63_spec, Uint63.of_Z_spec.
    rewrite Z.mod_small; [reflexivity|].
    split; [lia|]. apply Z.lt_trans with (2 ^ 53); [lia | reflexivity]. }
  assert (Hc : exists mw ew,
             binary_normalize prec emax n 0 false = S754_finite false mw ew
             /\ emin <= ew <= 0 /\ Zpos mw < 2 ^ 53 /\ Zpos mw = n * 2 ^ (- ew)).
  { destruct n as [|p|p]; try lia.
    cbn [binary_normalize]. unfold binary_round.
    pose proof (shl_align_cases p 0 (fexp prec emax (Zpos (digits2_pos p) + 0)))
      as [Hm He].
    destruct (shl_align p 0 _) as [mz ez]. cbn [fst snd] in Hm, He.
    rewrite <- He in Hm.
    pose proof (digits2_pos_bounds p) as [Hlo Hhi].
    set (d := Zpos (digits2_pos p)) in *.
    assert (Hd0 : 0 < d) by (subst d; lia).
    assert (Hd : d <= 53).
    { destruct (Z.le_gt_cases d 53) as [H|H]; [exact H|].
      assert (2 ^ 53 <= 2 ^ (d - 1)) by (apply Z.pow_le_mono_r; lia). lia. }
    assert (Hez : ez = d - 53).
    { rewrite He. unfold fexp.
      unfold emin, FloatOps.prec, FloatOps.emax, SpecFloat.emin. lia. }
    clear He.
    assert (Hsplit : 2 ^ 53 = 2 ^ d * 2 ^ (53 - d)).
    { rewrite <- Z.pow_add_r by lia. f_equal. lia. }
    assert (Hsplit' : 2 ^ 52 = 2 ^ (d - 1) * 2 ^ (53 - d)).
    { rewrite <- Z.pow_add_r by lia. f_equal. lia. }
    assert (P : 0 < 2 ^ (53 - d)) by (apply Z.pow_pos_nonneg; lia).
    replace (0 - ez) with (53 - d) in Hm by lia.
    assert (Hmz : 2 ^ (53 - 1) <= Zpos mz < 2 ^ 53).
    { change (53 - 1) with 52. rewrite Hm, Hsplit, Hsplit'. nia. }
    pose proof (Zdigits2_eq (Zpos mz) 53 Hmz ltac:(lia)) as Hdig.
    assert (Hfexp : fexp prec emax (Zdigits2 (Zpos mz) + ez) = ez).
    { rewrite Hdig. unfold fexp.
      unfold emin, FloatOps.prec, FloatOps.emax, SpecFloat.emin. lia. }
    assert (Hshr : shr_fexp prec emax (Zpos mz) ez loc_Exact
                   = (Build_shr_record (Zpos mz) false false, ez)).
    { destruct (shr_fexp_exact_cases (Zpos mz) ez ltac:(lia))
        as [(Ef & Es) | (Hlt & Es & _)].
      - destruct (shr_fexp prec emax (Zpos mz) ez loc_Exact); cbn in *; congruence.
      - rewrite Es, Hfexp in Hlt. lia. }
    unfold binary_round_aux. rewrite Hshr.
    cbn [shr_m loc_of_shr_record round_nearest_even]. rewrite Hshr. cbn [shr_m].
    assert (Hle : (ez <=? emax - prec) = true).
    { apply Z.leb_le. unfold FloatOps.prec, FloatOps.emax. lia. }
    rewrite Hle. exists mz, ez. split; [reflexivity|].
    unfold emin, FloatOps.prec, FloatOps.emax, SpecFloat.emin.
    split; [lia|]. split; [lia|]. rewrite Hm. f_equal. f_equal. lia. }
  destruct Hc as (mw & ew & E & Hew & Hmw & Hval).
  exists (of_uint63 (Uint63.of_Z n)), mw, ew.
  rewrite E. rewrite <- Hv, E. split; [|repeat split; assumption || lia].
  rewrite <- (SF2Prim_Prim2SF (of_uint63 (Uint63.of_Z n))), <- Hv, E.
  reflexivity.
Qed.

(** [int(f * n)] for a float [f] between 0 and 1 and an extent [n] below
    [2^53]: an int between 0 and [n]. *)
Lemma binary64_scale_relative_le (f : float) (n : Z) :
  check_is_relative (PyFloat f) = true -> 0 <= n < 2 ^ 53 ->
  exists z, (p <- num_mul (PyFloat f) (PyInt n) ;; num_int p) = Return z
            /\ 0 <= z <= n.
Proof.
  intros Hf Hn.
  destruct (Z.eq_dec n 0) as [->|Hn0].
  { unfold num_mul, arith. cbn [to_float bind float_of_int binary64].
    change (Binary64.float_of_int 0) with (Return PrimFloat.zero).
    cbn [bind num_int fmul int_of_float binary64].
    unfold Binary64.int_of_float. rewrite mul_spec. unfold SF64mul.
    change (Prim2SF PrimFloat.zero) with (S754_zero false).
    destruct (binary64_relative_float f Hf) as [(s & ->) | (mf & ef & -> & _)];
      cbn [SFmul]; exists 0; split; (reflexivity || lia). }
  destruct (binary64_float_of_pixels n ltac:(lia))
    as (w & mw & ew & Ew & Ez & Hew & Hmw & Hval).
  unfold num_mul, arith. cbn [to_float bind float_of_int binary64].
  rewrite Ew. cbn [bind num_int fmul int_of_float binary64].
  unfold Binary64.int_of_float. rewrite mul_spec. unfold SF64mul.
  rewrite Ez.
  destruct (binary64_relative_float f Hf)
    as [(s & ->) | (mf & ef & Ef & Hef & Hmf)]; cbn [SFmul].
  - exists 0. split; [reflexivity | lia].
  - pose proof (Prim2SF_valid f) as Vf. rewrite Ef in *.
    apply valid_finite in Vf as (_ & Hmf53 & _). cbn [SFmul xorb].
    destruct (binary_round_aux_finite false (Zpos (mf * mw)) (ef + ew) 106 loc_Exact)
      as [E | (m3 & e3 & E & _)];
      try (unfold emin, FloatOps.prec, FloatOps.emax, SpecFloat.emin in *; lia).
    + rewrite Pos2Z.inj_mul. change (2 ^ 106) with (2 ^ 53 * 2 ^ 53). nia.
    + rewrite E. exists 0. split; [reflexivity | lia].
    + destruct (binary_round_aux_le mf mw m3 ef ew e3 Hef Hmf Hmw (proj1 Hew) E)
        as [He3 Hle].
      rewrite E. eexists. split; [reflexivity|]. cbn [negate_if].
      assert (Pe : 0 < 2 ^ (- ew)) by (apply Z.pow_pos_nonneg; lia).
      assert (Pf : 0 < 2 ^ (- ef)) by (apply Z.pow_pos_nonneg; lia).
      rewrite Hval in Hle.
      destruct (Z.leb_spec 0 e3) as [H0|H0].
      * assert (P3 : 0 < 2 ^ e3) by (apply Z.pow_pos_nonneg; lia).
        replace (e3 - (ef + ew)) with (e3 + (- ew + - ef)) in Hle by lia.
        rewrite !Z.pow_add_r in Hle by lia.
        split; [nia|]. nia.
      * assert (P3 : 0 < 2 ^ (- e3)) by (apply Z.pow_pos_nonneg; lia).
        assert (Pd : 0 < 2 ^ (e3 - (ef + ew))) by (apply Z.pow_pos_nonneg; lia).
        assert (Hs : 2 ^ (- ew) * 2 ^ (- ef)
                     = 2 ^ (- e3) * 2 ^ (e3 - (ef + ew))).
        { rewrite <- !Z.pow_add_r by lia. f_equal. lia. }
        split; [apply Z.div_pos; lia|].
        apply Z.div_le_upper_bound; [lia|].
        assert (Zpos m3 * 2 ^ (e3 - (ef + ew))
                <= (2 ^ (- e3) * n) * 2 ^ (e3 - (ef + ew))) by nia.
        nia.
Qed.

(** [int(a * n)] for a number [a] between 0 and 1, an int or a float, and
    an extent [n]: an int that is not negative, and at most [n] when [n]
    is below [2^53]. *)
Lemma binary64_scale (a : num float) (n : Z) :
  check_is_relative a = true -> 0 <= n < 2 ^ 63 ->
  exists z, (p <- num_mul a (PyInt n) ;; num_int p) = Return z
            /\ 0 <= z /\ (n < 2 ^ 53 -> z <= n).
Proof.
  destruct a as [x|f]; intros Ha Hn.
  - apply check_is_relative_int in Ha.
    exists (x * n). split; [reflexivity|]. split; nia.
  - destruct (Z.ltb_spec n (2 ^ 53)) as [Hlt|Hge].
    + destruct (binary64_scale_relative_le f n Ha ltac:(lia)) as (z & E & Hz).
      exists z. split; [exact E|]. split; lia.
    + destruct (binary64_scale_relative f n Ha Hn) as (z & E & Hz).
      exists z. split; [exact E|]. split; lia.
Qed.

(** [to_absolute] on a relative corner box, on the floats of the code. *)
Lemma binary64_to_absolute_corner (b : BoundingBox float)
    (img_width img_height : Z) :
  0 <= img_width < 2 ^ 63 -> 0 <= img_height < 2 ^ 63 ->
  is_relative b = true ->
  exists x0 x1 y0 y1,
    to_absolute b img_width img_height
    = Return (mkBoundingBox (class_id b)
                (PyInt x0) (PyInt x1) (PyInt y0) (PyInt y1))
    /\ (0 <= x0 /\ 0 <= x1 /\ 0 <= y0 /\ 0 <= y1)
    /\ (img_width < 2 ^ 53 -> x0 <= img_width /\ x1 <= img_width)
    /\ (img_height < 2 ^ 53 -> y0 <= img_height /\ y1 <= img_height).
Proof.
  intros HW HH.
  cbn [to_absolute is_relative class_id BoundingBox_IBoundingBox]. intros Hr.
  unfold BoundingBox.to_absolute, BoundingBox.is_absolute. rewrite Hr.
  cbn [negb]. unfold BoundingBox.is_relative in Hr.
  rewrite !andb_true_iff in Hr. destruct Hr as [[[R0 R1] R2] R3].
  destruct (binary64_scale _ _ R0 HW) as (x0 & -> & P0 & B0).
  destruct (binary64_scale _ _ R1 HW) as (x1 & -> & P1 & B1).
  destruct (binary64_scale _ _ R2 HH) as (y0 & -> & P2 & B2).
  destruct (binary64_scale _ _ R3 HH) as (y1 & -> & P3 & B3).
  exists x0, x1, y0, y1. split; [reflexivity|]. repeat split; auto.
Qed.

Lemma binary64_to_absolute_center (c : CenteredBoundingBox float)
    (img_width img_height : Z) :
  0 <= img_width < 2 ^ 63 -> 0 <= img_height < 2 ^ 63 ->
  is_relative c = true ->
  exists cx cy w h,
    to_absolute c img_width img_height
    = Return (mkCenteredBoundingBox (class_id c)
                (PyInt cx) (PyInt cy) (PyInt w) (PyInt h))
    /\ (0 <= cx /\ 0 <= cy /\ 0 <= w /\ 0 <= h)
    /\ (img_width < 2 ^ 53 -> cx <= img_width /\ w <= img_width)
    /\ (img_height < 2 ^ 53 -> cy <= img_height /\ h <= img_height).
Proof.
  intros HW HH.
  cbn [to_absolute is_relative class_id CenteredBoundingBox_IBoundingBox].
  intros Hr.
  unfold CenteredBoundingBox.to_absolute, CenteredBoundingBox.is_absolute.
  rewrite Hr. cbn [negb]. unfold CenteredBoundingBox.is_relative in Hr.
  rewrite !andb_true_iff in Hr. destruct Hr as [[[R0 R1] R2] R3].
  destruct (binary64_scale _ _ R0 HW) as (cx & -> & P0 & B0).
  destruct (binary64_scale _ _ R1 HH) as (cy & -> & P1 & B1).
  destruct (binary64_scale _ _ R2 HW) as (w & -> & P2 & B2).
  destruct (binary64_scale _ _ R3 HH) as (h & -> & P3 & B3).
  exists cx, cy, w, h. split; [reflexivity|]. repeat split; auto.
Qed.

(** X15: on the floats of the code, [to_absolute] on a relative box, with
    the extents of an image (ints from 0 to below [2^63], the range of an
    array extent), raises nothing: it returns a box with the same
    [class_id] whose coordinates are ints, none negative; and for an
    extent below [2^53] (where every int is a float) no coordinate along
    it exceeds the extent, so that a relative box stays inside the image.
    The same holds for the center form. *)
Theorem to_absolute_of_relative
    (b : BoundingBox float) (c : CenteredBoundingBox float)
    (img_width img_height : Z) :
  0 <= img_width < 2 ^ 63 -> 0 <= img_height < 2 ^ 63 ->
  (is_relative b = true ->
   exists x0 x1 y0 y1,
     to_absolute b img_width img_height
     = Return (mkBoundingBox (class_id b)
                 (PyInt x0) (PyInt x1) (PyInt y0) (PyInt y1))
     /\ (0 <= x0 /\ 0 <= x1 /\ 0 <= y0 /\ 0 <= y1)
     /\ (img_width < 2 ^ 53 -> x0 <= img_width /\ x1 <= img_width)
     /\ (img_height < 2 ^ 53 -> y0 <= img_height /\ y1 <= img_height))
  /\ (is_relative c = true ->
      exists cx cy w h,
        to_absolute c img_width img_height
        = Return (mkCenteredBoundingBox (class_id c)
                    (PyInt cx) (PyInt cy) (PyInt w) (PyInt h))
        /\ (0 <= cx /\ 0 <= cy /\ 0 <= w /\ 0 <= h)
        /\ (img_width < 2 ^ 53 -> cx <= img_width /\ w <= img_width)
        /\ (img_height < 2 ^ 53 -> cy <= img_height /\ h <= img_height)).
Proof.
  intros HW HH. split.
  - apply binary64_to_absolute_corner; assumption.
  - apply binary64_to_absolute_center; assumption.
Qed.

Lemma to_absolute_of_relative_witness :
  exists x0 x1 y0 y1,
    to_absolute (corner_of scenario_box) 100 50
    = Return (mkBoundingBox (class_id (corner_of scenario_box))
                (PyInt x0) (PyInt x1) (PyInt y0) (PyInt y1))
    /\ (0 <= x0 /\ 0 <= x1 /\ 0 <= y0 /\ 0 <= y1)
    /\ (100 < 2 ^ 53 -> x0 <= 100 /\ x1 <= 100)
    /\ (50 < 2 ^ 53 -> y0 <= 50 /\ y1 <= 50).
Proof.
  apply (to_absolute_of_relative (corner_of scenario_box) scenario_box 100 50);
    try (split; [discriminate | reflexivity]).
  vm_compute. reflexivity.
Defined.

(** ** Binary64: a quotient between 0 and 1 *)

Lemma Zdigits2_pow (m : Z) :
  0 < m -> 2 ^ (Zdigits2 m - 1) <= m < 2 ^ Zdigits2 m /\ 0 < Zdigits2 m.
Proof.
  intros Hm. destruct m as [|p|p]; try lia. cbn [Zdigits2].
  split; [apply digits2_pos_bounds | lia].
Qed.

Lemma Zdigits2_mono (m m' : Z) :
  0 < m <= m' -> Zdigits2 m <= Zdigits2 m'.
Proof.
  intros [Hm Hle].
  destruct (Zdigits2_pow m Hm) as [[Hlo _] Hd].
  destruct (Zdigits2_pow m' ltac:(lia)) as [[_ Hhi] Hd'].
  destruct (Z.le_gt_cases (Zdigits2 m) (Zdigits2 m')) as [H|H]; [exact H|].
  assert (2 ^ Zdigits2 m' <= 2 ^ (Zdigits2 m - 1))
    by (apply Z.pow_le_mono_r; lia).
  lia.
Qed.

(** The digits of a mantissa shifted right by [k]. *)
Lemma Zdigits2_shr (m k : Z) :
  0 < m -> 0 <= k ->
  (k < Zdigits2 m /\ 0 < m / 2 ^ k /\ Zdigits2 (m / 2 ^ k) = Zdigits2 m - k)
  \/ (Zdigits2 m <= k /\ m / 2 ^ k = 0).
Proof.
  intros Hm Hk. destruct (Zdigits2_pow m Hm) as [[Hlo Hhi] Hd].
  set (d := Zdigits2 m) in *.
  assert (Pk : 0 < 2 ^ k) by (apply Z.pow_pos_nonneg; lia).
  destruct (Z.lt_ge_cases k d) as [Hlt|Hge].
  - left. split; [exact Hlt|].
    assert (Elo : 2 ^ (d - 1) = 2 ^ (d - k - 1) * 2 ^ k).
    { rewrite <- Z.pow_add_r by lia. f_equal. lia. }
    assert (Ehi : 2 ^ d = 2 ^ (d - k) * 2 ^ k).
    { rewrite <- Z.pow_add_r by lia. f_equal. lia. }
    assert (P1 : 0 < 2 ^ (d - k - 1)) by (apply Z.pow_pos_nonneg; lia).
    assert (Hq : 2 ^ (d - k - 1) <= m / 2 ^ k < 2 ^ (d - k)).
    { split.
      - apply Z.div_le_lower_bound; [lia|]. lia.
      - apply Z.div_lt_upper_bound; [lia|]. lia. }
    split; [lia|].
    apply Zdigits2_eq; [|lia]. exact Hq.
  - right. split; [lia|]. apply Z.div_small. split; [lia|].
    apply Z.lt_le_trans with (2 ^ d); [lia|]. apply Z.pow_le_mono_r; lia.
Qed.

Lemma fexp_mono (a b : Z) : a <= b -> fexp prec emax a <= fexp prec emax b.
Proof. unfold fexp. lia. Qed.

(** What [shr_fexp] returns is canonical when the mantissa it is given is
    long enough for its exponent. *)
Lemma shr_fexp_canonical (m e : Z) (l : location) :
  0 < m -> e <= fexp prec emax (Zdigits2 m + e) ->
  0 <= shr_m (fst (shr_fexp prec emax m e l))
  /\ (0 < shr_m (fst (shr_fexp prec emax m e l)) ->
      fexp prec emax (Zdigits2 (shr_m (fst (shr_fexp prec emax m e l)))
                      + snd (shr_fexp prec emax m e l))
      = snd (shr_fexp prec emax m e l))
  /\ (shr_m (fst (shr_fexp prec emax m e l)) = 0 ->
      snd (shr_fexp prec emax m e l) = emin).
Proof.
  intros Hm He.
  destruct (shr_fexp_cases m e l ltac:(lia)) as [(Em & Ee & Hle) | (Hlt & Em & Ee)];
    rewrite Em, Ee.
  - split; [lia|]. split; [intros _; lia | lia].
  - set (k := fexp prec emax (Zdigits2 m + e) - e) in *.
    destruct (Zdigits2_shr m k Hm ltac:(lia)) as [(Hk & Hq & Ed) | (Hk & Hq)].
    + split; [lia|]. split; [|lia]. intros _. rewrite Ed. f_equal. lia.
    + rewrite Hq. split; [lia|]. split; [lia|]. intros _.
      unfold fexp in *.
      unfold emin, FloatOps.prec, FloatOps.emax, SpecFloat.emin in *. lia.
Qed.

(** Rounding a mantissa that is long enough for its exponent gives a
    valid float. *)
Lemma binary_round_aux_valid (s : bool) (m e : Z) (l : location) :
  0 < m -> e <= fexp prec emax (Zdigits2 m + e) ->
  valid_binary (binary_round_aux prec emax s m e l) = true.
Proof.
  intros Hm He. unfold binary_round_aux.
  destruct (shr_fexp_canonical m e l Hm He) as (H1 & C1 & Z1).
  destruct (shr_fexp prec emax m e l) as [mrs' e']. cbn [fst snd] in *.
  pose proof (round_nearest_even_bounds (shr_m mrs') (loc_of_shr_record mrs'))
    as Hr.
  set (m2 := round_nearest_even (shr_m mrs') (loc_of_shr_record mrs')) in *.
  destruct (Z.eq_dec m2 0) as [E0|N0].
  - (* nothing is left *)
    rewrite E0. unfold shr_fexp, shr. cbn [Zdigits2 Z.add].
    destruct (fexp prec emax e' - e') as [|k|k]; cbn [fst snd shr_m];
      try reflexivity.
    rewrite iter_shr_1_m by (cbn; lia). cbn [shr_m shr_record_of_loc].
    rewrite Z.div_0_l by (apply Z.pow_nonzero; lia). reflexivity.
  - assert (Hm2 : 0 < m2) by lia.
    assert (He2 : e' <= fexp prec emax (Zdigits2 m2 + e')).
    { destruct (Z.eq_dec (shr_m mrs') 0) as [Ez|Nz].
      - rewrite (Z1 Ez). apply fexp_emin.
      - rewrite <- (C1 ltac:(lia)) at 1. apply fexp_mono.
        pose proof (Zdigits2_mono (shr_m mrs') m2 ltac:(lia)). lia. }
    destruct (shr_fexp_canonical m2 e' loc_Exact Hm2 He2) as (H2 & C2 & _).
    destruct (shr_fexp prec emax m2 e' loc_Exact) as [mrs'' e''].
    cbn [fst snd] in *.
    destruct (shr_m mrs'') as [|q|q] eqn:Eq; try reflexivity; try lia.
    destruct (e'' <=? emax - prec) eqn:Ele; [|reflexivity].
    cbn [valid_binary]. unfold bounded, canonical_mantissa.
    rewrite Ele, andb_true_r. apply Z.eqb_eq.
    apply (C2 ltac:(lia)).
Qed.

Lemma loc_of_shr_record_of_loc (m : Z) (l : location) :
  loc_of_shr_record (shr_record_of_loc m l) = l.
Proof. destruct l as [|[]]; reflexivity. Qed.

(** Rounding a mantissa [q] at a negative exponent [e], when [q * 2^e] is
    at most 1 (and exact if it is 1): the result is a zero or a finite
    float that is at most 1. *)
Lemma binary_round_aux_at_most_one (q e : Z) (l : location) :
  e < 0 -> 0 <= q <= 2 ^ (- e) -> (q = 2 ^ (- e) -> l = loc_Exact) ->
  binary_round_aux prec emax false q e l = S754_zero false
  \/ exists m3 e3,
       binary_round_aux prec emax false q e l = S754_finite false m3 e3
       /\ e3 < 0 /\ Zpos m3 <= 2 ^ (- e3).
Proof.
  intros He Hq Hl. unfold binary_round_aux.
  assert (Pe : 0 < 2 ^ (- e)) by (apply Z.pow_pos_nonneg; lia).
  (* the digits of [q] *)
  assert (Hd : Zdigits2 q + e <= 1).
  { assert (Hp : 2 ^ (- e + 1) = 2 * 2 ^ (- e)) by (rewrite Z.pow_add_r; lia).
    pose proof (Zdigits2_le q (- e + 1) ltac:(lia) ltac:(lia)). lia. }
  assert (Hf : forall d, d <= 1 -> fexp prec emax d < 0).
  { intros d Hd1. unfold fexp.
    unfold emin, FloatOps.prec, FloatOps.emax, SpecFloat.emin. lia. }
  (* the first shift *)
  assert (H1 : snd (shr_fexp prec emax q e l) < 0
               /\ 0 <= round_nearest_even
                         (shr_m (fst (shr_fexp prec emax q e l)))
                         (loc_of_shr_record (fst (shr_fexp prec emax q e l)))
                  <= 2 ^ (- snd (shr_fexp prec emax q e l))).
  { destruct (Z.eq_dec q (2 ^ (- e))) as [Eq|Nq].
    - (* exactly one *)
      rewrite (Hl Eq).
      destruct (shr_fexp_exact_cases q e ltac:(lia))
        as [(Ef & Es) | (Hlt & Es & Em & Hex)].
      + rewrite Ef, Es. cbn [shr_m loc_of_shr_record round_nearest_even]. lia.
      + set (e1 := snd (shr_fexp prec emax q e loc_Exact)) in *.
        assert (He1 : e1 < 0) by (rewrite Es; apply Hf, Hd).
        split; [exact He1|].
        assert (Esplit : 2 ^ (- e) = 2 ^ (- e1) * 2 ^ (e1 - e)).
        { rewrite <- Z.pow_add_r by lia. f_equal. lia. }
        assert (Pk : 0 < 2 ^ (e1 - e)) by (apply Z.pow_pos_nonneg; lia).
        rewrite (Hex (2 ^ (- e1)) ltac:(lia)). cbn [round_nearest_even].
        rewrite Em, Eq, Esplit, Z.div_mul by lia.
        assert (0 < 2 ^ (- e1)) by (apply Z.pow_pos_nonneg; lia). lia.
    - assert (Hlt : q < 2 ^ (- e)) by lia.
      pose proof (round_nearest_even_bounds
                    (shr_m (fst (shr_fexp prec emax q e l)))
                    (loc_of_shr_record (fst (shr_fexp prec emax q e l)))) as Hr.
      destruct (shr_fexp_cases q e l ltac:(lia))
        as [(Em & Ee & _) | (Hlt' & Em & Ee)]; rewrite Ee; rewrite Em in *.
      + split; [exact He|]. lia.
      + set (e1 := fexp prec emax (Zdigits2 q + e)) in *.
        assert (He1 : e1 < 0) by (apply Hf, Hd).
        split; [exact He1|].
        assert (Esplit : 2 ^ (- e) = 2 ^ (- e1) * 2 ^ (e1 - e)).
        { rewrite <- Z.pow_add_r by lia. f_equal. lia. }
        assert (Pk : 0 < 2 ^ (e1 - e)) by (apply Z.pow_pos_nonneg; lia).
        assert (Hq1 : q / 2 ^ (e1 - e) < 2 ^ (- e1)).
        { apply Z.div_lt_upper_bound; [lia|]. lia. }
        pose proof (Z.div_pos q (2 ^ (e1 - e)) ltac:(lia) Pk). lia. }
  destruct (shr_fexp prec emax q e l) as [mrs' e']. cbn [fst snd] in H1.
  destruct H1 as (He' & Hm2).
  set (m2 := round_nearest_even (shr_m mrs') (loc_of_shr_record mrs')) in *.
  assert (Hd2 : Zdigits2 m2 + e' <= 1).
  { assert (Hp : 2 ^ (- e' + 1) = 2 * 2 ^ (- e')) by (rewrite Z.pow_add_r; lia).
    assert (0 < 2 ^ (- e')) by (apply Z.pow_pos_nonneg; lia).
    pose proof (Zdigits2_le m2 (- e' + 1) ltac:(lia) ltac:(lia)). lia. }
  (* the second shift *)
  assert (H2 : snd (shr_fexp prec emax m2 e' loc_Exact) < 0
               /\ 0 <= shr_m (fst (shr_fexp prec emax m2 e' loc_Exact))
                  <= 2 ^ (- snd (shr_fexp prec emax m2 e' loc_Exact))).
  { destruct (shr_fexp_cases m2 e' loc_Exact ltac:(lia))
      as [(Em & Ee & _) | (Hlt' & Em & Ee)]; rewrite Ee, Em.
    - split; [exact He'|]. lia.
    - set (e2 := fexp prec emax (Zdigits2 m2 + e')) in *.
      assert (He2 : e2 < 0) by (apply Hf, Hd2).
      split; [exact He2|].
      assert (Esplit : 2 ^ (- e') = 2 ^ (- e2) * 2 ^ (e2 - e')).
      { rewrite <- Z.pow_add_r by lia. f_equal. lia. }
      assert (Pk : 0 < 2 ^ (e2 - e')) by (apply Z.pow_pos_nonneg; lia).
      split; [apply Z.div_pos; lia|].
      apply Z.div_le_upper_bound; [lia|]. lia. }
  destruct (shr_fexp prec emax m2 e' loc_Exact) as [mrs'' e'']. cbn [fst snd] in H2.
  destruct H2 as (He'' & Hm3).
  destruct (shr_m mrs'') as [|m3|m3]; [left; reflexivity | | lia].
  right. exists m3, e''.
  assert (Hle : (e'' <=? emax - prec) = true).
  { apply Z.leb_le. unfold FloatOps.prec, FloatOps.emax. lia. }
  rewrite Hle. repeat split; [exact He'' | lia].
Qed.

Lemma new_location_exact (nb_steps : Z) : new_location nb_steps 0 = loc_Exact.
Proof.
  unfold new_location, new_location_even, new_location_odd.
  destruct (Z.even nb_steps); reflexivity.
Qed.

(** The core of the division: a quotient [q] at the exponent [e'], and
    whether it is exact. *)
Lemma SFdiv_core_binary_at_most_one (mx my : positive) (ex ey : Z) :
  Zpos mx * 2 ^ (ex - Z.min ex ey) <= Zpos my * 2 ^ (ey - Z.min ex ey) ->
  exists q e' l,
    SFdiv_core_binary prec emax (Zpos mx) ex (Zpos my) ey = (q, e', l)
    /\ e' < 0 /\ 0 <= q <= 2 ^ (- e') /\ (q = 2 ^ (- e') -> l = loc_Exact)
    /\ e' = Z.min (fexp prec emax (Zdigits2 (Zpos mx) + ex
                                  - (Zdigits2 (Zpos my) + ey))) (ex - ey)
    /\ Zpos my * q <= Zpos mx * 2 ^ (ex - ey - e') < Zpos my * (q + 1).
Proof.
  intros Hle. unfold SFdiv_core_binary.
  set (d1 := Zdigits2 (Zpos mx)). set (d2 := Zdigits2 (Zpos my)).
  destruct (Zdigits2_pow (Zpos mx) ltac:(lia)) as [[Hlo1 Hhi1] Hd1].
  destruct (Zdigits2_pow (Zpos my) ltac:(lia)) as [[Hlo2 Hhi2] Hd2].
  fold d1 in Hlo1, Hhi1, Hd1. fold d2 in Hlo2, Hhi2, Hd2.
  set (B := Z.min ex ey) in *.
  assert (PB1 : 0 < 2 ^ (ex - B)) by (apply Z.pow_pos_nonneg; lia).
  assert (PB2 : 0 < 2 ^ (ey - B)) by (apply Z.pow_pos_nonneg; lia).
  (* the digits: [d1 + ex <= d2 + ey] *)
  assert (Hdig : d1 + ex <= d2 + ey).
  { destruct (Z.le_gt_cases (d1 + ex) (d2 + ey)) as [H|H]; [exact H|].
    assert (2 ^ (d2 + ey - B) <= 2 ^ (d1 - 1 + ex - B))
      by (apply Z.pow_le_mono_r; lia).
    assert (E1 : 2 ^ (d1 - 1 + ex - B) = 2 ^ (d1 - 1) * 2 ^ (ex - B)).
    { rewrite <- Z.pow_add_r by lia. f_equal. lia. }
    assert (E2 : 2 ^ (d2 + ey - B) = 2 ^ d2 * 2 ^ (ey - B)).
    { rewrite <- Z.pow_add_r by lia. f_equal. lia. }
    nia. }
  set (e' := Z.min (fexp prec emax (d1 + ex - (d2 + ey))) (ex - ey)).
  assert (He' : e' < 0 /\ e' <= ex - ey).
  { subst e'. unfold fexp.
    unfold emin, FloatOps.prec, FloatOps.emax, SpecFloat.emin. lia. }
  set (s := ex - ey - e').
  assert (Hs : 0 <= s) by (subst s; lia).
  assert (Em : match s with
               | Zpos _ => Z.shiftl (Zpos mx) s
               | Z0 => Zpos mx
               | Zneg _ => 0
               end = Zpos mx * 2 ^ s).
  { destruct s as [|p|p] eqn:Es; try lia.
    rewrite Z.shiftl_mul_pow2 by lia; reflexivity. }
  rewrite Em.
  assert (Ps : 0 < 2 ^ s) by (apply Z.pow_pos_nonneg; lia).
  assert (Pe : 0 < 2 ^ (- e')) by (apply Z.pow_pos_nonneg; lia).
  (* the dividend is at most [my * 2^(-e')] *)
  assert (Hnum : Zpos mx * 2 ^ s <= Zpos my * 2 ^ (- e')).
  { destruct (Z.le_ge_cases ey ex) as [H|H].
    - assert (EB : B = ey) by (subst B; lia). rewrite EB in *.
      rewrite Z.sub_diag in Hle. change (2 ^ 0) with 1 in Hle.
      assert (E : 2 ^ s = 2 ^ (ex - ey) * 2 ^ (- e')).
      { rewrite <- Z.pow_add_r by lia; f_equal; unfold s; lia. }
      rewrite E. nia.
    - assert (EB : B = ex) by (subst B; lia). rewrite EB in *.
      rewrite Z.sub_diag in Hle. change (2 ^ 0) with 1 in Hle.
      assert (E : 2 ^ (- e') = 2 ^ (ey - ex) * 2 ^ s).
      { rewrite <- Z.pow_add_r by lia; f_equal; unfold s; lia. }
      rewrite E. nia. }
  pose proof (Z_div_mod (Zpos mx * 2 ^ s) (Zpos my) ltac:(lia)) as Hdm.
  destruct (Z.div_eucl (Zpos mx * 2 ^ s) (Zpos my)) as [q r].
  destruct Hdm as [Eqr Hr].
  exists q, e', (new_location (Zpos my) r).
  split; [reflexivity|]. split; [apply He'|].
  assert (Hq0 : 0 <= q) by nia.
  assert (Hq1 : q <= 2 ^ (- e')) by nia.
  split; [lia|]. split.
  - intros Eq. assert (r = 0) by nia. subst r. apply new_location_exact.
  - split; [reflexivity|]. fold s. nia.
Qed.

(** A float that is a zero, or finite, not negative and at most 1, is
    between 0 and 1 for the comparisons of the code. *)
Lemma binary64_at_most_one_relative (r : float) :
  (exists s, Prim2SF r = S754_zero s)
  \/ (exists m3 e3, Prim2SF r = S754_finite false m3 e3
                    /\ e3 < 0 /\ Zpos m3 <= 2 ^ (- e3)) ->
  check_is_relative (PyFloat r) = true.
Proof.
  unfold check_is_relative, num_between. cbn [int_le_num num_le_int].
  cbn [int_le_float float_le_int binary64].
  unfold Binary64.int_le_float, Binary64.float_le_int.
  intros [(s & ->) | (m3 & e3 & -> & He & Hm)]; [reflexivity|].
  destruct (Z.leb_spec 0 e3); [lia|]. cbn [negate_if].
  apply andb_true_intro. split; apply Z.leb_le; lia.
Qed.

Lemma Zdigits2_lower (m t : Z) : 0 <= t -> 2 ^ t <= m -> t + 1 <= Zdigits2 m.
Proof.
  intros Ht Hm. assert (P : 0 < 2 ^ t) by (apply Z.pow_pos_nonneg; lia).
  destruct (Zdigits2_pow m ltac:(lia)) as [[_ Hhi] Hd].
  destruct (Z.le_gt_cases (t + 1) (Zdigits2 m)) as [H|H]; [exact H|].
  assert (2 ^ Zdigits2 m <= 2 ^ t) by (apply Z.pow_le_mono_r; lia). lia.
Qed.

(** [x / n] for a float [x] with [0 <= x <= n]: a float between 0 and 1. *)
Lemma binary64_truediv_float (x : float) (n : Z) :
  0 < n < 2 ^ 53 -> num_between 0 (PyFloat x) n = true ->
  exists r, num_truediv (PyFloat x) (PyInt n) = Return (PyFloat r)
            /\ check_is_relative (PyFloat r) = true.
Proof.
  intros Hn Hx.
  destruct (binary64_float_of_pixels n Hn)
    as (w & mw & ew & Ew & Ez & Hew & Hmw & Hval).
  unfold num_truediv. cbn [to_float bind float_of_int binary64]. rewrite Ew.
  cbn [bind ftruediv binary64]. unfold Binary64.ftruediv, PrimFloat.is_zero.
  rewrite eqb_spec, Ez.
  change (Prim2SF PrimFloat.zero) with (S754_zero false).
  cbn [SFeqb SFcompare bind].
  eexists. split; [reflexivity|].
  apply binary64_at_most_one_relative. rewrite div_spec, Ez. unfold SF64div.
  unfold num_between in Hx. cbn [int_le_num num_le_int] in Hx.
  cbn [int_le_float float_le_int binary64] in Hx.
  unfold Binary64.int_le_float, Binary64.float_le_int in Hx.
  destruct (Prim2SF x) as [s|s| |s mx ex]; try discriminate.
  - left. eexists. reflexivity.
  - destruct s; discriminate.
  - apply andb_prop in Hx as [H0 H1].
    assert (Pw : 0 < 2 ^ (- ew)) by (apply Z.pow_pos_nonneg; lia).
    assert (Hs : s = false /\ Zpos mx * 2 ^ (ex - Z.min ex ew)
                              <= Zpos mw * 2 ^ (ew - Z.min ex ew)).
    { destruct (Z.leb_spec 0 ex) as [He|He]; apply Z.leb_le in H0, H1.
      - assert (P : 0 < 2 ^ ex) by (apply Z.pow_pos_nonneg; lia).
        destruct s; cbn [negate_if] in *; [nia|]. split; [reflexivity|].
        rewrite Z.min_r by lia. rewrite Z.sub_diag. change (2 ^ 0) with 1.
        assert (E : 2 ^ (ex - ew) = 2 ^ ex * 2 ^ (- ew))
          by (rewrite <- Z.pow_add_r by lia; f_equal; lia).
        rewrite E, Hval. nia.
      - assert (P : 0 < 2 ^ (- ex)) by (apply Z.pow_pos_nonneg; lia).
        destruct s; cbn [negate_if] in *; [lia|]. split; [reflexivity|].
        destruct (Z.le_gt_cases ex ew) as [H|H].
        + rewrite Z.min_l by lia. rewrite Z.sub_diag. change (2 ^ 0) with 1.
          assert (E : 2 ^ (- ex) = 2 ^ (- ew) * 2 ^ (ew - ex))
            by (rewrite <- Z.pow_add_r by lia; f_equal; lia).
          rewrite Hval. nia.
        + rewrite Z.min_r by lia. rewrite Z.sub_diag. change (2 ^ 0) with 1.
          assert (E : 2 ^ (- ew) = 2 ^ (- ex) * 2 ^ (ex - ew))
            by (rewrite <- Z.pow_add_r by lia; f_equal; lia).
          assert (0 < 2 ^ (ex - ew)) by (apply Z.pow_pos_nonneg; lia).
          rewrite Hval. nia. }
    destruct Hs as [-> Hle]. cbn [SFdiv xorb].
    destruct (SFdiv_core_binary_at_most_one mx mw ex ew Hle)
      as (q & e' & l & -> & He' & Hq & Hl & _).
    destruct (binary_round_aux_at_most_one q e' l He' Hq Hl)
      as [-> | (m3 & e3 & -> & H3)].
    + left. eexists. reflexivity.
    + right. exists m3, e3. split; [reflexivity | exact H3].
Qed.

(** [x / n] for ints with [0 <= x <= n]: a float between 0 and 1. *)
Lemma binary64_truediv_int (x n : Z) :
  0 < n < 2 ^ 53 -> 0 <= x <= n ->
  exists r, num_truediv (F := float) (PyInt x) (PyInt n) = Return (PyFloat r)
            /\ check_is_relative (PyFloat r) = true.
Proof.
  intros Hn Hx. unfold num_truediv. cbn [int_truediv binary64].
  unfold Binary64.int_truediv.
  destruct (Z.eqb_spec n 0) as [->|_]; [lia|].
  destruct n as [|pn|pn]; try lia. cbn [Binary64.spec_of_int].
  destruct x as [|px|px]; try lia; cbn [Binary64.spec_of_int SFdiv xorb].
  - cbn [bind]. eexists. split; [reflexivity|].
    apply binary64_at_most_one_relative. left. exists false.
    apply Prim2SF_SF2Prim. reflexivity.
  - assert (Hle : Zpos px * 2 ^ (0 - Z.min 0 0) <= Zpos pn * 2 ^ (0 - Z.min 0 0))
      by (cbn; lia).
    destruct (SFdiv_core_binary_at_most_one px pn 0 0 Hle)
      as (q & e' & l & Ec & He' & Hq & Hl & Ee' & Hdiv).
    rewrite Ec.
    (* the quotient has 53 bits or more *)
    destruct (Zdigits2_pow (Zpos px) ltac:(lia)) as [[Hlo1 Hhi1] Hd1].
    destruct (Zdigits2_pow (Zpos pn) ltac:(lia)) as [[Hlo2 Hhi2] Hd2].
    set (d1 := Zdigits2 (Zpos px)) in *. set (d2 := Zdigits2 (Zpos pn)) in *.
    assert (Hd12 : d1 <= d2) by (apply Zdigits2_mono; lia).
    assert (Hd53 : d2 <= 53).
    { destruct (Z.le_gt_cases d2 53) as [H|H]; [exact H|].
      assert (2 ^ 53 <= 2 ^ (d2 - 1)) by (apply Z.pow_le_mono_r; lia). lia. }
    assert (Ee : e' = d1 - d2 - 53).
    { rewrite Ee'. unfold fexp.
      unfold emin, FloatOps.prec, FloatOps.emax, SpecFloat.emin. lia. }
    assert (Hq52 : 2 ^ 52 <= q).
    { replace (0 - 0 - e') with (53 + d2 - d1) in Hdiv by lia.
      assert (E : 2 ^ (d1 - 1) * 2 ^ (53 + d2 - d1) = 2 ^ 52 * 2 ^ d2).
      { rewrite <- !Z.pow_add_r by lia. f_equal. lia. }
      assert (P : 0 < 2 ^ (53 + d2 - d1)) by (apply Z.pow_pos_nonneg; lia).
      assert (Hlow : 2 ^ 52 * 2 ^ d2 <= Zpos px * 2 ^ (53 + d2 - d1)) by nia.
      assert (P52 : 0 < 2 ^ 52) by reflexivity.
      destruct (Z.le_gt_cases (2 ^ 52) q) as [H|H]; [exact H|].
      assert (q + 1 <= 2 ^ 52) by lia. nia. }
    assert (Hval : valid_binary (binary_round_aux prec emax false q e' l) = true).
    { apply binary_round_aux_valid; [lia|].
      pose proof (Zdigits2_lower q 52 ltac:(lia) Hq52).
      unfold fexp.
      unfold emin, FloatOps.prec, FloatOps.emax, SpecFloat.emin. lia. }
    destruct (binary_round_aux_at_most_one q e' l He' Hq Hl)
      as [E | (m3 & e3 & E & H3)]; rewrite E in *; cbn [bind].
    + eexists. split; [reflexivity|].
      apply binary64_at_most_one_relative. left. exists false.
      apply Prim2SF_SF2Prim. reflexivity.
    + eexists. split; [reflexivity|].
      apply binary64_at_most_one_relative. right. exists m3, e3.
      split; [apply Prim2SF_SF2Prim; exact Hval | exact H3].
Qed.

(** [a / n] for a number [a], an int or a float, with [0 <= a <= n]. *)
Lemma binary64_truediv (a : num float) (n : Z) :
  0 < n < 2 ^ 53 -> num_between 0 a n = true ->
  exists r, num_truediv a (PyInt n) = Return (PyFloat r)
            /\ check_is_relative (PyFloat r) = true.
Proof.
  intros Hn Ha. destruct a as [x|x].
  - apply binary64_truediv_int; [exact Hn|].
    unfold num_between in Ha. cbn in Ha.
    apply andb_prop in Ha as [H0 H1]. apply Z.leb_le in H0, H1. lia.
  - apply binary64_truediv_float; assumption.
Qed.

(** X23: on the floats of the code, [to_relative] on a box that is not
    relative and whose coordinates, ints or floats, lie between 0 and the
    extent of their axis (extents above 0 and below [2^53]) raises nothing:
    it returns a box with the same [class_id] whose coordinates are floats
    and which is relative; and [to_absolute] on that box, with the same
    extents, returns a box in pixels that lies inside the image. *)
Theorem to_relative_inside (b : BoundingBox float) (img_width img_height : Z) :
  0 < img_width < 2 ^ 53 -> 0 < img_height < 2 ^ 53 ->
  is_relative b = false ->
  in_image b img_width img_height = true ->
  exists r,
    to_relative b img_width img_height = Return r
    /\ class_id r = class_id b
    /\ float_coordinates r
    /\ is_relative r = true
    /\ exists a,
         to_absolute r img_width img_height = Return a
         /\ class_id a = class_id b
         /\ inside_image a img_width img_height.
Proof.
  intros HW HH Hr Hin.
  unfold in_image in Hin. rewrite !andb_true_iff in Hin.
  destruct Hin as [[[I0 I1] I2] I3].
  destruct (binary64_truediv _ _ HW I0) as (r0 & E0 & R0).
  destruct (binary64_truediv _ _ HW I1) as (r1 & E1 & R1).
  destruct (binary64_truediv _ _ HH I2) as (r2 & E2 & R2).
  destruct (binary64_truediv _ _ HH I3) as (r3 & E3 & R3).
  set (r := mkBoundingBox (bbox_class_id b)
              (PyFloat r0) (PyFloat r1) (PyFloat r2) (PyFloat r3)).
  assert (Er : to_relative b img_width img_height = Return r).
  { cbn [to_relative is_relative BoundingBox_IBoundingBox] in *.
    unfold BoundingBox.to_relative. rewrite Hr. cbn [negb].
    rewrite E0, E1, E2, E3. reflexivity. }
  assert (Rr : is_relative r = true).
  { cbn [is_relative BoundingBox_IBoundingBox].
    unfold BoundingBox.is_relative. cbn [r min_x max_x min_y max_y].
    rewrite R0, R1, R2, R3. reflexivity. }
  exists r. split; [exact Er|]. split; [reflexivity|].
  split; [exists r0, r1, r2, r3; repeat split|].
  split; [exact Rr|].
  destruct (binary64_to_absolute_corner r img_width img_height
              ltac:(lia) ltac:(lia) Rr)
    as (x0 & x1 & y0 & y1 & Ea & P & BW & BH).
  eexists. split; [exact Ea|]. split; [reflexivity|].
  exists x0, x1, y0, y1. split; [repeat split|].
  specialize (BW ltac:(lia)). specialize (BH ltac:(lia)). lia.
Qed.

Lemma to_relative_inside_witness :
  exists r,
    to_relative (mkBoundingBox (F := float) 0
                   (PyInt 40) (PyInt 60) (PyInt 15) (PyInt 35)) 100 50
    = Return r
    /\ class_id r = 0
    /\ float_coordinates r
    /\ is_relative r = true
    /\ exists a,
         to_absolute r 100 50 = Return a
         /\ class_id a = 0
         /\ inside_image a 100 50.
Proof.
  apply (to_relative_inside
           (mkBoundingBox 0 (PyInt 40) (PyInt 60) (PyInt 15) (PyInt 35))
           100 50); [lia | lia | reflexivity | reflexivity].
Defined.

(** ** What [create_mask] returns and raises, on the floats of the code *)

(** One turn of the loop, for a corner box that is relative. *)
Lemma binary64_draw_relative (self : Annotation2Mask float) (mask : ndarray)
    (s0 s1 s2 n0 n1 : Z) (rest : list Z) (b : BoundingBox float) :
  shape (img self) = [s0; s1; s2] ->
  0 <= s1 < 2 ^ 63 -> 0 <= s2 < 2 ^ 63 ->
  shape mask = n0 :: n1 :: rest ->
  is_relative b = true ->
  exists mask', Annotation2Mask.draw self mask b = Return mask'.
Proof.
  intros Hs H1 H2 Hm Hb. unfold Annotation2Mask.draw. rewrite Hs.
  change (getitem [s0; s1; s2] 2) with (Return s2).
  change (getitem [s0; s1; s2] 1) with (Return s1). cbn [bind].
  destruct (binary64_to_absolute_corner b s2 s1 H2 H1 Hb)
    as (x0 & x1 & y0 & y1 & E & _).
  cbn [to_absolute BoundingBox_IBoundingBox] in E.
  rewrite E. cbn [bind min_x max_x min_y max_y].
  unfold setitem_slices. rewrite Hm. cbn. eexists. reflexivity.
Qed.

(** The loop, on corner boxes that [to_bbox] made: it returns when all are
    relative, and raises [TypeError] at the first that is not. *)
Lemma binary64_draw_all (self : Annotation2Mask float)
    (s0 s1 s2 n0 n1 : Z) (rest : list Z) (bboxes : list (BoundingBox float)) :
  shape (img self) = [s0; s1; s2] ->
  0 <= s1 < 2 ^ 63 -> 0 <= s2 < 2 ^ 63 ->
  Forall (fun b => exists c, CenteredBoundingBox.to_bbox c = Return b) bboxes ->
  forall mask,
    shape mask = n0 :: n1 :: rest ->
    if forallb is_relative bboxes
    then exists mask', Annotation2Mask.draw_all self mask bboxes = Return mask'
    else Annotation2Mask.draw_all self mask bboxes = Raise TypeError.
Proof.
  intros Hs H1 H2. induction 1 as [|b l [c Hc] _ IH]; intros mask Hm;
    cbn [forallb Annotation2Mask.draw_all].
  - exists mask. reflexivity.
  - destruct (is_relative b) eqn:Hb; cbn [andb].
    + destruct (binary64_draw_relative self mask s0 s1 s2 n0 n1 rest b
                  Hs H1 H2 Hm Hb) as [m1 E1].
      rewrite E1. cbn [bind]. apply IH.
      rewrite (draw_shape _ _ _ _ E1). exact Hm.
    + rewrite (draw_not_relative self mask s0 s1 s2 n0 n1 rest c b Hs Hm Hc Hb).
      reflexivity.
Qed.

Lemma binary64_create_mask (self : Annotation2Mask float) (s0 s1 s2 : Z)
    (bboxes : list (BoundingBox float)) :
  shape (img self) = [s0; s1; s2] ->
  0 <= s1 < 2 ^ 63 -> 0 <= s2 < 2 ^ 63 ->
  MASATIImageAnnotation.annotations (annotations self) = Return bboxes ->
  if forallb is_relative bboxes
  then exists mask,
         Annotation2Mask.create_mask self = Return mask
         /\ shape mask = [s1; s2]
  else Annotation2Mask.create_mask self = Raise TypeError.
Proof.
  intros Hs H1 H2 Hann.
  assert (Hc : Forall (fun b => exists c, CenteredBoundingBox.to_bbox c = Return b)
                 bboxes).
  { apply Forall_forall. intros b Hb.
    destruct (mapM_In _ _ _ Hann b Hb) as ([c|] & _ & Ec);
      [exists c; exact Ec | discriminate]. }
  pose proof (binary64_draw_all self s0 s1 s2 s1 s2 [] bboxes Hs H1 H2 Hc
                (zeros [s1; s2]) eq_refl) as Hd.
  unfold Annotation2Mask.create_mask. rewrite Hann, Hs. cbn [bind tl].
  destruct (forallb is_relative bboxes); [|exact Hd].
  destruct Hd as [mask E]. exists mask. split; [exact E|].
  apply (draw_all_shape _ _ _ _ E).
Qed.

(** X16: the outcomes of [create_mask] on the floats of the code, for an
    image of three dimensions (with extents below [2^63]) and an
    annotation whose corner boxes [annotations] returns: when every corner
    box is relative (all four coordinates in [[0,1]]: the box lies inside
    the image) a mask of shape [(shape[1], shape[2])] is returned;
    otherwise [TypeError] is raised, by the first corner box that is not
    relative, and no mask is returned. *)
Theorem create_mask_outcomes (self : Annotation2Mask float) (s0 s1 s2 : Z)
    (bboxes : list (BoundingBox float)) :
  shape (img self) = [s0; s1; s2] ->
  0 <= s1 < 2 ^ 63 -> 0 <= s2 < 2 ^ 63 ->
  MASATIImageAnnotation.annotations (annotations self) = Return bboxes ->
  if forallb is_relative bboxes
  then exists mask,
         Annotation2Mask.create_mask self = Return mask
         /\ shape mask = [s1; s2]
  else Annotation2Mask.create_mask self = Raise TypeError.
Proof. apply binary64_create_mask. Qed.

Lemma create_mask_outcomes_witness :
  Annotation2Mask.create_mask outside_self = Raise TypeError.
Proof.
  apply (create_mask_outcomes outside_self 3 50 100
           [corner_of scenario_box; corner_of outside_box]);
    try (split; [discriminate | reflexivity]); vm_compute; reflexivity.
Defined.

(** ** From the text to the mask *)

(** The constructor on an image with the channels last. *)
Lemma new_channel_last {F : Type} `{FloatArith F}
    (h w : Z) (items : list Z -> Z) (a : MASATIImageAnnotation F) :
  exists planar,
    Annotation2Mask.new (mkndarray [h; w; 3] items) a
    = Return (mkAnnotation2Mask planar a)
    /\ shape planar = [3; h; w].
Proof.
  unfold Annotation2Mask.new, Annotation2Mask.__post_init__.
  cbn [img annotations shape].
  change (ndim (mkndarray [h; w; 3] items) >? 3) with false.
  change (getitem [h; w; 3] 0) with (Return h).
  change (getitem [h; w; 3] (-1)) with (Return 3).
  cbn [bind Z.eqb Pos.eqb negb transpose_2_0_1 shape].
  destruct (negb (h =? 3)); cbn [bind]; eexists; split; reflexivity.
Qed.

(** X17: from the text of an annotation file to the mask, on the floats
    of the code, for an image as it is decoded (three channels, last) with
    extents below [2^63]. The text is parsed, the object constructed and
    the mask created; there are four outcomes and no other. A token that
    is not a number raises [ValueError]; else a line whose number of
    tokens is not five leaves a [None] and raises [AttributeError]; else a
    box that does not lie inside the image (a corner box that is not
    relative) raises [TypeError]; else a mask with the height and the
    width of the image is returned. *)
Theorem mask_from_text_outcomes (h w : Z) (items : list Z -> Z) (text : string) :
  0 <= h < 2 ^ 63 -> 0 <= w < 2 ^ 63 ->
  let image := mkndarray [h; w; 3] items in
  (MASATIImageAnnotation.from_str (F := float) (Str text) = Raise ValueError
   /\ mask_from_text (F := float) image text = Raise ValueError)
  \/ exists a,
       MASATIImageAnnotation.from_str (F := float) (Str text) = Return a
       /\ ((In None (_raw_annotations a)
            /\ mask_from_text (F := float) image text = Raise AttributeError)
           \/ exists bboxes,
                MASATIImageAnnotation.annotations a = Return bboxes
                /\ if forallb is_relative bboxes
                   then exists mask,
                          mask_from_text (F := float) image text = Return mask
                          /\ shape mask = [h; w]
                   else mask_from_text (F := float) image text = Raise TypeError).
Proof.
  intros Hh Hw image. subst image. unfold mask_from_text.
  destruct (binary64_from_str (Str text))
    as [(a & Ea & Hf) | (Ea & _)]; rewrite Ea; cbn [bind].
  - right. exists a. split; [reflexivity|].
    destruct (new_channel_last h w items a) as (planar & -> & Hp). cbn [bind].
    unfold MASATIImageAnnotation.annotations.
    destruct (corner_boxes_or_None (_raw_annotations a) Hf)
      as [(bboxes & Eb) | (Hin & Eb)].
    + right. exists bboxes. split; [exact Eb|].
      apply (binary64_create_mask (mkAnnotation2Mask planar a) 3 h w bboxes);
        trivial.
    + left. split; [exact Hin|].
      unfold Annotation2Mask.create_mask, MASATIImageAnnotation.annotations.
      cbn [annotations]. rewrite Eb. reflexivity.
  - left. split; reflexivity.
Qed.

Lemma mask_from_text_outcomes_witness :
  (MASATIImageAnnotation.from_str (F := float) (Str outside_line)
   = Raise ValueError
   /\ mask_from_text (F := float) scenario_img outside_line = Raise ValueError)
  \/ exists a,
       MASATIImageAnnotation.from_str (F := float) (Str outside_line) = Return a
       /\ ((In None (_raw_annotations a)
            /\ mask_from_text (F := float) scenario_img outside_line
               = Raise AttributeError)
           \/ exists bboxes,
                MASATIImageAnnotation.annotations a = Return bboxes
                /\ if forallb is_relative bboxes
                   then exists mask,
                          mask_from_text (F := float) scenario_img outside_line
                          = Return mask
                          /\ shape mask = [50; 100]
                   else mask_from_text (F := float) scenario_img outside_line
                        = Raise TypeError).
Proof.
  apply (mask_from_text_outcomes 50 100 (fun _ => 0) outside_line);
    split; (discriminate || reflexivity).
Defined.

(** ** The pixels of the mask, on the floats of the code *)

Lemma adjust_index_inside (n i : Z) : 0 <= i <= n -> adjust_index n i = i.
Proof.
  intros Hi. unfold adjust_index.
  destruct (Z.ltb_spec i 0); [lia|]. destruct (Z.leb_spec n i); lia.
Qed.

Lemma in_slice_inside (n start stop i : Z) :
  0 <= start <= n -> 0 <= stop <= n ->
  in_slice n start stop i = true <-> start <= i < stop.
Proof.
  intros H0 H1. unfold in_slice.
  rewrite !adjust_index_inside by assumption.
  rewrite andb_true_iff, Z.leb_le, Z.ltb_lt. reflexivity.
Qed.

Lemma covers_inside {F : Type} (bbox : BoundingBox F) (W H i j : Z) :
  inside_image bbox W H ->
  covers [H; W] bbox [i; j] = true <-> in_rectangle bbox i j.
Proof.
  intros (x0 & x1 & y0 & y1 & (E0 & E1 & E2 & E3) & Hx0 & Hx1 & Hy0 & Hy1).
  unfold covers, in_rectangle. rewrite E0, E1, E2, E3.
  rewrite andb_true_iff, !in_slice_inside by assumption. split.
  - intros [Hi Hj]. exists x0, x1, y0, y1. repeat split; (assumption || lia).
  - intros (x0' & x1' & y0' & y1' & (E0' & E1' & E2' & E3') & Hi & Hj).
    rewrite E0 in E0'. rewrite E1 in E1'. rewrite E2 in E2'. rewrite E3 in E3'.
    injection E0' as <-. injection E1' as <-.
    injection E2' as <-. injection E3' as <-. split; assumption.
Qed.

(** X18: the pixels of the mask, on the floats of the code, for an image
    of three dimensions with extents below [2^53]. When [create_mask]
    returns, every box of the annotation, put in pixels by [to_absolute],
    has int coordinates between 0 and the extent of its axis; the pixel of
    row [i] and column [j] of the image is 255 exactly when
    [min_y <= i < max_y] and [min_x <= j < max_x] for one of these boxes,
    and 0 otherwise. No slice is ever cut at the edge of the image or
    counted from its end, and no pixel outside a box is written. *)
Theorem create_mask_pixels (self : Annotation2Mask float) (s0 H W : Z)
    (mask : ndarray) :
  shape (img self) = [s0; H; W] ->
  0 <= H < 2 ^ 53 -> 0 <= W < 2 ^ 53 ->
  Annotation2Mask.create_mask self = Return mask ->
  exists bboxes absolutes,
    MASATIImageAnnotation.annotations (annotations self) = Return bboxes
    /\ mapM (fun b => to_absolute b W H) bboxes = Return absolutes
    /\ Forall (fun bbox => inside_image bbox W H) absolutes
    /\ forall i j,
         0 <= i < H -> 0 <= j < W ->
         (item mask [i; j] = 255
          <-> Exists (fun bbox => in_rectangle bbox i j) absolutes)
         /\ (item mask [i; j] = 0 \/ item mask [i; j] = 255).
Proof.
  intros Hs HH HW E. unfold Annotation2Mask.create_mask in E.
  apply bind_inv in E as (bboxes & Eb & E). rewrite Hs in E. cbn [tl] in E.
  destruct (draw_all_items self s0 H W bboxes Hs _ _ E)
    as (absolutes & Eabs & Hints & _ & Hitems).
  exists bboxes, absolutes. split; [exact Eb|]. split; [exact Eabs|].
  assert (Hin : Forall (fun bbox => inside_image bbox W H) absolutes).
  { apply Forall_forall. intros bbox Hbbox.
    destruct (mapM_In _ _ _ Eabs bbox Hbbox) as (b & Hb & Ebbox).
    rewrite Forall_forall in Hints.
    destruct (Hints bbox Hbbox) as (x0 & x1 & y0 & y1 & Hi).
    destruct (is_relative b) eqn:Hrel.
    - destruct (binary64_to_absolute_corner b W H ltac:(lia) ltac:(lia) Hrel)
        as (x0' & x1' & y0' & y1' & E' & (P0 & P1 & P2 & P3) & BW & BH).
      rewrite E' in Ebbox. injection Ebbox as <-.
      exists x0', x1', y0', y1'. split; [repeat split|].
      destruct (BW ltac:(lia)), (BH ltac:(lia)). repeat split; assumption.
    - exfalso.
      destruct (mapM_In _ _ _ Eb b Hb) as ([c|] & _ & Ec); [|discriminate].
      destruct (to_bbox_floats c b Ec) as (f0 & f1 & f2 & f3 & ->).
      cbn [to_absolute BoundingBox_IBoundingBox] in Ebbox.
      rewrite (to_absolute_of_absolute _ W H Hrel) in Ebbox.
      injection Ebbox as <-. destruct Hi as (Hi & _). discriminate. }
  split; [exact Hin|].
  intros i j _ _. rewrite (Hitems [i; j]). cbn [shape zeros item].
  assert (Hex : existsb (fun bbox => covers [H; W] bbox [i; j]) absolutes = true
                <-> Exists (fun bbox => in_rectangle bbox i j) absolutes).
  { rewrite existsb_exists, Exists_exists. rewrite Forall_forall in Hin.
    split; intros (bbox & Hb & Hc); exists bbox; (split; [exact Hb|]);
      apply (covers_inside bbox W H i j (Hin bbox Hb)); exact Hc. }
  destruct (existsb _ absolutes).
  - split; [|right; reflexivity]. split; [intros _; apply Hex; reflexivity|].
    reflexivity.
  - split; [|left; reflexivity]. split; [discriminate|].
    intros Hx. apply Hex in Hx. discriminate.
Qed.

Lemma create_mask_pixels_witness :
  exists bboxes absolutes,
    MASATIImageAnnotation.annotations (annotations scenario_self) = Return bboxes
    /\ mapM (fun b => to_absolute b 100 50) bboxes = Return absolutes
    /\ Forall (fun bbox => inside_image bbox 100 50) absolutes
    /\ forall i j,
         0 <= i < 50 -> 0 <= j < 100 ->
         (item scenario_mask [i; j] = 255
          <-> Exists (fun bbox => in_rectangle bbox i j) absolutes)
         /\ (item scenario_mask [i; j] = 0 \/ item scenario_mask [i; j] = 255).
Proof.
  apply (create_mask_pixels scenario_self 3 50 100 scenario_mask);
    try (split; [discriminate | reflexivity]); vm_compute; reflexivity.
Defined.

(** ** The mask in exact arithmetic *)













(** ** Boxes in pixels that look relative, and the class of a box *)

Section Units.
Context {F : Type} `{FloatArith F}.

(** X21: the unit of a box is guessed from its values, so a box in pixels
    whose coordinates are all 0 or 1 is taken for a relative one:
    [to_absolute] multiplies it by the extents of the image (a pixel box
    from 0 to 1 becomes the whole image), and [to_relative] returns it
    undivided, for all extents. *)
Theorem to_absolute_of_unit_pixels (cid : Z) (x0 x1 y0 y1 : bool)
    (img_width img_height : Z) :
  let b := mkBoundingBox (F := F) cid
             (PyInt (Z.b2z x0)) (PyInt (Z.b2z x1))
             (PyInt (Z.b2z y0)) (PyInt (Z.b2z y1)) in
  to_absolute b img_width img_height
  = Return (mkBoundingBox cid
              (PyInt (Z.b2z x0 * img_width)) (PyInt (Z.b2z x1 * img_width))
              (PyInt (Z.b2z y0 * img_height)) (PyInt (Z.b2z y1 * img_height)))
  /\ to_relative b img_width img_height = Return b.
Proof.
  destruct x0, x1, y0, y1; split; reflexivity.
Qed.

(** Drawing reads the coordinates of a box, not its class. *)
Lemma draw_class_id (self : Annotation2Mask F) (mask : ndarray)
    (b b' : BoundingBox F) :
  same_coordinates b b' ->
  Annotation2Mask.draw self mask b = Annotation2Mask.draw self mask b'.
Proof.
  intros (E0 & E1 & E2 & E3). unfold Annotation2Mask.draw.
  destruct (getitem (shape (img self)) 2) as [img_width|]; [|reflexivity].
  destruct (getitem (shape (img self)) 1) as [img_height|]; [|reflexivity].
  cbn [bind]. unfold BoundingBox.to_absolute, BoundingBox.is_absolute,
    BoundingBox.is_relative.
  rewrite E0, E1, E2, E3.
  destruct (negb (negb _)); cbn [bind min_x max_x min_y max_y];
    [|reflexivity].
  destruct (p <- num_mul (min_x b') (PyInt img_width) ;; num_int p);
    cbn [bind]; [|reflexivity].
  destruct (p <- num_mul (max_x b') (PyInt img_width) ;; num_int p);
    cbn [bind]; [|reflexivity].
  destruct (p <- num_mul (min_y b') (PyInt img_height) ;; num_int p);
    cbn [bind]; [|reflexivity].
  destruct (p <- num_mul (max_y b') (PyInt img_height) ;; num_int p);
    cbn [bind]; reflexivity.
Qed.

Lemma draw_all_same_coordinates (self : Annotation2Mask F)
    (l l' : list (BoundingBox F)) :
  Forall2 same_coordinates l l' ->
  forall mask,
    Annotation2Mask.draw_all self mask l = Annotation2Mask.draw_all self mask l'.
Proof.
  induction 1 as [|b b' l l' Hb _ IH]; intros mask;
    cbn [Annotation2Mask.draw_all]; [reflexivity|].
  rewrite (draw_class_id self mask b b' Hb).
  destruct (Annotation2Mask.draw self mask b'); cbn [bind];
    [apply IH | reflexivity].
Qed.

(** The corner form of a box does not depend on its class. *)
Lemma to_bbox_relabel (f : Z -> Z) (c : CenteredBoundingBox F) :
  match CenteredBoundingBox.to_bbox c,
        CenteredBoundingBox.to_bbox (relabel f c) with
  | Return b, Return b' => same_coordinates b b'
  | Raise e, Raise e' => e = e'
  | _, _ => False
  end.
Proof.
  unfold CenteredBoundingBox.to_bbox, relabel.
  cbn [center_x center_y width height cbbox_class_id].
  destruct (d <- num_truediv (width c) (PyInt 2) ;; num_sub (center_x c) d);
    cbn [bind]; [|reflexivity].
  destruct (d <- num_truediv (width c) (PyInt 2) ;; num_add (center_x c) d);
    cbn [bind]; [|reflexivity].
  destruct (d <- num_truediv (height c) (PyInt 2) ;; num_sub (center_y c) d);
    cbn [bind]; [|reflexivity].
  destruct (d <- num_truediv (height c) (PyInt 2) ;; num_add (center_y c) d);
    cbn [bind]; [|reflexivity].
  repeat split.
Qed.

Lemma annotations_relabel (f : Z -> Z)
    (raw : list (option (CenteredBoundingBox F))) :
  match mapM MASATIImageAnnotation.entry_to_bbox raw,
        mapM MASATIImageAnnotation.entry_to_bbox
          (map (option_map (relabel f)) raw) with
  | Return l, Return l' => Forall2 same_coordinates l l'
  | Raise e, Raise e' => e = e'
  | _, _ => False
  end.
Proof.
  induction raw as [|entry raw IH]; cbn [map mapM]; [constructor|].
  destruct entry as [c|]; cbn [option_map MASATIImageAnnotation.entry_to_bbox];
    [|reflexivity].
  pose proof (to_bbox_relabel f c) as Hc.
  destruct (CenteredBoundingBox.to_bbox c) as [b|e],
    (CenteredBoundingBox.to_bbox (relabel f c)) as [b'|e'];
    try contradiction; cbn [bind]; [|exact Hc].
  destruct (mapM _ raw) as [l|e], (mapM _ (map _ raw)) as [l'|e'];
    try contradiction; cbn [bind]; [|exact IH].
  constructor; assumption.
Qed.

(** X22: the mask does not depend on the classes of the boxes:
    [create_mask] gives the same result (the same mask, or the same
    exception) when the [class_id] of every box of the annotation is
    replaced by another. A mask marks ship pixels, of whatever class. *)
Theorem create_mask_ignores_class_id (f : Z -> Z) (image : ndarray)
    (raw : list (option (CenteredBoundingBox F))) :
  Annotation2Mask.create_mask
    (with_boxes image (map (option_map (relabel f)) raw))
  = Annotation2Mask.create_mask (with_boxes image raw).
Proof.
  unfold Annotation2Mask.create_mask, MASATIImageAnnotation.annotations.
  cbn [with_boxes annotations img _raw_annotations].
  pose proof (annotations_relabel f raw) as Hr.
  destruct (mapM _ raw) as [l|e], (mapM _ (map _ raw)) as [l'|e'];
    try contradiction; cbn [bind]; [|congruence].
  rewrite (draw_all_img (with_boxes image (map (option_map (relabel f)) raw))
             (with_boxes image raw)) by reflexivity.
  symmetry. apply draw_all_same_coordinates, Hr.
Qed.
End Units.
